(** * stackpulse: the sampling-and-evaluation pipeline

    A shallow embedding of the Go packages [types], [config], [alerts],
    [metrics], [display], [monitor] and [cmd], and the properties of
    the threshold evaluator, the rolling lag window, the collector, the
    dashboard, the scheduler and the [watch] command.

    Conventions.
    - [float64] is Rocq's primitive binary64 [float]; Go's comparison
      [a > b] is [b <? a], so every comparison with a NaN is false, as
      in Go.  Every arithmetic operation is rounded on its own, to
      nearest with ties to even, as the amd64 compiler emits it: a
      product and a sum are not fused into one rounding.
    - [uint64] and [int] fields are [Z]; the code only reads and
      compares them, so no wrap-around arises.  The one product, of
      the polling flag and a millisecond, is taken in int64.
    - what is written to the terminal is kept as the sequence of the
      writes, tables as their header and rows.
    - [time.Now()] reads a clock that is threaded as explicit state.
    - a Go [map[string]uint64] is a [gmap string Z].
    - strings built by [fmt.Sprintf] and errors built by [fmt.Errorf]
      are kept as the format string with its operands: Go's formatter
      is a library routine outside the repository, and two results are
      equal as soon as format and operands are. *)

From stdpp Require Import base gmap strings list.
From Stdlib Require Import ZArith Lia Bool List Floats Sorted Permutation.
Import ListNotations.

Local Open Scope string_scope.
Local Open Scope list_scope.

(** ** Go's float64 *)

Module float64.

(** [a > b] and [a >= b] on float64. *)
Definition gtb (a b : float) : bool := PrimFloat.ltb b a.
Definition geb (a b : float) : bool := PrimFloat.leb b a.

(** The conversion [float64(n)] of an integer: the nearest binary64,
    ties to even. *)
Definition of_Z (n : Z) : float :=
  SF2Prim (binary_normalize prec emax n 0 false).

(** The conversion [int(f)] of a float: truncation toward zero.  Only
    finite values in the integer range are converted by the code. *)
Definition to_Z (f : float) : Z :=
  match Prim2SF f with
  | S754_finite s m e =>
      let a := match e with
               | Zneg p => Z.shiftr (Zpos m) (Zpos p)
               | _ => Z.shiftl (Zpos m) e
               end in
      if s then Z.opp a else a
  | _ => 0%Z
  end.

(** [math.Min]: [Min(x, -Inf) = Min(-Inf, x) = -Inf],
    [Min(x, NaN) = Min(NaN, x) = NaN], [Min(-0, ±0) = Min(±0, -0) = -0]. *)
Definition Min (x y : float) : float :=
  if (is_infinity x && get_sign x) || (is_infinity y && get_sign y)
  then neg_infinity
  else if is_nan x || is_nan y then nan
  else if is_zero x && is_zero y then (if get_sign x then x else y)
  else if PrimFloat.ltb x y then x else y.

End float64.

Infix ">?" := float64.gtb (at level 70, no associativity) : float_scope.

(** ** Package time *)

Module time.

(** An instant of the wall clock, in nanoseconds. *)
Definition Time := Z.
(** [time.Duration]: a count of nanoseconds. *)
Definition Duration := Z.
Definition Millisecond : Duration := 1000000%Z.
Definition Second : Duration := 1000000000%Z.

(** The clock: the readings that successive calls of [time.Now] will
    return, and how many have been taken. *)
Record Clock := { reading : nat -> Time; taken : nat }.

(** Computations that read the clock. *)
Definition M (A : Type) : Type := Clock -> A * Clock.

Definition ret {A} (a : A) : M A := fun c => (a, c).
Definition bind {A B} (m : M A) (k : A -> M B) : M B :=
  fun c => let '(a, c') := m c in k a c'.

Definition Now : M Time :=
  fun c => (reading c (taken c),
            {| reading := reading c; taken := S (taken c) |}).

End time.

Notation "'let*' x ':=' m 'in' k" := (time.bind m (fun x => k))
  (at level 10, x name, m at level 100, k at level 200).
Notation "'let*' ' p ':=' m 'in' k" := (time.bind m (fun p => k))
  (at level 10, p strict pattern, m at level 100, k at level 200).

(** ** Package fmt *)

Module fmt.

(** An operand of a formatting verb, and an [error] value. *)
Inductive arg :=
| F (f : float)      (* %f verbs *)
| D (n : Z)          (* %d *)
| S (s : string)     (* %s *)
| W (e : error)      (* %w, %v of an error *)
with error :=
| Errorf (format : string) (args : list arg)
| Lib (description : string).   (* an error returned by a library call *)

(** The string [fmt.Sprintf(format, args...)]. *)
Inductive text := Sprintf (format : string) (args : list arg).

End fmt.

(** ** Package types *)

Module types.

Definition AlertType := string.
Definition AlertSeverity := string.

Definition AlertTypeCPU : AlertType := "cpu".
Definition AlertTypeMemory : AlertType := "memory".
Definition AlertTypeEventLoop : AlertType := "eventloop".
Definition AlertTypeHeap : AlertType := "heap".

Definition SeverityInfo : AlertSeverity := "info".
Definition SeverityWarning : AlertSeverity := "warning".
Definition SeverityCritical : AlertSeverity := "critical".

Module Alert.
Record t := {
  Type_ : AlertType;
  Severity : AlertSeverity;
  Message : fmt.text;
  Value : float;
  Threshold : float;
  Timestamp : time.Time }.
End Alert.

Module CPUMetrics.
Record t := {
  Usage : float;
  UserTime : float;
  SystemTime : float;
  Timestamp : time.Time }.
End CPUMetrics.

Module MemoryMetrics.
Record t := {
  RSS : Z;
  VMS : Z;
  HeapTotal : Z;
  HeapUsed : Z;
  External : Z;
  Timestamp : time.Time }.
End MemoryMetrics.

Module EventLoopMetrics.
Record t := {
  Lag : float;
  Mean : float;
  Max : float;
  P95 : float;
  Min : float;
  Utilization : float;
  Timestamp : time.Time }.
End EventLoopMetrics.

Module ThreadPoolMetrics.
Record t := {
  QueueSize : Z;
  PoolSize : Z;
  ActiveCount : Z;
  PendingCount : Z;
  Timestamp : time.Time }.
End ThreadPoolMetrics.

Module GCMetrics.
Record t := {
  Collections : Z;
  Duration : float;
  HeapSizeBefore : Z;
  HeapSizeAfter : Z;
  Type_ : string;
  Reason : string;
  CollectionsTotal : Z;
  DurationTotal : float;
  Timestamp : time.Time }.
End GCMetrics.

Module HandleMetrics.
Record t := {
  Active : Z;
  Refs : Z;
  Timers : Z;
  TCPSockets : Z;
  UDPSockets : Z;
  Files : Z;
  Timestamp : time.Time }.
End HandleMetrics.

Module V8Metrics.
Record t := {
  HeapSpaceUsed : gmap string Z;
  HeapSpaceSize : gmap string Z;
  HeapSpaceAvailable : gmap string Z;
  MallocedMemory : Z;
  PeakMallocedMemory : Z;
  Timestamp : time.Time }.
End V8Metrics.

Module Status.
Record t := {
  PID : Z;
  CPU : CPUMetrics.t;
  Memory : MemoryMetrics.t;
  EventLoop : EventLoopMetrics.t;
  ThreadPool : ThreadPoolMetrics.t;
  GC : GCMetrics.t;
  Handles : HandleMetrics.t;
  V8 : V8Metrics.t;
  Timestamp : time.Time;
  Alerts : list Alert.t }.
End Status.

End types.

(** ** Package config *)

Module config.

Record ServiceConfig := {
  Host : string;
  Port : Z;
  PID : Z;
  InspectPort : Z;
  PollingInterval : time.Duration;
  HeapLimit : string;
  CPUThreshold : float }.

Definition Validate (sc : ServiceConfig) : option fmt.error :=
  if (PID sc =? 0)%Z && (Port sc =? 0)%Z then
    Some (fmt.Errorf "must specify either PID or port" [])
  else if (CPUThreshold sc <=? 0)%float || (CPUThreshold sc >? 100)%float then
    Some (fmt.Errorf "CPU threshold must be between 0 and 100" [])
  else if (PollingInterval sc <? time.Millisecond)%Z then
    Some (fmt.Errorf "polling interval must be at least 1ms" [])
  else None.

End config.

(** ** Package alerts *)

Module alerts.
Import types config.

Record Manager := { activeAlerts : gmap string Alert.t }.

Definition NewManager : Manager := {| activeAlerts := ∅ |}.

Definition CheckThresholds (m : Manager) (status : Status.t)
    (cfg : ServiceConfig) : time.M (list Alert.t) :=
  let alerts : list Alert.t := [] in

  (* Check CPU threshold *)
  let* alerts :=
    if (CPUMetrics.Usage (Status.CPU status) >? CPUThreshold cfg)%float then
      let severity :=
        if (CPUMetrics.Usage (Status.CPU status) >? 90)%float
        then SeverityCritical else SeverityWarning in
      let* now := time.Now in
      let alert := {|
        Alert.Type_ := AlertTypeCPU;
        Alert.Severity := severity;
        Alert.Message :=
          fmt.Sprintf "High CPU usage: %.2f%% (threshold: %.2f%%)"
            [fmt.F (CPUMetrics.Usage (Status.CPU status));
             fmt.F (CPUThreshold cfg)];
        Alert.Value := CPUMetrics.Usage (Status.CPU status);
        Alert.Threshold := CPUThreshold cfg;
        Alert.Timestamp := now |} in
      time.ret (alerts ++ [alert])
    else time.ret alerts in

  (* Check memory threshold *)
  let memoryMB :=
    (float64.of_Z (MemoryMetrics.RSS (Status.Memory status)) / 1024 / 1024)%float in
  let* alerts :=
    if (memoryMB >? 150)%float then
      let severity :=
        if (memoryMB >? 200)%float then SeverityCritical else SeverityWarning in
      let* now := time.Now in
      let alert := {|
        Alert.Type_ := AlertTypeMemory;
        Alert.Severity := severity;
        Alert.Message :=
          fmt.Sprintf "High memory usage: %.1f MB (threshold: 150 MB)"
            [fmt.F memoryMB];
        Alert.Value := memoryMB;
        Alert.Threshold := 150;
        Alert.Timestamp := now |} in
      time.ret (alerts ++ [alert])
    else time.ret alerts in

  (* Check heap usage *)
  let* alerts :=
    if (MemoryMetrics.HeapTotal (Status.Memory status) >? 0)%Z then
      let heapUsage :=
        (float64.of_Z (MemoryMetrics.HeapUsed (Status.Memory status))
         / float64.of_Z (MemoryMetrics.HeapTotal (Status.Memory status))
         * 100)%float in
      if (heapUsage >? 80)%float then
        let severity :=
          if (heapUsage >? 95)%float then SeverityCritical else SeverityWarning in
        let* now := time.Now in
        let alert := {|
          Alert.Type_ := AlertTypeHeap;
          Alert.Severity := severity;
          Alert.Message :=
            fmt.Sprintf "High heap usage: %.1f%% (threshold: 80%%)"
              [fmt.F heapUsage];
          Alert.Value := heapUsage;
          Alert.Threshold := 80;
          Alert.Timestamp := now |} in
        time.ret (alerts ++ [alert])
      else time.ret alerts
    else time.ret alerts in

  (* Check event loop lag *)
  let* alerts :=
    if (EventLoopMetrics.Lag (Status.EventLoop status) >? 5)%float then
      let severity :=
        if (EventLoopMetrics.Lag (Status.EventLoop status) >? 20)%float
        then SeverityCritical else SeverityWarning in
      let* now := time.Now in
      let alert := {|
        Alert.Type_ := AlertTypeEventLoop;
        Alert.Severity := severity;
        Alert.Message :=
          fmt.Sprintf "High event loop lag: %.2fms (threshold: 5ms)"
            [fmt.F (EventLoopMetrics.Lag (Status.EventLoop status))];
        Alert.Value := EventLoopMetrics.Lag (Status.EventLoop status);
        Alert.Threshold := 5;
        Alert.Timestamp := now |} in
      time.ret (alerts ++ [alert])
    else time.ret alerts in

  (* Check event loop utilization *)
  let* alerts :=
    if (EventLoopMetrics.Utilization (Status.EventLoop status) >? 70)%float then
      let severity :=
        if (EventLoopMetrics.Utilization (Status.EventLoop status) >? 90)%float
        then SeverityCritical else SeverityWarning in
      let* now := time.Now in
      let alert := {|
        Alert.Type_ := AlertTypeEventLoop;
        Alert.Severity := severity;
        Alert.Message :=
          fmt.Sprintf "High event loop utilization: %.1f%% (threshold: 70%%)"
            [fmt.F (EventLoopMetrics.Utilization (Status.EventLoop status))];
        Alert.Value := EventLoopMetrics.Utilization (Status.EventLoop status);
        Alert.Threshold := 70;
        Alert.Timestamp := now |} in
      time.ret (alerts ++ [alert])
    else time.ret alerts in

  (* Check GC duration *)
  let* alerts :=
    if (GCMetrics.Duration (Status.GC status) >? 10)%float then
      let severity :=
        if (GCMetrics.Duration (Status.GC status) >? 50)%float
        then SeverityCritical else SeverityWarning in
      let* now := time.Now in
      let alert := {|
        Alert.Type_ := "gc";
        Alert.Severity := severity;
        Alert.Message :=
          fmt.Sprintf "Long GC duration: %.2fms (threshold: 10ms)"
            [fmt.F (GCMetrics.Duration (Status.GC status))];
        Alert.Value := GCMetrics.Duration (Status.GC status);
        Alert.Threshold := 10;
        Alert.Timestamp := now |} in
      time.ret (alerts ++ [alert])
    else time.ret alerts in

  (* Check handle count *)
  let* alerts :=
    if (HandleMetrics.Active (Status.Handles status) >? 50)%Z then
      let severity :=
        if (HandleMetrics.Active (Status.Handles status) >? 100)%Z
        then SeverityCritical else SeverityWarning in
      let* now := time.Now in
      let alert := {|
        Alert.Type_ := "handles";
        Alert.Severity := severity;
        Alert.Message :=
          fmt.Sprintf "High handle count: %d (threshold: 50)"
            [fmt.D (HandleMetrics.Active (Status.Handles status))];
        Alert.Value := float64.of_Z (HandleMetrics.Active (Status.Handles status));
        Alert.Threshold := 50;
        Alert.Timestamp := now |} in
      time.ret (alerts ++ [alert])
    else time.ret alerts in

  time.ret alerts.

End alerts.

(** ** The monitored host

    What the operating system (through gopsutil and [net]) and the
    inspector's HTTP endpoint answer during one tick. *)

Module host.

Inductive result (A : Type) :=
| Ok (a : A)
| Err (e : fmt.error).
Arguments Ok {A} a.
Arguments Err {A} e.

(** A gopsutil process handle and what its queries return. *)
Record Process := {
  Pid : Z;
  CPUPercent : result float;
  Times : result (float * float);        (* user, system *)
  MemoryInfo : result (Z * Z);           (* rss, vms *)
  Connections : result (list Z) }.       (* local ports *)

(** A session object of the discovery document: the value of its
    [webSocketDebuggerUrl] field when that is a string. *)
Definition session := option string.

(** What a request returns.  The requests of [getNodeMemoryInfo] and
    [getHeapUsageFromInspector] run on clients with a timeout and
    always return.  The discovery request of
    [getInspectorWebSocketURL] runs on the default client, which has
    none, and the context with a deadline that its caller makes is not
    handed to it: towards a peer that accepts the connection and never
    answers, that request, and with it the tick, does not return.  A
    host of this model is one whose requests return, and what is
    proved of a call is proved of the calls that return. *)
Inductive HTTPReply :=
| Refused (e : fmt.error)                 (* [http.Get] returns an error *)
| Response (sessions : result (list session)).
                                          (* the body, decoded as a session list *)

Record World := {
  Dial : Z -> option fmt.error;           (* net.Dial("tcp", ":port") *)
  Processes : result (list Process);      (* process.Processes() *)
  NewProcess : Z -> result Process;       (* process.NewProcess(pid) *)
  Get : Z -> string -> HTTPReply }.       (* GET http://localhost:port/path *)

(** The conversion [int32(pid)]. *)
Definition int32 (n : Z) : Z := ((n + 2 ^ 31) mod 2 ^ 32 - 2 ^ 31)%Z.

End host.

(** ** Package metrics *)

Module metrics.
Import types config host.

(** The collector's [config] pointer is the monitor's own
    configuration object; the functions that read it take it as an
    argument.  The timer fields are never used. *)
Record Collector := { eventLoopHist : list float }.

Definition NewCollector (cfg : ServiceConfig) : Collector :=
  {| eventLoopHist := [] |}.

(** The first process of [processes] with a connection on [port]. *)
Fixpoint find_owner (port : Z) (processes : list Process) : option Z :=
  match processes with
  | [] => None
  | p :: rest =>
      match Connections p with
      | Err _ => find_owner port rest
      | Ok connections =>
          if existsb (fun laddr => (laddr =? port)%Z) connections
          then Some (Pid p)
          else find_owner port rest
      end
  end.

Definition FindProcessByPort (w : World) (port : Z) : result Z :=
  match Dial w port with
  | Some err =>
      Err (fmt.Errorf "no process listening on port %d: %w" [fmt.D port; fmt.W err])
  | None =>
      match Processes w with
      | Err err => Err (fmt.Errorf "failed to get processes: %w" [fmt.W err])
      | Ok processes =>
          match find_owner port processes with
          | Some pid => Ok pid
          | None => Err (fmt.Errorf "could not find process for port %d" [fmt.D port])
          end
      end
  end.

Definition CollectCPU (w : World) (pid : Z) : time.M (result CPUMetrics.t) :=
  match NewProcess w (int32 pid) with
  | Err err =>
      time.ret (Err (fmt.Errorf "failed to get process %d: %w" [fmt.D pid; fmt.W err]))
  | Ok proc =>
      match CPUPercent proc with
      | Err err => time.ret (Err (fmt.Errorf "failed to get CPU percent: %w" [fmt.W err]))
      | Ok cpuPercent =>
          match Times proc with
          | Err err => time.ret (Err (fmt.Errorf "failed to get CPU times: %w" [fmt.W err]))
          | Ok times =>
              let* now := time.Now in
              time.ret (Ok {|
                CPUMetrics.Usage := cpuPercent;
                CPUMetrics.UserTime := fst times;
                CPUMetrics.SystemTime := snd times;
                CPUMetrics.Timestamp := now |})
          end
      end
  end.

Definition getHeapUsageFromInspector (w : World) (inspectPort : Z)
    : time.M (result MemoryMetrics.t) :=
  match Get w inspectPort "/json/runtime/evaluate" with
  | Refused err => time.ret (Err err)
  | Response _ =>
      let* now := time.Now in
      time.ret (Ok {|
        MemoryMetrics.RSS := 0;
        MemoryMetrics.VMS := 0;
        MemoryMetrics.HeapTotal := 60 * 1024 * 1024;
        MemoryMetrics.HeapUsed := 45 * 1024 * 1024;
        MemoryMetrics.External := 8 * 1024 * 1024;
        MemoryMetrics.Timestamp := now |})
  end.

Definition getNodeMemoryInfo (w : World) (cfg : ServiceConfig) (pid : Z)
    : time.M (result MemoryMetrics.t) :=
  match Get w (InspectPort cfg) "/json" with
  | Refused err =>
      time.ret (Err (fmt.Errorf "failed to connect to V8 inspector: %w" [fmt.W err]))
  | Response _ =>
      let* memoryInfo := getHeapUsageFromInspector w (InspectPort cfg) in
      match memoryInfo with
      | Err _ =>
          let* now := time.Now in
          time.ret (Ok {|
            MemoryMetrics.RSS := 0;
            MemoryMetrics.VMS := 0;
            MemoryMetrics.HeapTotal := 50 * 1024 * 1024;
            MemoryMetrics.HeapUsed := 30 * 1024 * 1024;
            MemoryMetrics.External := 5 * 1024 * 1024;
            MemoryMetrics.Timestamp := now |})
      | Ok memoryInfo => time.ret (Ok memoryInfo)
      end
  end.

Definition CollectMemory (w : World) (cfg : ServiceConfig) (pid : Z)
    : time.M (result MemoryMetrics.t) :=
  match NewProcess w (int32 pid) with
  | Err err =>
      time.ret (Err (fmt.Errorf "failed to get process %d: %w" [fmt.D pid; fmt.W err]))
  | Ok proc =>
      match MemoryInfo proc with
      | Err err => time.ret (Err (fmt.Errorf "failed to get memory info: %w" [fmt.W err]))
      | Ok memInfo =>
          let* nodeMemory := getNodeMemoryInfo w cfg pid in
          match nodeMemory with
          | Err _ =>
              let* now := time.Now in
              time.ret (Ok {|
                MemoryMetrics.RSS := fst memInfo;
                MemoryMetrics.VMS := snd memInfo;
                MemoryMetrics.HeapTotal := 0;
                MemoryMetrics.HeapUsed := 0;
                MemoryMetrics.External := 0;
                MemoryMetrics.Timestamp := now |})
          | Ok nodeMemory =>
              let* now := time.Now in
              time.ret (Ok {|
                MemoryMetrics.RSS := fst memInfo;
                MemoryMetrics.VMS := snd memInfo;
                MemoryMetrics.HeapTotal := MemoryMetrics.HeapTotal nodeMemory;
                MemoryMetrics.HeapUsed := MemoryMetrics.HeapUsed nodeMemory;
                MemoryMetrics.External := MemoryMetrics.External nodeMemory;
                MemoryMetrics.Timestamp := now |})
          end
      end
  end.

Definition getInspectorWebSocketURL (w : World) (inspectPort : Z) : result string :=
  match Get w inspectPort "/json" with
  | Refused err => Err (fmt.Errorf "failed to connect to inspector: %w" [fmt.W err])
  | Response (Err err) =>
      Err (fmt.Errorf "failed to parse inspector response: %w" [fmt.W err])
  | Response (Ok sessions) =>
      match sessions with
      | [] => Err (fmt.Errorf "no inspector sessions available" [])
      | first :: _ =>
          match first with
          | None => Err (fmt.Errorf "no WebSocket URL found" [])
          | Some wsURL => Ok wsURL
          end
      end
  end.

(** A value of type [interface{}]. *)
Inductive any :=
| any_float64 (f : float)
| any_other.

(** The script is not sent anywhere: the lag is simulated from the
    CPU usage of the configured process. *)
Definition executeScript (w : World) (cfg : ServiceConfig) (wsURL script : string)
    : result any :=
  match NewProcess w (int32 (PID cfg)) with
  | Err err => Err err
  | Ok proc =>
      match CPUPercent proc with
      | Err err => Err err
      | Ok cpuPercent =>
          let baseLag := 0.5%float in
          let cpuFactor := (cpuPercent / 100.0)%float in
          let simulatedLag := (baseLag + (cpuFactor * 50))%float in
          Ok (any_float64 simulatedLag)
      end
  end.

(** The timing probe: a 1ms timer whose drift is the lag. *)
Definition lagScript : string :=
  "(function() { const start = process.hrtime.bigint(); const expected = 1; return new Promise((resolve) => { setTimeout(() => { const actual = Number(process.hrtime.bigint() - start) / 1000000; const lag = Math.max(0, actual - expected); resolve(lag); }, expected); }); })()".

Definition measureEventLoopLag (w : World) (cfg : ServiceConfig) (inspectPort : Z)
    : result float :=
  match getInspectorWebSocketURL w inspectPort with
  | Err err => Err err
  | Ok wsURL =>
      match executeScript w cfg wsURL lagScript with
      | Err err => Err err
      | Ok (any_float64 lag) => Ok lag
      | Ok _ => Err (fmt.Errorf "invalid lag measurement result" [])
      end
  end.

(** The accumulation loop of [calculateEventLoopStats]: one step
    for a sample [lag], on the triple (sum, max, min). *)
Definition accumulate (acc : float * float * float) (lag : float)
    : float * float * float :=
  let '(sum, max, min) := acc in
  let sum := (sum + lag)%float in
  let max := if (lag >? max)%float then lag else max in
  let min := if (lag <? min)%float then lag else min in
  (sum, max, min).

(** The body of the inner sorting loop at index [j]: swap the
    neighbours when the left one is greater. *)
Definition compare_swap (sorted : list float) (j : nat) : list float :=
  match sorted !! j, sorted !! (j + 1)%nat with
  | Some a, Some b =>
      if (a >? b)%float then <[j := b]> (<[(j + 1)%nat := a]> sorted) else sorted
  | _, _ => sorted
  end.

(** [for j := 0; j < len(sorted)-1-i; j++] *)
Definition bubble_pass (sorted : list float) (i : nat) : list float :=
  foldl compare_swap sorted (seq 0 (length sorted - 1 - i)).

(** [for i := 0; i < len(sorted); i++] *)
Definition bubble_sort (sorted : list float) : list float :=
  foldl bubble_pass sorted (seq 0 (length sorted)).

(** [int(float64(len(sorted)) * 0.95)], clamped to the last index. *)
#[warnings="-inexact-float"]
Definition p95Index (len : nat) : Z :=
  let p95Index := float64.to_Z (float64.of_Z (Z.of_nat len) * 0.95)%float in
  if (p95Index >=? Z.of_nat len)%Z then (Z.of_nat len - 1)%Z else p95Index.

(** Returns (mean, max, min, p95). *)
Definition calculateEventLoopStats (c : Collector)
    : float * float * float * float :=
  match eventLoopHist c with
  | [] => (0, 0, 0, 0)%float
  | first :: _ =>
      let '(sum, max, min) :=
        foldl accumulate (0%float, first, first) (eventLoopHist c) in
      let mean := (sum / float64.of_Z (Z.of_nat (length (eventLoopHist c))))%float in
      let sorted := bubble_sort (eventLoopHist c) in
      let p95 := nth (Z.to_nat (p95Index (length sorted))) sorted 0%float in
      (mean, max, min, p95)
  end.

Definition calculateEventLoopUtilization (currentLag : float) : float :=
  if (currentLag <=? 1)%float then
    (currentLag * 10)%float
  else float64.Min 100 (10 + ((currentLag - 1) * 5))%float.

Definition CollectEventLoop (w : World) (cfg : ServiceConfig) (c : Collector)
    (pid inspectPort : Z) : time.M (Collector * result EventLoopMetrics.t) :=
  let lag :=
    match measureEventLoopLag w cfg inspectPort with
    | Err _ => 0%float
    | Ok lag => lag
    end in
  (* Add to history for statistics *)
  let hist := eventLoopHist c ++ [lag] in
  let hist := if (100 <? length hist)%nat then drop 1 hist else hist in
  let c := {| eventLoopHist := hist |} in
  let '(mean, max, min, p95) := calculateEventLoopStats c in
  let utilization := calculateEventLoopUtilization lag in
  let* now := time.Now in
  time.ret (c, Ok {|
    EventLoopMetrics.Lag := lag;
    EventLoopMetrics.Mean := mean;
    EventLoopMetrics.Max := max;
    EventLoopMetrics.Min := min;
    EventLoopMetrics.P95 := p95;
    EventLoopMetrics.Utilization := utilization;
    EventLoopMetrics.Timestamp := now |}).

Definition getThreadPoolMetrics (inspectPort : Z)
    : time.M (result ThreadPoolMetrics.t) :=
  let* now := time.Now in
  time.ret (Ok {|
    ThreadPoolMetrics.QueueSize := 0;
    ThreadPoolMetrics.PoolSize := 4;
    ThreadPoolMetrics.ActiveCount := 2;
    ThreadPoolMetrics.PendingCount := 0;
    ThreadPoolMetrics.Timestamp := now |}).

Definition getGCMetrics (inspectPort : Z) : time.M (result GCMetrics.t) :=
  let* now := time.Now in
  time.ret (Ok {|
    GCMetrics.Collections := 1;
    GCMetrics.Duration := 2.5;
    GCMetrics.HeapSizeBefore := 50 * 1024 * 1024;
    GCMetrics.HeapSizeAfter := 45 * 1024 * 1024;
    GCMetrics.Type_ := "minor";
    GCMetrics.Reason := "allocation_limit";
    GCMetrics.CollectionsTotal := 10;
    GCMetrics.DurationTotal := 25.0;
    GCMetrics.Timestamp := now |}).

Definition getHandleMetrics (inspectPort : Z) : time.M (result HandleMetrics.t) :=
  let* now := time.Now in
  time.ret (Ok {|
    HandleMetrics.Active := 15;
    HandleMetrics.Refs := 8;
    HandleMetrics.Timers := 3;
    HandleMetrics.TCPSockets := 2;
    HandleMetrics.UDPSockets := 0;
    HandleMetrics.Files := 2;
    HandleMetrics.Timestamp := now |}).

Definition getV8Metrics (inspectPort : Z) : time.M (result V8Metrics.t) :=
  let heapSpaces : gmap string Z :=
    <["new_space" := (10 * 1024 * 1024)%Z]>
      (<["old_space" := (40 * 1024 * 1024)%Z]>
        (<["code_space" := (5 * 1024 * 1024)%Z]>
          (<["map_space" := (2 * 1024 * 1024)%Z]>
            (<["large_object" := (8 * 1024 * 1024)%Z]> ∅)))) in
  let* now := time.Now in
  time.ret (Ok {|
    V8Metrics.HeapSpaceUsed := heapSpaces;
    V8Metrics.HeapSpaceSize := heapSpaces;
    V8Metrics.HeapSpaceAvailable := heapSpaces;
    V8Metrics.MallocedMemory := 15 * 1024 * 1024;
    V8Metrics.PeakMallocedMemory := 20 * 1024 * 1024;
    V8Metrics.Timestamp := now |}).

Definition CollectThreadPool (cfg : ServiceConfig) (pid : Z)
    : time.M (result ThreadPoolMetrics.t) :=
  let* metrics := getThreadPoolMetrics (InspectPort cfg) in
  match metrics with
  | Err _ =>
      let* now := time.Now in
      time.ret (Ok {|
        ThreadPoolMetrics.QueueSize := 0;
        ThreadPoolMetrics.PoolSize := 4;
        ThreadPoolMetrics.ActiveCount := 0;
        ThreadPoolMetrics.PendingCount := 0;
        ThreadPoolMetrics.Timestamp := now |})
  | Ok metrics => time.ret (Ok metrics)
  end.

Definition CollectGC (pid inspectPort : Z) : time.M (result GCMetrics.t) :=
  let* metrics := getGCMetrics inspectPort in
  match metrics with
  | Err _ =>
      let* now := time.Now in
      time.ret (Ok {|
        GCMetrics.Collections := 0;
        GCMetrics.Duration := 0;
        GCMetrics.HeapSizeBefore := 0;
        GCMetrics.HeapSizeAfter := 0;
        GCMetrics.Type_ := "unknown";
        GCMetrics.Reason := "unknown";
        GCMetrics.CollectionsTotal := 0;
        GCMetrics.DurationTotal := 0;
        GCMetrics.Timestamp := now |})
  | Ok metrics => time.ret (Ok metrics)
  end.

Definition CollectHandles (pid inspectPort : Z) : time.M (result HandleMetrics.t) :=
  let* metrics := getHandleMetrics inspectPort in
  match metrics with
  | Err _ =>
      let* now := time.Now in
      time.ret (Ok {|
        HandleMetrics.Active := 0;
        HandleMetrics.Refs := 0;
        HandleMetrics.Timers := 0;
        HandleMetrics.TCPSockets := 0;
        HandleMetrics.UDPSockets := 0;
        HandleMetrics.Files := 0;
        HandleMetrics.Timestamp := now |})
  | Ok metrics => time.ret (Ok metrics)
  end.

Definition CollectV8 (pid inspectPort : Z) : time.M (result V8Metrics.t) :=
  let* metrics := getV8Metrics inspectPort in
  match metrics with
  | Err _ =>
      let* now := time.Now in
      time.ret (Ok {|
        V8Metrics.HeapSpaceUsed := ∅;
        V8Metrics.HeapSpaceSize := ∅;
        V8Metrics.HeapSpaceAvailable := ∅;
        V8Metrics.MallocedMemory := 0;
        V8Metrics.PeakMallocedMemory := 0;
        V8Metrics.Timestamp := now |})
  | Ok metrics => time.ret (Ok metrics)
  end.

(** The lag sample of a collection step: the measurement, or 0 when
    it fails. *)
Definition lagSample (w : World) (cfg : ServiceConfig) (inspectPort : Z) : float :=
  match measureEventLoopLag w cfg inspectPort with
  | Err _ => 0%float
  | Ok lag => lag
  end.

(** Successive collection steps, one per state of the host; returns
    the collector at the end and the metrics of each step. *)
Fixpoint CollectEventLoops (cfg : ServiceConfig) (c : Collector)
    (pid inspectPort : Z) (ws : list World)
    : time.M (Collector * list (result EventLoopMetrics.t)) :=
  match ws with
  | [] => time.ret (c, [])
  | w :: ws =>
      let* '(c, r) := CollectEventLoop w cfg c pid inspectPort in
      let* '(c, rs) := CollectEventLoops cfg c pid inspectPort ws in
      time.ret (c, r :: rs)
  end.

(** One pass of the inner sorting loop over the first [k + 1]
    elements, by recursion on the list. *)
Fixpoint bubble (k : nat) (l : list float) : list float :=
  match k, l with
  | S k, a :: b :: t =>
      if (a >? b)%float then b :: bubble k (a :: t) else a :: bubble k (b :: t)
  | _, _ => l
  end.

(** The four statistics of an event-loop record. *)
Definition stats (e : EventLoopMetrics.t) : float * float * float * float :=
  (EventLoopMetrics.Mean e, EventLoopMetrics.Max e,
   EventLoopMetrics.Min e, EventLoopMetrics.P95 e).

End metrics.

(** ** Packages color and tablewriter

    The two terminal libraries, as the calls that the dashboard makes:
    a table is what has been set and appended so far. *)

Module color.

Inductive Attribute := FgCyan | FgGreen | FgRed | FgMagenta | Bold.

End color.

Module tablewriter.

Inductive Color :=
| Bold | FgCyanColor | FgGreenColor | FgYellowColor | FgRedColor | FgMagentaColor.

Definition Colors := list Color.

(** A cell: a string literal, a string built by [fmt.Sprintf], or
    [strings.Join] of one part per key of a map, in the order in which
    [range] visits the map. *)
Inductive cell :=
| Lit (s : string)
| Text (t : fmt.text)
| Join (parts : gmap string fmt.text) (sep : string).

Record Table := {
  header : list string;
  border : bool;
  headerColor : list Colors;
  rows : list (list cell * list Colors) }.

Definition NewWriter : Table :=
  {| header := []; border := true; headerColor := []; rows := [] |}.

Definition SetHeader (t : Table) (keys : list string) : Table :=
  {| header := keys; border := border t; headerColor := headerColor t; rows := rows t |}.

Definition SetBorder (t : Table) (b : bool) : Table :=
  {| header := header t; border := b; headerColor := headerColor t; rows := rows t |}.

Definition SetHeaderColor (t : Table) (colors : list Colors) : Table :=
  {| header := header t; border := border t; headerColor := colors; rows := rows t |}.

Definition Rich (t : Table) (row : list cell) (colors : list Colors) : Table :=
  {| header := header t; border := border t; headerColor := headerColor t;
     rows := rows t ++ [(row, colors)] |}.

Definition Append (t : Table) (row : list cell) : Table := Rich t row [].

End tablewriter.

(** ** Package display

    Rendering to the terminal is kept as the status that was rendered. *)

Module display.
Import types.

Record Dashboard := {
  lastUpdate : time.Time;
  rendered : option Status.t }.

Definition NewDashboard : Dashboard :=
  {| lastUpdate := 0%Z; rendered := None |}.

Definition Update (d : Dashboard) (status : Status.t) : time.M Dashboard :=
  let* now := time.Now in
  time.ret {| lastUpdate := now; rendered := Some status |}.


(** *** What an update writes

    The frame of an update is the sequence of its writes.  Format
    strings are spelled as in the source, escapes included. *)

Inductive operand :=
| A (a : fmt.arg)
| T (t : fmt.text)                               (* a string built by [fmt.Sprintf] *)
| Formatted (t : time.Time) (layout : string).   (* [t.Format(layout)] *)

Inductive written :=
| Clear                                          (* the [clear] or [cls] command *)
| Println (c : list color.Attribute) (line : string)
| Printf (c : list color.Attribute) (format : string) (operands : list operand)
| Render (table : tablewriter.Table).

Definition clearScreen : list written := [Clear].

Definition displayHeader (d : Dashboard) : list written :=
  let headerColor := [color.FgCyan; color.Bold] in
  [Println headerColor "╔══════════════════════════════════════════════════════════════════════════════╗";
   Println headerColor "║                            STACKPULSE DASHBOARD                              ║";
   Println headerColor "╚══════════════════════════════════════════════════════════════════════════════╝";
   Printf [] "Last Update: %s\n\n" [Formatted (lastUpdate d) "15:04:05.000"]].

(** [float64(n)/1024/1024] *)
Definition MB (n : Z) : float := (float64.of_Z n / 1024 / 1024)%float.

Definition displayAdvancedMetrics (status : Status.t) : list written :=
  let advancedColor := [color.FgMagenta; color.Bold] in
  let table := tablewriter.NewWriter in
  let table := tablewriter.SetHeader table ["Metric"; "Current"; "Details"] in
  let table := tablewriter.SetBorder table true in
  let table := tablewriter.SetHeaderColor table
    [[tablewriter.Bold; tablewriter.FgMagentaColor];
     [tablewriter.Bold; tablewriter.FgMagentaColor];
     [tablewriter.Bold; tablewriter.FgMagentaColor]] in
  (* Event loop statistics *)
  let table := tablewriter.Append table
    [tablewriter.Lit "Event Loop Stats";
     tablewriter.Text (fmt.Sprintf "Avg: %.2fms"
       [fmt.F (EventLoopMetrics.Mean (Status.EventLoop status))]);
     tablewriter.Text (fmt.Sprintf "Min: %.2f, Max: %.2f, P95: %.2f"
       [fmt.F (EventLoopMetrics.Min (Status.EventLoop status));
        fmt.F (EventLoopMetrics.Max (Status.EventLoop status));
        fmt.F (EventLoopMetrics.P95 (Status.EventLoop status))])] in
  (* Thread pool *)
  let table := tablewriter.Append table
    [tablewriter.Lit "Thread Pool";
     tablewriter.Text (fmt.Sprintf "Active: %d/%d"
       [fmt.D (ThreadPoolMetrics.ActiveCount (Status.ThreadPool status));
        fmt.D (ThreadPoolMetrics.PoolSize (Status.ThreadPool status))]);
     tablewriter.Text (fmt.Sprintf "Queue: %d, Pending: %d"
       [fmt.D (ThreadPoolMetrics.QueueSize (Status.ThreadPool status));
        fmt.D (ThreadPoolMetrics.PendingCount (Status.ThreadPool status))])] in
  (* GC statistics *)
  let table := tablewriter.Append table
    [tablewriter.Lit "Garbage Collection";
     tablewriter.Text (fmt.Sprintf "Collections: %d"
       [fmt.D (GCMetrics.Collections (Status.GC status))]);
     tablewriter.Text (fmt.Sprintf "Total: %d (%.2fms), Reason: %s"
       [fmt.D (GCMetrics.CollectionsTotal (Status.GC status));
        fmt.F (GCMetrics.DurationTotal (Status.GC status));
        fmt.S (GCMetrics.Reason (Status.GC status))])] in
  (* V8 heap spaces *)
  let table :=
    if (0 <? size (V8Metrics.HeapSpaceUsed (Status.V8 status)))%nat then
      let heapDetails :=
        map_imap (fun space used =>
                    Some (fmt.Sprintf "%s: %.1fMB" [fmt.S space; fmt.F (MB used)]))
          (V8Metrics.HeapSpaceUsed (Status.V8 status)) in
      tablewriter.Append table
        [tablewriter.Lit "V8 Heap Spaces";
         tablewriter.Text (fmt.Sprintf "%d spaces"
           [fmt.D (Z.of_nat (size (V8Metrics.HeapSpaceUsed (Status.V8 status))))]);
         tablewriter.Join heapDetails ", "]
    else table in
  (* Memory details *)
  let table := tablewriter.Append table
    [tablewriter.Lit "Memory Details";
     tablewriter.Text (fmt.Sprintf "Malloc: %.1fMB"
       [fmt.F (MB (V8Metrics.MallocedMemory (Status.V8 status)))]);
     tablewriter.Text (fmt.Sprintf "Peak: %.1fMB, External: %.1fMB"
       [fmt.F (MB (V8Metrics.PeakMallocedMemory (Status.V8 status)));
        fmt.F (MB (MemoryMetrics.External (Status.Memory status)))])] in
  [Println advancedColor "📊 Advanced Node.js Metrics:";
   Render table;
   Println [] String.EmptyString].

Definition displayMetrics (status : Status.t) : list written :=
  (* Service info *)
  let serviceColor := [color.FgGreen; color.Bold] in
  (* Create table for metrics *)
  let table := tablewriter.NewWriter in
  let table := tablewriter.SetHeader table ["Metric"; "Current"; "Status"; "Threshold"] in
  let table := tablewriter.SetBorder table true in
  let table := tablewriter.SetHeaderColor table
    [[tablewriter.Bold; tablewriter.FgCyanColor];
     [tablewriter.Bold; tablewriter.FgCyanColor];
     [tablewriter.Bold; tablewriter.FgCyanColor];
     [tablewriter.Bold; tablewriter.FgCyanColor]] in

  (* CPU metrics *)
  let usage := CPUMetrics.Usage (Status.CPU status) in
  let cpuStatus := "✅ Normal" in
  let cpuColor := [tablewriter.FgGreenColor] in
  let cpuStatus := if (usage >? 70)%float then "⚠️  High" else cpuStatus in
  let cpuColor := if (usage >? 70)%float then [tablewriter.FgYellowColor] else cpuColor in
  let cpuStatus := if (usage >? 90)%float then "🚨 Critical" else cpuStatus in
  let cpuColor := if (usage >? 90)%float then [tablewriter.FgRedColor] else cpuColor in
  let table := tablewriter.Rich table
    [tablewriter.Lit "CPU Usage";
     tablewriter.Text (fmt.Sprintf "%.2f%%" [fmt.F usage]);
     tablewriter.Lit cpuStatus;
     tablewriter.Lit "< 70%"]
    [[]; cpuColor; cpuColor; []] in

  (* Memory metrics *)
  let memoryMB := MB (MemoryMetrics.RSS (Status.Memory status)) in
  let memoryStatus := "✅ Normal" in
  let memoryColor := [tablewriter.FgGreenColor] in
  let memoryStatus := if (memoryMB >? 100)%float then "⚠️  High" else memoryStatus in
  let memoryColor :=
    if (memoryMB >? 100)%float then [tablewriter.FgYellowColor] else memoryColor in
  let memoryStatus := if (memoryMB >? 200)%float then "🚨 Critical" else memoryStatus in
  let memoryColor :=
    if (memoryMB >? 200)%float then [tablewriter.FgRedColor] else memoryColor in
  let table := tablewriter.Rich table
    [tablewriter.Lit "Memory (RSS)";
     tablewriter.Text (fmt.Sprintf "%.1f MB" [fmt.F memoryMB]);
     tablewriter.Lit memoryStatus;
     tablewriter.Lit "< 150 MB"]
    [[]; memoryColor; memoryColor; []] in

  (* Heap metrics *)
  let table :=
    if (MemoryMetrics.HeapTotal (Status.Memory status) >? 0)%Z then
      let heapUsedMB := MB (MemoryMetrics.HeapUsed (Status.Memory status)) in
      let heapTotalMB := MB (MemoryMetrics.HeapTotal (Status.Memory status)) in
      let heapUsage :=
        (float64.of_Z (MemoryMetrics.HeapUsed (Status.Memory status))
         / float64.of_Z (MemoryMetrics.HeapTotal (Status.Memory status))
         * 100)%float in
      let heapStatus := "✅ Normal" in
      let heapColor := [tablewriter.FgGreenColor] in
      let heapStatus := if (heapUsage >? 80)%float then "⚠️  High" else heapStatus in
      let heapColor :=
        if (heapUsage >? 80)%float then [tablewriter.FgYellowColor] else heapColor in
      let heapStatus := if (heapUsage >? 95)%float then "🚨 Critical" else heapStatus in
      let heapColor :=
        if (heapUsage >? 95)%float then [tablewriter.FgRedColor] else heapColor in
      tablewriter.Rich table
        [tablewriter.Lit "Heap Usage";
         tablewriter.Text (fmt.Sprintf "%.1f/%.1f MB (%.1f%%)"
           [fmt.F heapUsedMB; fmt.F heapTotalMB; fmt.F heapUsage]);
         tablewriter.Lit heapStatus;
         tablewriter.Lit "< 80%"]
        [[]; heapColor; heapColor; []]
    else table in

  (* Event loop lag *)
  let lag := EventLoopMetrics.Lag (Status.EventLoop status) in
  let lagStatus := "✅ Normal" in
  let lagColor := [tablewriter.FgGreenColor] in
  let lagStatus := if (lag >? 5)%float then "⚠️  High" else lagStatus in
  let lagColor := if (lag >? 5)%float then [tablewriter.FgYellowColor] else lagColor in
  let lagStatus := if (lag >? 20)%float then "🚨 Critical" else lagStatus in
  let lagColor := if (lag >? 20)%float then [tablewriter.FgRedColor] else lagColor in
  let table := tablewriter.Rich table
    [tablewriter.Lit "Event Loop Lag";
     tablewriter.Text (fmt.Sprintf "%.2f ms" [fmt.F lag]);
     tablewriter.Lit lagStatus;
     tablewriter.Lit "< 5 ms"]
    [[]; lagColor; lagColor; []] in

  (* Event loop utilization *)
  let utilization := EventLoopMetrics.Utilization (Status.EventLoop status) in
  let utilizationStatus := "✅ Normal" in
  let utilizationColor := [tablewriter.FgGreenColor] in
  let utilizationStatus :=
    if (utilization >? 70)%float then "⚠️  High" else utilizationStatus in
  let utilizationColor :=
    if (utilization >? 70)%float then [tablewriter.FgYellowColor] else utilizationColor in
  let utilizationStatus :=
    if (utilization >? 90)%float then "🚨 Critical" else utilizationStatus in
  let utilizationColor :=
    if (utilization >? 90)%float then [tablewriter.FgRedColor] else utilizationColor in
  let table := tablewriter.Rich table
    [tablewriter.Lit "Event Loop Util";
     tablewriter.Text (fmt.Sprintf "%.1f%%" [fmt.F utilization]);
     tablewriter.Lit utilizationStatus;
     tablewriter.Lit "< 70%"]
    [[]; utilizationColor; utilizationColor; []] in

  (* GC metrics *)
  let duration := GCMetrics.Duration (Status.GC status) in
  let gcStatus := "✅ Normal" in
  let gcColor := [tablewriter.FgGreenColor] in
  let gcStatus := if (duration >? 10)%float then "⚠️  High" else gcStatus in
  let gcColor := if (duration >? 10)%float then [tablewriter.FgYellowColor] else gcColor in
  let gcStatus := if (duration >? 50)%float then "🚨 Critical" else gcStatus in
  let gcColor := if (duration >? 50)%float then [tablewriter.FgRedColor] else gcColor in
  let table := tablewriter.Rich table
    [tablewriter.Lit "GC Duration";
     tablewriter.Text (fmt.Sprintf "%.2f ms (%s)"
       [fmt.F duration; fmt.S (GCMetrics.Type_ (Status.GC status))]);
     tablewriter.Lit gcStatus;
     tablewriter.Lit "< 10 ms"]
    [[]; gcColor; gcColor; []] in

  (* Handle metrics *)
  let active := HandleMetrics.Active (Status.Handles status) in
  let handleStatus := "✅ Normal" in
  let handleColor := [tablewriter.FgGreenColor] in
  let handleStatus := if (active >? 50)%Z then "⚠️  High" else handleStatus in
  let handleColor := if (active >? 50)%Z then [tablewriter.FgYellowColor] else handleColor in
  let handleStatus := if (active >? 100)%Z then "🚨 Critical" else handleStatus in
  let handleColor := if (active >? 100)%Z then [tablewriter.FgRedColor] else handleColor in
  let table := tablewriter.Rich table
    [tablewriter.Lit "Active Handles";
     tablewriter.Text (fmt.Sprintf "%d (T:%d, S:%d)"
       [fmt.D active;
        fmt.D (HandleMetrics.Timers (Status.Handles status));
        fmt.D (HandleMetrics.TCPSockets (Status.Handles status))]);
     tablewriter.Lit handleStatus;
     tablewriter.Lit "< 50"]
    [[]; handleColor; handleColor; []] in

  [Printf serviceColor "🔍 Monitoring PID: %d\n\n" [A (fmt.D (Status.PID status))];
   Render table;
   Println [] String.EmptyString]
  (* Display additional metrics in a second table *)
  ++ displayAdvancedMetrics status.

Definition displayAlerts (alerts : list Alert.t) : list written :=
  match alerts with
  | [] => [Println [color.FgGreen] "✅ No active alerts"]
  | _ =>
      let alertColor := [color.FgRed; color.Bold] in
      [Printf alertColor "🚨 Active Alerts (%d):\n" [A (fmt.D (Z.of_nat (length alerts)))]]
      ++ imap (fun i alert =>
                 Printf [] "  %d. [%s] %s (%.2f > %.2f)\n"
                   [A (fmt.D (Z.of_nat i + 1));
                    A (fmt.S (Alert.Severity alert));
                    T (Alert.Message alert);
                    A (fmt.F (Alert.Value alert));
                    A (fmt.F (Alert.Threshold alert))])
           alerts
      ++ [Println [] String.EmptyString]
  end.

(** The frame that [Update] writes for [status]; the header shows the
    time of the update before. *)
Definition frame (d : Dashboard) (status : Status.t) : list written :=
  clearScreen ++ displayHeader d ++ displayMetrics status
  ++ displayAlerts (Status.Alerts status).

End display.

(** ** Package monitor *)

Module monitor.
Import types config host.

Record Monitor := {
  config : ServiceConfig;
  metrics : metrics.Collector;
  display : display.Dashboard;
  alerts : alerts.Manager;
  running : bool }.

Definition New (cfg : ServiceConfig) : Monitor := {|
  config := cfg;
  metrics := metrics.NewCollector cfg;
  display := display.NewDashboard;
  alerts := alerts.NewManager;
  running := false |}.

Definition set_PID (cfg : ServiceConfig) (pid : Z) : ServiceConfig := {|
  Host := Host cfg;
  Port := Port cfg;
  PID := pid;
  InspectPort := InspectPort cfg;
  PollingInterval := PollingInterval cfg;
  HeapLimit := HeapLimit cfg;
  CPUThreshold := CPUThreshold cfg |}.

Definition set_config (m : Monitor) (cfg : ServiceConfig) : Monitor := {|
  config := cfg;
  metrics := metrics m;
  display := display m;
  alerts := alerts m;
  running := running m |}.

Definition set_metrics (m : Monitor) (c : metrics.Collector) : Monitor := {|
  config := config m;
  metrics := c;
  display := display m;
  alerts := alerts m;
  running := running m |}.

Definition set_display (m : Monitor) (d : display.Dashboard) : Monitor := {|
  config := config m;
  metrics := metrics m;
  display := d;
  alerts := alerts m;
  running := running m |}.

Definition set_running (m : Monitor) (b : bool) : Monitor := {|
  config := config m;
  metrics := metrics m;
  display := display m;
  alerts := alerts m;
  running := b |}.

(** The fallback of a sub-collection that reports an error. *)
Definition or_default {A} (r : result A) (default : time.M A) : time.M A :=
  match r with
  | Ok a => time.ret a
  | Err _ => default
  end.

(** One tick.  Returns the monitor after the tick and the error, if any. *)
Definition collectAndProcess (w : World) (m : Monitor)
    : time.M (Monitor * option fmt.error) :=
  (* Get PID if not specified *)
  let resolved :=
    if (PID (config m) =? 0)%Z then
      match metrics.FindProcessByPort w (Port (config m)) with
      | Err err => Err (fmt.Errorf "failed to find process: %w" [fmt.W err])
      | Ok pid => Ok (set_config m (set_PID (config m) pid))
      end
    else Ok m in
  match resolved with
  | Err err => time.ret (m, Some err)
  | Ok m =>
  (* Collect all metrics *)
  let* cpuMetrics := metrics.CollectCPU w (PID (config m)) in
  match cpuMetrics with
  | Err err =>
      time.ret (m, Some (fmt.Errorf "failed to collect CPU metrics: %w" [fmt.W err]))
  | Ok cpuMetrics =>
  let* memoryMetrics := metrics.CollectMemory w (config m) (PID (config m)) in
  match memoryMetrics with
  | Err err =>
      time.ret (m, Some (fmt.Errorf "failed to collect memory metrics: %w" [fmt.W err]))
  | Ok memoryMetrics =>
  let* '(c, eventLoopMetrics) :=
    metrics.CollectEventLoop w (config m) (metrics m)
      (PID (config m)) (InspectPort (config m)) in
  let m := set_metrics m c in
  let* eventLoopMetrics :=
    or_default eventLoopMetrics
      (let* now := time.Now in
       time.ret {|
         EventLoopMetrics.Lag := 0;
         EventLoopMetrics.Mean := 0;
         EventLoopMetrics.Max := 0;
         EventLoopMetrics.Min := 0;
         EventLoopMetrics.P95 := 0;
         EventLoopMetrics.Utilization := 0;
         EventLoopMetrics.Timestamp := now |}) in
  let* threadPoolMetrics := metrics.CollectThreadPool (config m) (PID (config m)) in
  let* threadPoolMetrics :=
    or_default threadPoolMetrics
      (let* now := time.Now in
       time.ret {|
         ThreadPoolMetrics.QueueSize := 0;
         ThreadPoolMetrics.PoolSize := 4;
         ThreadPoolMetrics.ActiveCount := 0;
         ThreadPoolMetrics.PendingCount := 0;
         ThreadPoolMetrics.Timestamp := now |}) in
  (* Collect additional Node.js specific metrics *)
  let* gcMetrics := metrics.CollectGC (PID (config m)) (InspectPort (config m)) in
  let* gcMetrics :=
    or_default gcMetrics
      (let* now := time.Now in
       time.ret {|
         GCMetrics.Collections := 0;
         GCMetrics.Duration := 0;
         GCMetrics.HeapSizeBefore := 0;
         GCMetrics.HeapSizeAfter := 0;
         GCMetrics.Type_ := "unknown";
         GCMetrics.Reason := "unknown";
         GCMetrics.CollectionsTotal := 0;
         GCMetrics.DurationTotal := 0;
         GCMetrics.Timestamp := now |}) in
  let* handleMetrics :=
    metrics.CollectHandles (PID (config m)) (InspectPort (config m)) in
  let* handleMetrics :=
    or_default handleMetrics
      (let* now := time.Now in
       time.ret {|
         HandleMetrics.Active := 0;
         HandleMetrics.Refs := 0;
         HandleMetrics.Timers := 0;
         HandleMetrics.TCPSockets := 0;
         HandleMetrics.UDPSockets := 0;
         HandleMetrics.Files := 0;
         HandleMetrics.Timestamp := now |}) in
  let* v8Metrics := metrics.CollectV8 (PID (config m)) (InspectPort (config m)) in
  let* v8Metrics :=
    or_default v8Metrics
      (let* now := time.Now in
       time.ret {|
         V8Metrics.HeapSpaceUsed := ∅;
         V8Metrics.HeapSpaceSize := ∅;
         V8Metrics.HeapSpaceAvailable := ∅;
         V8Metrics.MallocedMemory := 0;
         V8Metrics.PeakMallocedMemory := 0;
         V8Metrics.Timestamp := now |}) in
  (* Create status *)
  let* now := time.Now in
  let status := fun alertList => {|
    Status.PID := PID (config m);
    Status.CPU := cpuMetrics;
    Status.Memory := memoryMetrics;
    Status.EventLoop := eventLoopMetrics;
    Status.ThreadPool := threadPoolMetrics;
    Status.GC := gcMetrics;
    Status.Handles := handleMetrics;
    Status.V8 := v8Metrics;
    Status.Timestamp := now;
    Status.Alerts := alertList |} in
  (* Check for alerts *)
  let* alertList := alerts.CheckThresholds (alerts m) (status []) (config m) in
  let status := status alertList in
  (* Update display *)
  let* d := display.Update (display m) status in
  time.ret (set_display m d, None)
  end end end.

(** What the [select] of the polling loop receives.  The loop is back
    in its [select] only when the tick before has returned. *)
Inductive event :=
| Done                     (* the context is cancelled *)
| Tick (w : World).        (* the ticker fires; [w] is the host then *)

(** How far a call has come when the events at hand are used up. *)
Inductive outcome :=
| Returned (err : option fmt.error)
| Polling                  (* blocked in [select], still running *)
| Panicked.                (* [time.NewTicker] with a non-positive interval *)

(** [for { select { ... } }] *)
Fixpoint loop (m : Monitor) (events : list event) : time.M (Monitor * outcome) :=
  match events with
  | [] => time.ret (m, Polling)
  | Done :: _ => time.ret (set_running m false, Returned None)
  | Tick w :: events =>
      let* '(m, _) := collectAndProcess w m in
      loop m events
  end.

Definition Start (m : Monitor) (events : list event) : time.M (Monitor * outcome) :=
  if running m then
    time.ret (m, Returned (Some (fmt.Errorf "monitor is already running" [])))
  else
    let m := set_running m true in
    if (PollingInterval (config m) <=? 0)%Z then time.ret (m, Panicked)
    else loop m events.

(** A figure of the snapshot that the monitor rendered last. *)
Definition shown {A} (m : Monitor) (figure : Status.t -> A) : option A :=
  option_map figure (display.rendered (display m)).

End monitor.

(** ** Package cmd: the [watch] command *)

Module cmd.
Import config monitor.

(** The flags of [watch]. *)
Record Flags := {
  host : string;
  port : Z;
  pid : Z;
  heapLimit : string;
  cpuThreshold : float;
  pollingMs : Z;
  inspectPort : Z }.

(** The values that [init] registers as defaults. *)
Definition defaults : Flags := {|
  host := "127.0.0.1";
  port := 0;
  pid := 0;
  heapLimit := "150MB";
  cpuThreshold := 70.0;
  pollingMs := 100;
  inspectPort := 9229 |}.

(** Arithmetic on [time.Duration], an int64, wraps around. *)
Definition int64 (n : Z) : Z := ((n + 2 ^ 63) mod 2 ^ 64 - 2 ^ 63)%Z.

(** [events] is what the polling loop receives; the interrupt signal
    cancels the context and arrives there as [Done].  Returns the
    monitor, when one was made, and how far the command came. *)
Definition runWatch (flags : Flags) (events : list event)
    : time.M (option Monitor * outcome) :=
  let cfg := {|
    Host := host flags;
    Port := port flags;
    PID := pid flags;
    InspectPort := inspectPort flags;
    HeapLimit := heapLimit flags;
    CPUThreshold := cpuThreshold flags;
    PollingInterval := int64 (int64 (pollingMs flags) * time.Millisecond) |} in
  match Validate cfg with
  | Some err =>
      time.ret (None, Returned (Some (fmt.Errorf "invalid configuration: %w" [fmt.W err])))
  | None =>
      let monitor := New cfg in
      let* '(monitor, out) := Start monitor events in
      time.ret (Some monitor, out)
  end.

End cmd.

(** ** The threshold table, as the specification words it *)

Module thresholds.
Import types config.

(** The seven metrics that are evaluated, in evaluation order. *)
Inductive metric :=
| CPU | MemoryRSS | HeapPercent | Lag | Utilization | GCDuration | HandleCount.

Definition all : list metric :=
  [CPU; MemoryRSS; HeapPercent; Lag; Utilization; GCDuration; HandleCount].

Definition rank (k : metric) : nat :=
  match k with
  | CPU => 0 | MemoryRSS => 1 | HeapPercent => 2 | Lag => 3
  | Utilization => 4 | GCDuration => 5 | HandleCount => 6
  end.

Inductive band := warning | critical.

Definition severity (b : band) : AlertSeverity :=
  match b with
  | warning => SeverityWarning
  | critical => SeverityCritical
  end.

(** The message format that announces each metric.  The two
    event-loop metrics share the alert type [eventloop]; the message
    is what tells them apart. *)
Definition headline (k : metric) : string :=
  match k with
  | CPU => "High CPU usage: %.2f%% (threshold: %.2f%%)"
  | MemoryRSS => "High memory usage: %.1f MB (threshold: 150 MB)"
  | HeapPercent => "High heap usage: %.1f%% (threshold: 80%%)"
  | Lag => "High event loop lag: %.2fms (threshold: 5ms)"
  | Utilization => "High event loop utilization: %.1f%% (threshold: 70%%)"
  | GCDuration => "Long GC duration: %.2fms (threshold: 10ms)"
  | HandleCount => "High handle count: %d (threshold: 50)"
  end.

(** The alert type that each metric is reported under. *)
Definition tag (k : metric) : AlertType :=
  match k with
  | CPU => AlertTypeCPU
  | MemoryRSS => AlertTypeMemory
  | HeapPercent => AlertTypeHeap
  | Lag => AlertTypeEventLoop
  | Utilization => AlertTypeEventLoop
  | GCDuration => "gc"
  | HandleCount => "handles"
  end.

(** [about k a]: the alert [a] reports metric [k]. *)
Definition about (k : metric) (a : Alert.t) : Prop :=
  match Alert.Message a with
  | fmt.Sprintf format _ => format = headline k
  end.

(** Resident set size in MB and heap usage in percent. *)
Definition memoryMB (status : Status.t) : float :=
  (float64.of_Z (MemoryMetrics.RSS (Status.Memory status)) / 1024 / 1024)%float.

Definition heapUsage (status : Status.t) : float :=
  (float64.of_Z (MemoryMetrics.HeapUsed (Status.Memory status))
   / float64.of_Z (MemoryMetrics.HeapTotal (Status.Memory status)) * 100)%float.

(** [exceeds status cfg k b]: the value of metric [k] in the snapshot
    is above band [b] of the table.  The heap percentage has a value
    only when the heap total is positive. *)
Definition exceeds (status : Status.t) (cfg : ServiceConfig)
    (k : metric) (b : band) : bool :=
  match k, b with
  | CPU, warning => (CPUMetrics.Usage (Status.CPU status) >? CPUThreshold cfg)%float
  | CPU, critical => (CPUMetrics.Usage (Status.CPU status) >? 90)%float
  | MemoryRSS, warning => (memoryMB status >? 150)%float
  | MemoryRSS, critical => (memoryMB status >? 200)%float
  | HeapPercent, warning =>
      (MemoryMetrics.HeapTotal (Status.Memory status) >? 0)%Z
      && (heapUsage status >? 80)%float
  | HeapPercent, critical =>
      (MemoryMetrics.HeapTotal (Status.Memory status) >? 0)%Z
      && (heapUsage status >? 95)%float
  | Lag, warning => (EventLoopMetrics.Lag (Status.EventLoop status) >? 5)%float
  | Lag, critical => (EventLoopMetrics.Lag (Status.EventLoop status) >? 20)%float
  | Utilization, warning =>
      (EventLoopMetrics.Utilization (Status.EventLoop status) >? 70)%float
  | Utilization, critical =>
      (EventLoopMetrics.Utilization (Status.EventLoop status) >? 90)%float
  | GCDuration, warning => (GCMetrics.Duration (Status.GC status) >? 10)%float
  | GCDuration, critical => (GCMetrics.Duration (Status.GC status) >? 50)%float
  | HandleCount, warning => (HandleMetrics.Active (Status.Handles status) >? 50)%Z
  | HandleCount, critical => (HandleMetrics.Active (Status.Handles status) >? 100)%Z
  end.

(** [raised alerts k b]: the list holds an alert about [k] of the
    severity of band [b]. *)
Definition raised (alerts : list Alert.t) (k : metric) (b : band) : Prop :=
  exists a, In a alerts /\ about k a /\ Alert.Severity a = severity b.

(** [silent alerts k]: the list holds no alert about [k]. *)
Definition silent (alerts : list Alert.t) (k : metric) : Prop :=
  forall a, In a alerts -> ~ about k a.

(** An alert with its timestamp blanked. *)
Definition untimed (a : Alert.t) : Alert.t := {|
  Alert.Type_ := Alert.Type_ a;
  Alert.Severity := Alert.Severity a;
  Alert.Message := Alert.Message a;
  Alert.Value := Alert.Value a;
  Alert.Threshold := Alert.Threshold a;
  Alert.Timestamp := 0%Z |}.

(** The alert that the check of metric [k] appends, before it is
    given its timestamp; [None] when the check stays silent. *)
Definition verdict (status : Status.t) (cfg : ServiceConfig) (k : metric)
    : option Alert.t :=
  if exceeds status cfg k warning then
    let sev := if exceeds status cfg k critical
               then SeverityCritical else SeverityWarning in
    Some match k with
    | CPU => {|
        Alert.Type_ := AlertTypeCPU; Alert.Severity := sev;
        Alert.Message := fmt.Sprintf (headline CPU)
          [fmt.F (CPUMetrics.Usage (Status.CPU status)); fmt.F (CPUThreshold cfg)];
        Alert.Value := CPUMetrics.Usage (Status.CPU status);
        Alert.Threshold := CPUThreshold cfg; Alert.Timestamp := 0%Z |}
    | MemoryRSS => {|
        Alert.Type_ := AlertTypeMemory; Alert.Severity := sev;
        Alert.Message := fmt.Sprintf (headline MemoryRSS) [fmt.F (memoryMB status)];
        Alert.Value := memoryMB status;
        Alert.Threshold := 150; Alert.Timestamp := 0%Z |}
    | HeapPercent => {|
        Alert.Type_ := AlertTypeHeap; Alert.Severity := sev;
        Alert.Message := fmt.Sprintf (headline HeapPercent) [fmt.F (heapUsage status)];
        Alert.Value := heapUsage status;
        Alert.Threshold := 80; Alert.Timestamp := 0%Z |}
    | Lag => {|
        Alert.Type_ := AlertTypeEventLoop; Alert.Severity := sev;
        Alert.Message := fmt.Sprintf (headline Lag)
          [fmt.F (EventLoopMetrics.Lag (Status.EventLoop status))];
        Alert.Value := EventLoopMetrics.Lag (Status.EventLoop status);
        Alert.Threshold := 5; Alert.Timestamp := 0%Z |}
    | Utilization => {|
        Alert.Type_ := AlertTypeEventLoop; Alert.Severity := sev;
        Alert.Message := fmt.Sprintf (headline Utilization)
          [fmt.F (EventLoopMetrics.Utilization (Status.EventLoop status))];
        Alert.Value := EventLoopMetrics.Utilization (Status.EventLoop status);
        Alert.Threshold := 70; Alert.Timestamp := 0%Z |}
    | GCDuration => {|
        Alert.Type_ := "gc"; Alert.Severity := sev;
        Alert.Message := fmt.Sprintf (headline GCDuration)
          [fmt.F (GCMetrics.Duration (Status.GC status))];
        Alert.Value := GCMetrics.Duration (Status.GC status);
        Alert.Threshold := 10; Alert.Timestamp := 0%Z |}
    | HandleCount => {|
        Alert.Type_ := "handles"; Alert.Severity := sev;
        Alert.Message := fmt.Sprintf (headline HandleCount)
          [fmt.D (HandleMetrics.Active (Status.Handles status))];
        Alert.Value := float64.of_Z (HandleMetrics.Active (Status.Handles status));
        Alert.Threshold := 50; Alert.Timestamp := 0%Z |}
    end
  else None.

End thresholds.


(** ** The order of float64, as arithmetic *)

Module order.

(** A numeric key whose lexicographic order is the order of the
    floats that are not NaN: class, then exponent, then mantissa. *)
Definition key (x : spec_float) : Z * Z * Z :=
  match x with
  | S754_nan => (0, 0, 0)
  | S754_zero _ => (0, 0, 0)
  | S754_infinity false => (2, 0, 0)
  | S754_infinity true => (-2, 0, 0)
  | S754_finite false m e => (1, e, Zpos m)
  | S754_finite true m e => (-1, - e, Zneg m)
  end%Z.

Definition lex (c : Z -> Z -> Prop) (a b : Z * Z * Z) : Prop :=
  let '(a1, a2, a3) := a in
  let '(b1, b2, b3) := b in
  (a1 < b1 \/ (a1 = b1 /\ (a2 < b2 \/ (a2 = b2 /\ c a3 b3))))%Z.

Definition number (x : spec_float) : Prop := x <> S754_nan.

(** A list of floats none of which is NaN, and [x <= y] on floats. *)
Definition numbers (l : list float) : Prop :=
  Forall (fun x => is_nan x = false) l.

Definition fle (x y : float) : Prop := (x <=? y)%float = true.

(** Turns float comparisons in the context and the goal into
    arithmetic on keys. *)
Ltac keys_with ltb_lex leb_lex :=
  unfold float64.gtb, float64.geb in *;
  repeat match goal with
  | H : (_ <? _)%float = true |- _ => apply ltb_lex in H; destruct H as (? & ? & H)
  | H : (_ <=? _)%float = true |- _ => apply leb_lex in H; destruct H as (? & ? & H)
  | H : (_ <? _)%float = false |- _ =>
      apply not_true_iff_false in H; rewrite ltb_lex in H
  | H : (_ <=? _)%float = false |- _ =>
      apply not_true_iff_false in H; rewrite leb_lex in H
  | |- (_ <? _)%float = true => apply ltb_lex
  | |- (_ <=? _)%float = true => apply leb_lex
  | |- (_ <? _)%float = false => apply not_true_iff_false; rewrite ltb_lex
  | |- (_ <=? _)%float = false => apply not_true_iff_false; rewrite leb_lex
  end;
  repeat match goal with
  | |- context [key (Prim2SF ?x)] =>
      let a := fresh "a" in let b := fresh "b" in let c := fresh "c" in
      destruct (key (Prim2SF x)) as [[a b] c]
  | H : context [key (Prim2SF ?x)] |- _ =>
      let a := fresh "a" in let b := fresh "b" in let c := fresh "c" in
      destruct (key (Prim2SF x)) as [[a b] c]
  end;
  unfold lex in *.

End order.

(** ** Sample inputs *)

Module sample.
Import types config.

(** A validated configuration with the given CPU threshold. *)
Definition cfg (cpuThreshold : float) : ServiceConfig := {|
  Host := "127.0.0.1";
  Port := 0;
  PID := 4242;
  InspectPort := 9229;
  PollingInterval := (100 * time.Millisecond)%Z;
  HeapLimit := "150MB";
  CPUThreshold := cpuThreshold |}.

(** A snapshot with the given CPU usage, resident set size, heap
    total and heap used (bytes), lag, utilization, GC duration and
    active handles; everything else at rest. *)
Definition status (usage : float) (rss heapTotal heapUsed : Z)
    (lag utilization gcDuration : float) (active : Z) : Status.t := {|
  Status.PID := 4242;
  Status.CPU := {|
    CPUMetrics.Usage := usage; CPUMetrics.UserTime := 0;
    CPUMetrics.SystemTime := 0; CPUMetrics.Timestamp := 0%Z |};
  Status.Memory := {|
    MemoryMetrics.RSS := rss; MemoryMetrics.VMS := 0;
    MemoryMetrics.HeapTotal := heapTotal; MemoryMetrics.HeapUsed := heapUsed;
    MemoryMetrics.External := 0; MemoryMetrics.Timestamp := 0%Z |};
  Status.EventLoop := {|
    EventLoopMetrics.Lag := lag; EventLoopMetrics.Mean := 0;
    EventLoopMetrics.Max := 0; EventLoopMetrics.P95 := 0;
    EventLoopMetrics.Min := 0; EventLoopMetrics.Utilization := utilization;
    EventLoopMetrics.Timestamp := 0%Z |};
  Status.ThreadPool := {|
    ThreadPoolMetrics.QueueSize := 0; ThreadPoolMetrics.PoolSize := 4;
    ThreadPoolMetrics.ActiveCount := 0; ThreadPoolMetrics.PendingCount := 0;
    ThreadPoolMetrics.Timestamp := 0%Z |};
  Status.GC := {|
    GCMetrics.Collections := 0; GCMetrics.Duration := gcDuration;
    GCMetrics.HeapSizeBefore := 0; GCMetrics.HeapSizeAfter := 0;
    GCMetrics.Type_ := "unknown"; GCMetrics.Reason := "unknown";
    GCMetrics.CollectionsTotal := 0; GCMetrics.DurationTotal := 0;
    GCMetrics.Timestamp := 0%Z |};
  Status.Handles := {|
    HandleMetrics.Active := active; HandleMetrics.Refs := 0;
    HandleMetrics.Timers := 0; HandleMetrics.TCPSockets := 0;
    HandleMetrics.UDPSockets := 0; HandleMetrics.Files := 0;
    HandleMetrics.Timestamp := 0%Z |};
  Status.V8 := {|
    V8Metrics.HeapSpaceUsed := ∅; V8Metrics.HeapSpaceSize := ∅;
    V8Metrics.HeapSpaceAvailable := ∅; V8Metrics.MallocedMemory := 0;
    V8Metrics.PeakMallocedMemory := 0; V8Metrics.Timestamp := 0%Z |};
  Status.Timestamp := 0%Z;
  Status.Alerts := [] |}.

(** A clock that advances by one nanosecond per reading. *)
Definition clock : time.Clock :=
  {| time.reading := fun n => Z.of_nat n; time.taken := 0 |}.

(** A host whose process 4242 answers every query and whose
    inspector port refuses every connection. *)
Definition node : host.Process := {|
  host.Pid := 4242;
  host.CPUPercent := host.Ok 12.5%float;
  host.Times := host.Ok (1.5, 0.5)%float;
  host.MemoryInfo := host.Ok (120 * 1024 * 1024, 500 * 1024 * 1024)%Z;
  host.Connections := host.Ok [3000%Z] |}.

Definition world : host.World := {|
  host.Dial := fun port =>
    if (port =? 3000)%Z then None else Some (fmt.Lib "connection refused");
  host.Processes := host.Ok [node];
  host.NewProcess := fun pid =>
    if (pid =? 4242)%Z then host.Ok node else host.Err (fmt.Lib "process does not exist");
  host.Get := fun port path => host.Refused (fmt.Lib "connection refused") |}.

(** The same host with CPU usage [u] and a live inspector session. *)
Definition inspected (u : float) : host.World := {|
  host.Dial := host.Dial world;
  host.Processes := host.Processes world;
  host.NewProcess := fun pid =>
    if (pid =? 4242)%Z then host.Ok {|
      host.Pid := 4242;
      host.CPUPercent := host.Ok u;
      host.Times := host.Times node;
      host.MemoryInfo := host.MemoryInfo node;
      host.Connections := host.Connections node |}
    else host.Err (fmt.Lib "process does not exist");
  host.Get := fun port path => host.Response (host.Ok [Some "ws://127.0.0.1:9229/session"]) |}.

End sample.

(** The snapshot with another heap-used figure. *)
Definition with_HeapUsed (status : types.Status.t) (used : Z) : types.Status.t :=
  let mem := types.Status.Memory status in {|
  types.Status.PID := types.Status.PID status;
  types.Status.CPU := types.Status.CPU status;
  types.Status.Memory := {|
    types.MemoryMetrics.RSS := types.MemoryMetrics.RSS mem;
    types.MemoryMetrics.VMS := types.MemoryMetrics.VMS mem;
    types.MemoryMetrics.HeapTotal := types.MemoryMetrics.HeapTotal mem;
    types.MemoryMetrics.HeapUsed := used;
    types.MemoryMetrics.External := types.MemoryMetrics.External mem;
    types.MemoryMetrics.Timestamp := types.MemoryMetrics.Timestamp mem |};
  types.Status.EventLoop := types.Status.EventLoop status;
  types.Status.ThreadPool := types.Status.ThreadPool status;
  types.Status.GC := types.Status.GC status;
  types.Status.Handles := types.Status.Handles status;
  types.Status.V8 := types.Status.V8 status;
  types.Status.Timestamp := types.Status.Timestamp status;
  types.Status.Alerts := types.Status.Alerts status |}.

(** ** Rounding to float64, as arithmetic *)

Module rounding.
Local Open Scope Z_scope.

(** Round to nearest, ties to even, of [X / 2^n]; exact for [n <= 0]. *)
Definition rne (X n : Z) : Z :=
  if n <=? 0 then X * 2 ^ (- n)
  else
    let q := X / 2 ^ n in
    let r := X mod 2 ^ n in
    let h := 2 ^ (n - 1) in
    if r <? h then q
    else if h <? r then q + 1
    else if Z.even q then q else q + 1.

(** The state of the shifter after [k] steps on [M]. *)
Definition shifted (M k : Z) (mrs : shr_record) : Prop :=
  exists rem,
    M = 2 ^ k * shr_m mrs + rem /\ 0 <= rem < 2 ^ k /\ 0 <= shr_m mrs
    /\ (k = 0 -> shr_r mrs = false /\ shr_s mrs = false)
    /\ (0 < k ->
        shr_r mrs = (2 ^ (k - 1) <=? rem)
        /\ shr_s mrs = negb (rem =? 0) && negb (rem =? 2 ^ (k - 1))).

(** Number of binary digits. *)
Definition digits (M : Z) : Z := Z.log2 M + 1.

(** The exponent of the format for a number of magnitude [2^e]. *)
Definition fexp64 (e : Z) : Z := Z.max (e - 53) (-1074).

(** The rounding of [M * 2^E], for [0 < M], with sign [s]. *)
Definition R (s : bool) (M E : Z) : spec_float :=
  let e1 := fexp64 (digits M + E) in
  let m1 := rne M (e1 - E) in
  let m2 := if m1 =? 2 ^ 53 then 2 ^ 52 else m1 in
  let e2 := if m1 =? 2 ^ 53 then e1 + 1 else e1 in
  match m2 with
  | Zpos p => if e2 <=? 971 then S754_finite s p e2 else S754_infinity s
  | _ => S754_zero s
  end.

End rounding.

(** The ramp of the utilization above a lag of 1: [10 + (lag - 1) * 5]. *)
Definition ramp (lag : float) : float := (10 + ((lag - 1) * 5))%float.
(** ** Vocabulary of the further properties *)

Module tick.
Import types config host monitor.

(** The snapshot with another alert list. *)
Definition with_Alerts (s : Status.t) (alerts : list Alert.t) : Status.t := {|
  Status.PID := Status.PID s;
  Status.CPU := Status.CPU s;
  Status.Memory := Status.Memory s;
  Status.EventLoop := Status.EventLoop s;
  Status.ThreadPool := Status.ThreadPool s;
  Status.GC := Status.GC s;
  Status.Handles := Status.Handles s;
  Status.V8 := Status.V8 s;
  Status.Timestamp := Status.Timestamp s;
  Status.Alerts := alerts |}.

(** [settled m m']: [m'] is [m] but for what a tick may write before
    it collects: the PID, when it was 0 and the port has an owner. *)
Definition settled (w : World) (m m' : Monitor) : Prop :=
  metrics m' = metrics m /\ display m' = display m
  /\ alerts m' = alerts m /\ running m' = running m
  /\ ((PID (config m) <> 0%Z /\ config m' = config m)
      \/ (PID (config m) = 0%Z
          /\ exists pid, metrics.FindProcessByPort w (Port (config m)) = Ok pid
               /\ config m' = set_PID (config m) pid)).

(** The settings of a configuration that no tick writes. *)
Definition settings (cfg : ServiceConfig)
    : string * Z * Z * time.Duration * string * float :=
  (Host cfg, Port cfg, InspectPort cfg, PollingInterval cfg,
   HeapLimit cfg, CPUThreshold cfg).

End tick.

Module lookup.
Import host.

(** [owns port p]: process [p] lists its connections, and one of them
    has the local port [port]. *)
Definition owns (port : Z) (p : Process) : Prop :=
  exists connections, Connections p = Ok connections /\ In port connections.

End lookup.

Module dashboard.
Import types thresholds display.

(** The three status labels of the metrics table. *)
Definition Normal : string := "✅ Normal".
Definition High : string := "⚠️  High".
Definition Critical : string := "🚨 Critical".

(** The first column of the row that shows each metric. *)
Definition row_name (k : metric) : string :=
  match k with
  | CPU => "CPU Usage"
  | MemoryRSS => "Memory (RSS)"
  | HeapPercent => "Heap Usage"
  | Lag => "Event Loop Lag"
  | Utilization => "Event Loop Util"
  | GCDuration => "GC Duration"
  | HandleCount => "Active Handles"
  end.

(** The first table that a frame renders. *)
Fixpoint first_table (frame : list written) : option tablewriter.Table :=
  match frame with
  | [] => None
  | Render t :: _ => Some t
  | _ :: frame => first_table frame
  end.

(** The status column of the row whose first column is [name]. *)
Fixpoint status_of (name : string) (rows : list (list tablewriter.cell * list tablewriter.Colors))
    : option string :=
  match rows with
  | [] => None
  | ([tablewriter.Lit n; _; tablewriter.Lit s; _], _) :: rows =>
      if String.eqb n name then Some s else status_of name rows
  | _ :: rows => status_of name rows
  end.

(** The status that the metrics table shows for metric [k]; [None]
    when the table has no row for it. *)
Definition shown (status : Status.t) (k : metric) : option string :=
  match first_table (displayMetrics status) with
  | Some t => status_of (row_name k) (tablewriter.rows t)
  | None => None
  end.

(** The label for a value that is above the warning band ([w]),
    above the critical band ([c]). *)
Definition grade (w c : bool) : string :=
  if c then Critical else if w then High else Normal.

End dashboard.

Module ticks.
Import host.

(** [answers w pid]: on host [w] the process [pid] exists and answers
    the queries for CPU usage, CPU times and memory information. *)
Definition answers (w : World) (pid : Z) : bool :=
  match NewProcess w (int32 pid) with
  | Ok proc =>
      match CPUPercent proc, Times proc, MemoryInfo proc with
      | Ok _, Ok _, Ok _ => true
      | _, _, _ => false
      end
  | Err _ => false
  end.

End ticks.
(** * Properties *)

(** ** The order of float64 *)

Module float_order.
Import order.

Lemma SFltb_lex x y :
  SFltb x y = true <-> number x /\ number y /\ lex Z.lt (key x) (key y).
Proof.
  unfold SFltb, number.
  destruct x as [[]|[]| |[] mx ex], y as [[]|[]| |[] my ey]; cbn;
    try (split; [discriminate | intros (? & ? & ?); try congruence; lia]);
    try (split; [intros _; repeat split; try congruence; lia | reflexivity]).
  all: change (Pos.compare_cont Eq mx my) with (mx ?= my)%positive;
    destruct (Z.compare_spec ex ey), (Pos.compare_spec mx my); cbn;
      (split; [try discriminate; intros _; repeat split; try congruence; lia
              | intros (_ & _ & ?); try reflexivity; lia]).
Qed.

Lemma SFleb_lex x y :
  SFleb x y = true <-> number x /\ number y /\ lex Z.le (key x) (key y).
Proof.
  unfold SFleb, number.
  destruct x as [[]|[]| |[] mx ex], y as [[]|[]| |[] my ey]; cbn;
    try (split; [discriminate | intros (? & ? & ?); try congruence; lia]);
    try (split; [intros _; repeat split; try congruence; lia | reflexivity]).
  all: change (Pos.compare_cont Eq mx my) with (mx ?= my)%positive;
    destruct (Z.compare_spec ex ey), (Pos.compare_spec mx my); cbn;
      (split; [try discriminate; intros _; repeat split; try congruence; lia
              | intros (_ & _ & ?); try reflexivity; lia]).
Qed.

Lemma is_nan_number (x : float) : is_nan x = false <-> number (Prim2SF x).
Proof.
  unfold is_nan, number. rewrite eqb_spec. unfold SFeqb.
  destruct (Prim2SF x) as [[]|[]| |[] mx ex]; cbn;
    rewrite ?Z.compare_refl, ?Pos.compare_cont_refl; cbn; split; congruence.
Qed.

Lemma ltb_lex (x y : float) :
  (x <? y)%float = true
  <-> is_nan x = false /\ is_nan y = false
      /\ lex Z.lt (key (Prim2SF x)) (key (Prim2SF y)).
Proof. rewrite ltb_spec, SFltb_lex, !is_nan_number. reflexivity. Qed.

Lemma leb_lex (x y : float) :
  (x <=? y)%float = true
  <-> is_nan x = false /\ is_nan y = false
      /\ lex Z.le (key (Prim2SF x)) (key (Prim2SF y)).
Proof. rewrite leb_spec, SFleb_lex, !is_nan_number. reflexivity. Qed.

Lemma ltb_trans (x y z : float) :
  (x <? y)%float = true -> (y <? z)%float = true -> (x <? z)%float = true.
Proof. intros. keys_with ltb_lex leb_lex. repeat split; auto; lia. Qed.

Lemma leb_trans (x y z : float) :
  (x <=? y)%float = true -> (y <=? z)%float = true -> (x <=? z)%float = true.
Proof. intros. keys_with ltb_lex leb_lex. repeat split; auto; lia. Qed.

Lemma leb_ltb_trans (x y z : float) :
  (x <=? y)%float = true -> (y <? z)%float = true -> (x <? z)%float = true.
Proof. intros. keys_with ltb_lex leb_lex. repeat split; auto; lia. Qed.

Lemma ltb_leb_trans (x y z : float) :
  (x <? y)%float = true -> (y <=? z)%float = true -> (x <? z)%float = true.
Proof. intros. keys_with ltb_lex leb_lex. repeat split; auto; lia. Qed.

Lemma ltb_leb (x y : float) : (x <? y)%float = true -> (x <=? y)%float = true.
Proof. intros. keys_with ltb_lex leb_lex. repeat split; auto; lia. Qed.

Lemma leb_refl (x : float) : is_nan x = false -> (x <=? x)%float = true.
Proof. intros. keys_with ltb_lex leb_lex. repeat split; auto; lia. Qed.

(** Two numbers are always comparable. *)
Lemma leb_total (x y : float) :
  is_nan x = false -> is_nan y = false ->
  (y <? x)%float = false -> (x <=? y)%float = true.
Proof.
  intros Hx Hy H. apply not_true_iff_false in H. rewrite ltb_lex in H.
  assert (~ lex Z.lt (key (Prim2SF y)) (key (Prim2SF x))) by tauto.
  clear H. keys_with ltb_lex leb_lex. repeat split; auto. lia.
Qed.

Lemma ltb_not_leb (x y : float) :
  (x <? y)%float = true -> (y <=? x)%float = false.
Proof. intros. keys_with ltb_lex leb_lex. intros (? & ? & ?). lia. Qed.

Lemma leb_not_ltb (x y : float) :
  (x <=? y)%float = true -> (y <? x)%float = false.
Proof. intros. keys_with ltb_lex leb_lex. intros (? & ? & ?). lia. Qed.

Lemma SFeqb_lex x y :
  SFeqb x y = true <-> number x /\ number y /\ key x = key y.
Proof.
  unfold SFeqb, number.
  destruct x as [[]|[]| |[] mx ex], y as [[]|[]| |[] my ey]; cbn;
    try (split; [discriminate | intros (? & ? & ?); congruence]);
    try (split; [intros _; repeat split; congruence | reflexivity]).
  all: change (Pos.compare_cont Eq mx my) with (mx ?= my)%positive;
    destruct (Z.compare_spec ex ey), (Pos.compare_spec mx my); cbn;
      (split; [try discriminate; intros _; repeat split; congruence
              | intros (_ & _ & [= ? ?]); try reflexivity; lia]).
Qed.

Lemma eqb_lex (x y : float) :
  (x =? y)%float = true
  <-> is_nan x = false /\ is_nan y = false /\ key (Prim2SF x) = key (Prim2SF y).
Proof. rewrite eqb_spec, SFeqb_lex, !float_order.is_nan_number. reflexivity. Qed.

End float_order.

(** ** Rounding to float64 *)

Module float_rounding.
Import order rounding.
Local Open Scope Z_scope.


Lemma iter_pos_invariant {A} (P : Z -> A -> Prop) (f : A -> A) :
  (forall k x, 0 <= k -> P k x -> P (k + 1) (f x)) ->
  forall p k x, 0 <= k -> P k x -> P (k + Zpos p) (iter_pos f p x).
Proof.
  intros Hstep. induction p as [p IH|p IH|]; intros k x Hk HP; cbn [iter_pos].
  - replace (k + Zpos p~1) with (k + 1 + Zpos p + Zpos p) by lia.
    apply IH; [lia|]. apply IH; [lia|]. apply Hstep; assumption.
  - replace (k + Zpos p~0) with (k + Zpos p + Zpos p) by lia.
    apply IH; [lia|]. apply IH; assumption.
  - apply Hstep; assumption.
Qed.


Lemma shifted_step (M k : Z) (mrs : shr_record) :
  0 <= k -> shifted M k mrs -> shifted M (k + 1) (shr_1 mrs).
Proof.
  intros Hk (rem & HM & Hrem & Hm & H0 & Hpos).
  assert (Hp : 0 < 2 ^ k) by (apply Z.pow_pos_nonneg; lia).
  assert (E2 : 2 ^ (k + 1) = 2 * 2 ^ k) by (rewrite Z.pow_add_r by lia; lia).
  assert (Hs : orb (shr_r mrs) (shr_s mrs) = negb (rem =? 0)).
  { destruct (Z.eq_dec k 0) as [->|Hk0].
    - destruct (H0 eq_refl) as [-> ->]. cbn in Hrem.
      replace rem with 0 by lia. reflexivity.
    - destruct (Hpos ltac:(lia)) as [-> ->].
      assert (0 < 2 ^ (k - 1)) by (apply Z.pow_pos_nonneg; lia).
      destruct (Z.leb_spec (2 ^ (k - 1)) rem), (Z.eqb_spec rem 0),
        (Z.eqb_spec rem (2 ^ (k - 1))); cbn; try reflexivity; lia. }
  destruct mrs as [m r s]. cbn [shr_m shr_r shr_s] in *.
  unfold shifted, shr_1. rewrite Hs.
  replace (k + 1 - 1) with k by lia.
  assert (Hfin : forall m' b rem',
    m = 2 * m' + b -> 0 <= m' -> (b = 0 \/ b = 1) -> rem' = rem + 2 ^ k * b ->
    exists rem0,
      M = 2 ^ (k + 1) * m' + rem0 /\ 0 <= rem0 < 2 ^ (k + 1) /\ 0 <= m'
      /\ (k + 1 = 0 -> (b =? 1) = false /\ negb (rem =? 0) = false)
      /\ (0 < k + 1 ->
          (b =? 1) = (2 ^ k <=? rem0)
          /\ negb (rem =? 0) = negb (rem0 =? 0) && negb (rem0 =? 2 ^ k))).
  { intros m' b rem' Em Hm' Hb ->. exists (rem + 2 ^ k * b).
    split; [rewrite E2, HM, Em; ring|].
    split; [destruct Hb as [-> | ->]; lia|].
    split; [exact Hm'|]. split; [lia|]. intros _.
    destruct Hb as [-> | ->]; rewrite ?Z.mul_0_r, ?Z.mul_1_r, ?Z.add_0_r.
    - destruct (Z.leb_spec (2 ^ k) rem), (Z.eqb_spec rem 0),
        (Z.eqb_spec rem (2 ^ k)); cbn; split; try reflexivity; lia.
    - destruct (Z.leb_spec (2 ^ k) (rem + 2 ^ k)), (Z.eqb_spec rem 0),
        (Z.eqb_spec (rem + 2 ^ k) 0), (Z.eqb_spec (rem + 2 ^ k) (2 ^ k));
        cbn; split; try reflexivity; lia. }
  destruct m as [|[p|p|]|p]; try lia; cbn [shr_m shr_r shr_s].
  - apply (Hfin 0 0 rem); lia.
  - apply (Hfin (Zpos p) 1 (rem + 2 ^ k * 1)); lia.
  - apply (Hfin (Zpos p) 0 rem); lia.
  - apply (Hfin 0 1 (rem + 2 ^ k * 1)); lia.
Qed.

Lemma shifted_shr (M : Z) (n : positive) :
  0 <= M ->
  shifted M (Zpos n) (iter_pos shr_1 n (Build_shr_record M false false)).
Proof.
  intros HM.
  change (Zpos n) with (0 + Zpos n).
  apply (iter_pos_invariant (shifted M) shr_1 (shifted_step M)); [lia|].
  exists 0. cbn [shr_m shr_r shr_s].
  change (2 ^ 0) with 1.
  split; [lia|]. split; [lia|]. split; [exact HM|].
  split; [split; reflexivity|lia].
Qed.

(** What the shifter and the rounding to even compute. *)
Lemma shifted_rne (M n : Z) (mrs : shr_record) :
  0 < n -> shifted M n mrs ->
  shr_m mrs = M / 2 ^ n
  /\ round_nearest_even (shr_m mrs) (loc_of_shr_record mrs) = rne M n.
Proof.
  intros Hn (rem & HM & Hrem & Hm & _ & Hpos).
  destruct (Hpos Hn) as [Hr Hs].
  assert (Hp : 0 < 2 ^ n) by (apply Z.pow_pos_nonneg; lia).
  assert (Hh : 0 < 2 ^ (n - 1)) by (apply Z.pow_pos_nonneg; lia).
  assert (E2 : 2 ^ n = 2 * 2 ^ (n - 1)).
  { replace n with (n - 1 + 1) at 1 by lia. rewrite Z.pow_add_r by lia. lia. }
  assert (Hq : M / 2 ^ n = shr_m mrs).
  { symmetry. apply (Z.div_unique_pos M (2 ^ n) (shr_m mrs) rem); lia. }
  assert (Hmod : M mod 2 ^ n = rem).
  { symmetry. apply (Z.mod_unique_pos M (2 ^ n) (shr_m mrs) rem); lia. }
  split; [symmetry; exact Hq|].
  unfold rne. destruct (Z.leb_spec n 0); [lia|].
  cbn zeta. rewrite Hq, Hmod.
  destruct mrs as [m r s]. cbn [shr_m shr_r shr_s] in *. subst r s.
  unfold loc_of_shr_record, round_nearest_even.
  destruct (Z.leb_spec (2 ^ (n - 1)) rem), (Z.eqb_spec rem 0),
    (Z.eqb_spec rem (2 ^ (n - 1))), (Z.ltb_spec rem (2 ^ (n - 1))),
    (Z.ltb_spec (2 ^ (n - 1)) rem); cbn; try reflexivity; lia.
Qed.

Lemma pow2_pos (k : Z) : 0 <= k -> 0 < 2 ^ k.
Proof. intros. apply Z.pow_pos_nonneg; lia. Qed.

Lemma pow2_split (a b : Z) : 0 <= a -> 0 <= b -> 2 ^ (a + b) = 2 ^ a * 2 ^ b.
Proof. intros. apply Z.pow_add_r; assumption. Qed.

Lemma pow2_le (a b : Z) : 0 <= a <= b -> 2 ^ a <= 2 ^ b.
Proof. intros. apply Z.pow_le_mono_r; lia. Qed.

Lemma rne_nonneg (X n : Z) : 0 <= X -> 0 <= rne X n.
Proof.
  intros HX. unfold rne. destruct (Z.leb_spec n 0).
  - apply Z.mul_nonneg_nonneg; [exact HX|]. apply Z.pow_nonneg. lia.
  - cbn zeta. assert (0 <= X / 2 ^ n) by (apply Z.div_pos; [exact HX|apply pow2_pos; lia]).
    destruct (_ <? _); [lia|]. destruct (_ <? _); [lia|]. destruct (Z.even _); lia.
Qed.

Lemma rne_mono (X X' n : Z) : 0 <= X <= X' -> rne X n <= rne X' n.
Proof.
  intros HX. unfold rne. destruct (Z.leb_spec n 0).
  - apply Z.mul_le_mono_nonneg_r; [apply Z.pow_nonneg|]; lia.
  - cbn zeta.
    assert (HP : 0 < 2 ^ n) by (apply pow2_pos; lia).
    pose proof (Z.div_mod X (2 ^ n) ltac:(lia)) as E.
    pose proof (Z.div_mod X' (2 ^ n) ltac:(lia)) as E'.
    pose proof (Z.mod_pos_bound X (2 ^ n) HP) as B.
    pose proof (Z.mod_pos_bound X' (2 ^ n) HP) as B'.
    assert (Hq : X / 2 ^ n <= X' / 2 ^ n) by (apply Z.div_le_mono; lia).
    set (q := X / 2 ^ n) in *. set (q' := X' / 2 ^ n) in *.
    set (r := X mod 2 ^ n) in *. set (r' := X' mod 2 ^ n) in *.
    set (h := 2 ^ (n - 1)).
    destruct (Z.eq_dec q q') as [Eq|Nq].
    + rewrite <- Eq in *. assert (r <= r') by lia.
      destruct (Z.ltb_spec r h), (Z.ltb_spec h r), (Z.ltb_spec r' h), (Z.ltb_spec h r');
        destruct (Z.even q); lia.
    + destruct (Z.ltb_spec r h), (Z.ltb_spec h r), (Z.ltb_spec r' h), (Z.ltb_spec h r');
        destruct (Z.even q), (Z.even q'); lia.
Qed.

Lemma rne_scale (X n k : Z) : 0 <= k -> rne (X * 2 ^ k) (n + k) = rne X n.
Proof.
  intros Hk. unfold rne.
  pose proof (pow2_pos k Hk) as Pk.
  destruct (Z.leb_spec (n + k) 0), (Z.leb_spec n 0); try lia.
  - rewrite <- Z.mul_assoc. f_equal. rewrite <- pow2_split by lia. f_equal. lia.
  - cbn zeta.
    assert (Ek : 2 ^ k = 2 ^ (- n) * 2 ^ (n + k)).
    { rewrite <- pow2_split by lia. f_equal. lia. }
    assert (Pn : 0 < 2 ^ (n + k)) by (apply pow2_pos; lia).
    assert (Ph : 0 < 2 ^ (n + k - 1)) by (apply pow2_pos; lia).
    rewrite Ek, Z.mul_assoc, Z.div_mul, Z.mod_mul by lia.
    destruct (Z.ltb_spec 0 (2 ^ (n + k - 1))); [reflexivity|lia].
  - cbn zeta.
    assert (Pn : 0 < 2 ^ n) by (apply pow2_pos; lia).
    assert (Ph : 0 < 2 ^ (n - 1)) by (apply pow2_pos; lia).
    rewrite (pow2_split n k) by lia.
    rewrite Z.div_mul_cancel_r by lia.
    rewrite Z.mul_mod_distr_r by lia.
    replace (n + k - 1) with (n - 1 + k) by lia.
    rewrite (pow2_split (n - 1) k) by lia.
    set (r := X mod 2 ^ n). set (h := 2 ^ (n - 1)).
    assert (H1 : (r * 2 ^ k <? h * 2 ^ k) = (r <? h)).
    { destruct (Z.ltb_spec r h), (Z.ltb_spec (r * 2 ^ k) (h * 2 ^ k)); try reflexivity; nia. }
    assert (H2 : (h * 2 ^ k <? r * 2 ^ k) = (h <? r)).
    { destruct (Z.ltb_spec h r), (Z.ltb_spec (h * 2 ^ k) (r * 2 ^ k)); try reflexivity; nia. }
    rewrite H1, H2. reflexivity.
Qed.


Lemma digits2_pos_size (p : positive) : digits2_pos p = Pos.size p.
Proof. induction p; cbn; congruence. Qed.

Lemma Zdigits2_digits (p : positive) : Zdigits2 (Zpos p) = digits (Zpos p).
Proof.
  unfold digits. cbn [Zdigits2]. rewrite digits2_pos_size.
  destruct p; cbn; lia.
Qed.

Lemma digits_bounds (M : Z) : 0 < M -> 2 ^ (digits M - 1) <= M < 2 ^ digits M.
Proof.
  intros H. unfold digits. replace (Z.log2 M + 1 - 1) with (Z.log2 M) by lia.
  apply Z.log2_spec. exact H.
Qed.

Lemma digits_pos (M : Z) : 0 < M -> 0 < digits M.
Proof. intros. unfold digits. pose proof (Z.log2_nonneg M). lia. Qed.

Lemma digits_unique (M d : Z) : 0 < d -> 2 ^ (d - 1) <= M < 2 ^ d -> digits M = d.
Proof.
  intros Hd H. unfold digits.
  rewrite (Z.log2_unique M (d - 1)); [lia|lia|].
  replace (Z.succ (d - 1)) with d by lia. exact H.
Qed.

Lemma digits_scale (M k : Z) : 0 < M -> 0 <= k -> digits (M * 2 ^ k) = digits M + k.
Proof.
  intros HM Hk. pose proof (digits_bounds M HM). pose proof (digits_pos M HM).
  pose proof (pow2_pos k Hk).
  apply digits_unique; [lia|].
  replace (digits M + k - 1) with (digits M - 1 + k) by lia.
  rewrite !pow2_split by lia. nia.
Qed.

Lemma digits_mono (M M' : Z) : 0 < M <= M' -> digits M <= digits M'.
Proof. intros. unfold digits. pose proof (Z.log2_le_mono M M'). lia. Qed.


Lemma fexp_fexp64 (e : Z) : fexp prec emax e = fexp64 e.
Proof. reflexivity. Qed.

Lemma rne_upper (M n : Z) : 0 < M -> digits M - 53 <= n -> rne M n <= 2 ^ 53.
Proof.
  intros HM Hn. pose proof (digits_bounds M HM) as [_ Hb].
  pose proof (digits_pos M HM).
  unfold rne. destruct (Z.leb_spec n 0).
  - assert (M * 2 ^ (- n) < 2 ^ (digits M) * 2 ^ (- n)).
    { apply Z.mul_lt_mono_pos_r; [apply pow2_pos; lia|exact Hb]. }
    rewrite <- pow2_split in H1 by lia.
    assert (2 ^ (digits M + - n) <= 2 ^ 53) by (apply pow2_le; lia). lia.
  - cbn zeta.
    assert (M / 2 ^ n < 2 ^ 53).
    { apply Z.div_lt_upper_bound; [apply pow2_pos; lia|].
      rewrite <- pow2_split by lia.
      assert (2 ^ digits M <= 2 ^ (n + 53)) by (apply pow2_le; lia). lia. }
    destruct (_ <? _); [lia|]. destruct (_ <? _); [lia|]. destruct (Z.even _); lia.
Qed.

Lemma rne_lower (M n : Z) : 0 < M -> n <= digits M - 53 -> 2 ^ 52 <= rne M n.
Proof.
  intros HM Hn. pose proof (digits_bounds M HM) as [Hb _].
  pose proof (digits_pos M HM).
  unfold rne. destruct (Z.leb_spec n 0).
  - assert (2 ^ (digits M - 1) * 2 ^ (- n) <= M * 2 ^ (- n)).
    { apply Z.mul_le_mono_nonneg_r; [apply Z.pow_nonneg; lia|exact Hb]. }
    rewrite <- pow2_split in H1 by lia.
    assert (2 ^ 52 <= 2 ^ (digits M - 1 + - n)) by (apply pow2_le; lia). lia.
  - cbn zeta.
    assert (2 ^ 52 <= M / 2 ^ n).
    { apply Z.div_le_lower_bound; [apply pow2_pos; lia|].
      rewrite <- pow2_split by lia.
      assert (2 ^ (n + 52) <= 2 ^ (digits M - 1)) by (apply pow2_le; lia). lia. }
    destruct (_ <? _); [lia|]. destruct (_ <? _); [lia|]. destruct (Z.even _); lia.
Qed.


Lemma shr_exact_rne (M E n : Z) :
  0 <= M -> 0 <= n ->
  let '(mrs, e) := shr (Build_shr_record M false false) E n in
  e = E + n
  /\ round_nearest_even (shr_m mrs) (loc_of_shr_record mrs) = rne M n.
Proof.
  intros HM Hn. destruct n as [|p|p]; try lia.
  - cbn. split; [lia|]. unfold rne. cbn. lia.
  - cbn [shr]. split; [reflexivity|].
    apply shifted_rne; [lia|]. apply shifted_shr. exact HM.
Qed.

Lemma binary_round_aux_R (s : bool) (p : positive) (E : Z) :
  E <= fexp64 (digits (Zpos p) + E) ->
  binary_round_aux prec emax s (Zpos p) E loc_Exact = R s (Zpos p) E.
Proof.
  intros HE. unfold binary_round_aux, shr_fexp, R.
  rewrite Zdigits2_digits, fexp_fexp64.
  set (M := Zpos p) in *. set (e1 := fexp64 (digits M + E)) in *.
  assert (HM : 0 < M) by (subst M; lia).
  cbn [shr_record_of_loc].
  pose proof (shr_exact_rne M E (e1 - E) ltac:(lia) ltac:(lia)) as H1.
  destruct (shr (Build_shr_record M false false) E (e1 - E)) as [mrs e'].
  destruct H1 as [He' Hm1]. rewrite Hm1.
  replace e' with e1 by lia. clear He' Hm1 mrs e'.
  set (m1 := rne M (e1 - E)).
  assert (Hlo : 0 <= m1) by (apply rne_nonneg; lia).
  assert (Hup : m1 <= 2 ^ 53).
  { apply rne_upper; [exact HM|]. unfold e1, fexp64. lia. }
  assert (He1 : -1074 <= e1) by (unfold e1, fexp64; lia).
  destruct (Z.eqb_spec m1 (2 ^ 53)) as [Em|Nm].
  - rewrite Em. change (Zdigits2 (2 ^ 53)) with 54.
    rewrite fexp_fexp64. unfold fexp64.
    replace (Z.max (54 + e1 - 53) (-1074) - e1) with 1 by lia.
    cbn [shr iter_pos shr_1 shr_m]. change (2 ^ 53) with (Zpos (2 ^ 53)).
    cbn [shr_1 shr_m Pos.pow]. reflexivity.
  - assert (Hn2 : fexp prec emax (Zdigits2 m1 + e1) - e1 <= 0).
    { rewrite fexp_fexp64. unfold fexp64.
      destruct m1 as [|q|q]; [cbn; lia| |lia].
      rewrite Zdigits2_digits.
      assert (digits (Zpos q) <= 53).
      { pose proof (digits_bounds (Zpos q) ltac:(lia)) as [Hb _].
        destruct (Z.le_gt_cases (digits (Zpos q)) 53); [assumption|].
        assert (2 ^ 53 <= 2 ^ (digits (Zpos q) - 1)) by (apply pow2_le; lia). lia. }
      lia. }
    clearbody m1.
    destruct (fexp prec emax (Zdigits2 m1 + e1) - e1) as [|n2|n2] eqn:En2; try lia;
      cbn [shr shr_m]; destruct m1; try reflexivity; lia.
Qed.

Lemma R_scale (s : bool) (M E k : Z) :
  0 < M -> 0 <= k -> R s (M * 2 ^ k) (E - k) = R s M E.
Proof.
  intros HM Hk. unfold R.
  rewrite digits_scale by assumption.
  replace (digits M + k + (E - k)) with (digits M + E) by lia.
  set (e1 := fexp64 (digits M + E)).
  replace (e1 - (E - k)) with (e1 - E + k) by lia.
  rewrite rne_scale by exact Hk. reflexivity.
Qed.

Lemma iter_xO (d p : positive) : Zpos (Pos.iter xO p d) = Zpos p * 2 ^ Zpos d.
Proof.
  induction d as [|d IH] using Pos.peano_ind.
  - cbn. lia.
  - rewrite Pos.iter_succ, Pos2Z.inj_xO, IH, Pos2Z.inj_succ, Z.pow_succ_r by lia. lia.
Qed.

Lemma binary_round_R (s : bool) (p : positive) (E : Z) :
  binary_round prec emax s p E = R s (Zpos p) E.
Proof.
  unfold binary_round, shl_align.
  change (Zpos (digits2_pos p)) with (Zdigits2 (Zpos p)).
  rewrite Zdigits2_digits, fexp_fexp64.
  set (e1 := fexp64 (digits (Zpos p) + E)).
  destruct (e1 - E) as [|d|d] eqn:Ed.
  - apply binary_round_aux_R. fold e1. lia.
  - apply binary_round_aux_R. fold e1. lia.
  - rewrite binary_round_aux_R.
    + rewrite iter_xO. replace e1 with (E - Zpos d) by lia.
      apply R_scale; lia.
    + rewrite iter_xO, digits_scale by lia.
      replace (digits (Zpos p) + Zpos d + e1) with (digits (Zpos p) + E) by lia.
      fold e1. lia.
Qed.

(** The result of a rounding is a float of the format. *)
Lemma R_valid (s : bool) (M E : Z) : 0 < M -> SpecFloat.valid_binary prec emax (R s M E) = true.
Proof.
  intros HM. unfold R.
  set (e1 := fexp64 (digits M + E)). set (m1 := rne M (e1 - E)).
  assert (Hlo : 0 <= m1) by (apply rne_nonneg; lia).
  assert (Hup : m1 <= 2 ^ 53).
  { apply rne_upper; [exact HM|]. unfold e1, fexp64. lia. }
  assert (He1 : -1074 <= e1) by (unfold e1, fexp64; lia).
  assert (Hnorm : -1074 < e1 -> 2 ^ 52 <= m1).
  { intros H. apply rne_lower; [exact HM|]. unfold e1, fexp64 in *. lia. }
  destruct (Z.eqb_spec m1 (2 ^ 53)) as [Em|Nm].
  - change (2 ^ 52) with (Zpos (2 ^ 52)). cbv iota.
    destruct (Z.leb_spec (e1 + 1) 971); [|reflexivity].
    cbn [SpecFloat.valid_binary]. unfold bounded, canonical_mantissa.
    change (Zpos (digits2_pos (2 ^ 52))) with 53.
    rewrite fexp_fexp64. unfold fexp64.
    change (emax - prec) with 971.
    apply andb_true_intro. split; [apply Z.eqb_eq|apply Z.leb_le]; lia.
  - clearbody m1. destruct m1 as [|q|q]; [reflexivity| |lia].
    destruct (Z.leb_spec e1 971); [|reflexivity].
    cbn [SpecFloat.valid_binary]. unfold bounded, canonical_mantissa.
    change (Zpos (digits2_pos q)) with (Zdigits2 (Zpos q)).
    rewrite Zdigits2_digits, fexp_fexp64.
    change (emax - prec) with 971.
    apply andb_true_intro. split; [apply Z.eqb_eq|apply Z.leb_le; lia].
    pose proof (digits_bounds (Zpos q) ltac:(lia)) as [Hb Hb'].
    pose proof (digits_pos (Zpos q) ltac:(lia)).
    assert (Hd : digits (Zpos q) <= 53).
    { destruct (Z.le_gt_cases (digits (Zpos q)) 53); [assumption|].
      assert (2 ^ 53 <= 2 ^ (digits (Zpos q) - 1)) by (apply pow2_le; lia). lia. }
    unfold fexp64.
    destruct (Z.eq_dec e1 (-1074)) as [->|Hne]; [lia|].
    specialize (Hnorm ltac:(lia)).
    assert (53 <= digits (Zpos q)).
    { destruct (Z.le_gt_cases 53 (digits (Zpos q))); [assumption|].
      assert (2 ^ digits (Zpos q) <= 2 ^ 52) by (apply pow2_le; lia). lia. }
    lia.
Qed.

(** The shape of a rounding: mantissa and exponent before the final
    test for zero and overflow. *)
Lemma R_shape (s : bool) (M E : Z) :
  0 < M ->
  exists m2 e2,
    R s M E = match m2 with
              | Zpos p => if e2 <=? 971 then S754_finite s p e2 else S754_infinity s
              | _ => S754_zero s
              end
    /\ 0 <= m2 < 2 ^ 53
    /\ (let e1 := fexp64 (digits M + E) in
        let m1 := rne M (e1 - E) in
        (m1 < 2 ^ 53 /\ m2 = m1 /\ e2 = e1) \/ (m1 = 2 ^ 53 /\ m2 = 2 ^ 52 /\ e2 = e1 + 1))
    /\ (-1074 < fexp64 (digits M + E) -> 2 ^ 52 <= m2).
Proof.
  intros HM. unfold R.
  set (e1 := fexp64 (digits M + E)). set (m1 := rne M (e1 - E)).
  assert (Hlo : 0 <= m1) by (apply rne_nonneg; lia).
  assert (Hup : m1 <= 2 ^ 53).
  { apply rne_upper; [exact HM|]. unfold e1, fexp64. lia. }
  assert (Hnorm : -1074 < e1 -> 2 ^ 52 <= m1).
  { intros H. apply rne_lower; [exact HM|]. unfold e1, fexp64 in *. lia. }
  cbn zeta.
  destruct (Z.eqb_spec m1 (2 ^ 53)) as [Em|Nm].
  - exists (2 ^ 52), (e1 + 1). split; [reflexivity|]. split; [lia|]. split; [right; lia|lia].
  - exists m1, e1. split; [reflexivity|]. split; [lia|]. split; [left; lia|exact Hnorm].
Qed.


(** Rounding is monotone. *)
Lemma R_mono (M M' E : Z) :
  0 < M <= M' -> SFleb (R false M E) (R false M' E) = true.
Proof.
  intros HM.
  destruct (R_shape false M E ltac:(lia)) as (m2 & e2 & -> & Hb & Hs & Hn).
  destruct (R_shape false M' E ltac:(lia)) as (m2' & e2' & -> & Hb' & Hs' & Hn').
  cbn zeta in *.
  pose proof (digits_mono M M' HM) as Hd.
  assert (He : fexp64 (digits M + E) <= fexp64 (digits M' + E)) by (unfold fexp64; lia).
  set (e1 := fexp64 (digits M + E)) in *. set (e1' := fexp64 (digits M' + E)) in *.
  assert (Hm : e1 = e1' -> rne M (e1 - E) <= rne M' (e1' - E)).
  { intros <-. apply rne_mono. lia. }
  set (m1 := rne M (e1 - E)) in *. set (m1' := rne M' (e1' - E)) in *.
  assert (He1 : -1074 <= e1) by (unfold e1, fexp64; lia).
  clearbody m1 m1' e1 e1'.
  apply float_order.SFleb_lex.
  destruct m2 as [|q|q], m2' as [|q'|q']; try lia;
    repeat match goal with
    | |- context [if ?b then _ else _] => destruct (Z.leb_spec e2 971), (Z.leb_spec e2' 971)
    end;
    cbn [key]; unfold number, lex; (split; [discriminate|]); (split; [discriminate|]);
    try lia.
Qed.

(** Monotone in the value [M * 2^E], whatever the scale. *)
Lemma R_mono_value (M E M' E' E0 : Z) :
  0 < M -> 0 < M' -> E0 <= E -> E0 <= E' ->
  M * 2 ^ (E - E0) <= M' * 2 ^ (E' - E0) ->
  SFleb (R false M E) (R false M' E') = true.
Proof.
  intros HM HM' HE HE' H.
  rewrite <- (R_scale false M E (E - E0)) by lia.
  rewrite <- (R_scale false M' E' (E' - E0)) by lia.
  replace (E - (E - E0)) with E0 by lia.
  replace (E' - (E' - E0)) with E0 by lia.
  apply R_mono. split; [|exact H].
  apply Z.mul_pos_pos; [exact HM|apply pow2_pos; lia].
Qed.

(** What validity says of mantissa and exponent. *)
Lemma bounded_spec (m : positive) (e : Z) :
  bounded prec emax m e = true ->
  -1074 <= e <= 971 /\ Zpos m < 2 ^ 53 /\ (-1074 < e -> 2 ^ 52 <= Zpos m)
  /\ fexp64 (digits (Zpos m) + e) = e.
Proof.
  unfold bounded, canonical_mantissa.
  change (Zpos (digits2_pos m)) with (Zdigits2 (Zpos m)).
  rewrite Zdigits2_digits, fexp_fexp64. change (emax - prec) with 971.
  intros [Hc He]%andb_true_iff. apply Z.eqb_eq in Hc. apply Z.leb_le in He.
  pose proof (digits_bounds (Zpos m) ltac:(lia)) as [Hb Hb'].
  pose proof (digits_pos (Zpos m) ltac:(lia)).
  unfold fexp64 in *.
  split; [lia|]. split; [|split; [|exact Hc]].
  - assert (2 ^ digits (Zpos m) <= 2 ^ 53) by (apply pow2_le; lia). lia.
  - intros Hn. assert (2 ^ 52 <= 2 ^ (digits (Zpos m) - 1)) by (apply pow2_le; lia). lia.
Qed.

(** Rounding a float of the format returns it. *)
Lemma R_id (s : bool) (m : positive) (e : Z) :
  bounded prec emax m e = true -> R s (Zpos m) e = S754_finite s m e.
Proof.
  intros Hb. destruct (bounded_spec m e Hb) as (He & Hm & _ & Hc).
  unfold R. rewrite Hc. replace (e - e) with 0 by lia.
  unfold rne. cbn [Z.leb Z.compare Z.opp]. rewrite Z.mul_1_r.
  destruct (Z.eqb_spec (Zpos m) (2 ^ 53)); [lia|].
  destruct (Z.leb_spec e 971); [reflexivity|lia].
Qed.

(** The order of the format is the order of the values. *)
Lemma bounded_value_le (m m' : positive) (e e' : Z) :
  bounded prec emax m e = true -> bounded prec emax m' e' = true ->
  e < e' \/ (e = e' /\ Zpos m <= Zpos m') ->
  Zpos m <= Zpos m' * 2 ^ (e' - e).
Proof.
  intros Hb Hb' [Hlt|[<- Hle]].
  - destruct (bounded_spec m e Hb) as (He & Hm & _).
    destruct (bounded_spec m' e' Hb') as (_ & _ & Hn & _).
    specialize (Hn ltac:(lia)).
    assert (2 ^ 1 <= 2 ^ (e' - e)) by (apply pow2_le; lia).
    change (2 ^ 1) with 2 in *. nia.
  - replace (e - e) with 0 by lia. lia.
Qed.

Lemma bounded_value_lt (m m' : positive) (e e' : Z) :
  bounded prec emax m e = true -> bounded prec emax m' e' = true ->
  e < e' \/ (e = e' /\ Zpos m < Zpos m') ->
  Zpos m < Zpos m' * 2 ^ (e' - e).
Proof.
  intros Hb Hb' [Hlt|[<- Hle]].
  - destruct (bounded_spec m e Hb) as (He & Hm & _).
    destruct (bounded_spec m' e' Hb') as (_ & _ & Hn & _).
    specialize (Hn ltac:(lia)).
    assert (2 ^ 1 <= 2 ^ (e' - e)) by (apply pow2_le; lia).
    change (2 ^ 1) with 2 in *. nia.
  - replace (e - e) with 0 by lia. lia.
Qed.

(** Roundings are never negative, nor NaN. *)
Lemma R_nonneg (M E : Z) : 0 < M -> SFleb (S754_zero false) (R false M E) = true.
Proof.
  intros HM. destruct (R_shape false M E HM) as (m2 & e2 & -> & _).
  destruct m2; try reflexivity. destruct (e2 <=? 971); reflexivity.
Qed.

Lemma R_le_infinity (M E : Z) :
  0 < M -> SFleb (R false M E) (S754_infinity false) = true.
Proof.
  intros HM. destruct (R_shape false M E HM) as (m2 & e2 & -> & _).
  destruct m2; try reflexivity. destruct (e2 <=? 971); reflexivity.
Qed.

(** The mantissa aligned to a lower exponent. *)
Lemma shl_align_fst (m : positive) (e ez : Z) :
  ez <= e -> Zpos (fst (shl_align m e ez)) = Zpos m * 2 ^ (e - ez).
Proof.
  intros H. unfold shl_align. destruct (ez - e) as [|d|d] eqn:Ed; try lia; cbn [fst].
  - replace (e - ez) with 0 by lia. lia.
  - rewrite iter_xO. f_equal. f_equal. lia.
Qed.

Lemma SFleb_finite (m m' : positive) (e e' : Z) :
  SFleb (S754_finite false m e) (S754_finite false m' e') = true
  <-> e < e' \/ (e = e' /\ Zpos m <= Zpos m').
Proof.
  rewrite float_order.SFleb_lex. cbn [key]. unfold number, lex.
  split; [intros (_ & _ & H); lia|].
  intros H. split; [discriminate|]. split; [discriminate|]. lia.
Qed.

Lemma R_zero_le (s : bool) (M E : Z) : 0 < M -> SFleb (S754_zero s) (R false M E) = true.
Proof.
  intros HM. destruct (R_shape false M E HM) as (m2 & e2 & -> & _).
  destruct m2; try reflexivity. destruct (e2 <=? 971); reflexivity.
Qed.

Lemma pow2_merge (a b c : Z) : c <= b <= a -> 2 ^ (a - b) * 2 ^ (b - c) = 2 ^ (a - c).
Proof. intros. rewrite <- pow2_split by lia. f_equal. lia. Qed.

Section Operations.
Variables (mc : positive) (ec : Z).
Hypothesis Hc : bounded prec emax mc ec = true.
Local Abbreviation c := (S754_finite false mc ec).

(** [x * c] for a positive normal [c], on the floats from 0 up. *)
Lemma SFmul_mono (x y : spec_float) :
  2 ^ 52 <= Zpos mc ->
  SpecFloat.valid_binary prec emax x = true ->
  SpecFloat.valid_binary prec emax y = true ->
  SFleb (S754_zero false) x = true -> SFleb x y = true ->
  SFleb (SF64mul x c) (SF64mul y c) = true.
Proof.
  intros Hn Vx Vy H0 Hxy. unfold SF64mul.
  assert (HR : forall m e, SFmul prec emax (S754_finite false m e) (S754_finite false mc ec)
                           = R false (Zpos (m * mc)) (e + ec)).
  { intros m e. cbn [SFmul xorb]. apply binary_round_aux_R.
    assert (53 <= digits (Zpos (m * mc))).
    { change 53 with (digits (2 ^ 52)). apply digits_mono. lia. }
    unfold fexp64. lia. }
  destruct x as [sx|[]| |[] mx ex]; try discriminate H0;
    destruct y as [sy|[]| |[] my ey]; try discriminate Hxy;
    rewrite ?HR; try reflexivity.
  - apply R_zero_le. lia.
  - apply R_le_infinity. lia.
  - cbn [SpecFloat.valid_binary] in Vx, Vy.
    apply SFleb_finite in Hxy.
    pose proof (bounded_value_le _ _ _ _ Vx Vy Hxy) as Hv.
    assert (ex <= ey) by lia.
    apply (R_mono_value _ _ _ _ (ex + ec)); try lia.
    replace (ex + ec - (ex + ec)) with 0 by lia.
    replace (ey + ec - (ex + ec)) with (ey - ex) by lia.
    rewrite Z.mul_1_r, !Pos2Z.inj_mul. nia.
Qed.

(** [x - c] on the floats from [c] up. *)
Lemma SFsub_mono (x y : spec_float) :
  SpecFloat.valid_binary prec emax x = true ->
  SpecFloat.valid_binary prec emax y = true ->
  SFleb c x = true -> SFleb x y = true ->
  SFleb (SF64sub x c) (SF64sub y c) = true.
Proof.
  intros Vx Vy Hcx Hxy. unfold SF64sub in *.
  assert (HR : forall m e,
    bounded prec emax m e = true ->
    ec < e \/ (ec = e /\ Zpos mc <= Zpos m) ->
    let D := Zpos m * 2 ^ (e - Z.min e ec) - Zpos mc * 2 ^ (ec - Z.min e ec) in
    0 <= D
    /\ SFsub prec emax (S754_finite false m e) (S754_finite false mc ec)
       = match D with
         | Zpos p => R false (Zpos p) (Z.min e ec)
         | _ => S754_zero false
         end).
  { intros m e Hb Hle. cbn zeta. cbn [SFsub cond_Zopp].
    rewrite !shl_align_fst by lia.
    pose proof (bounded_value_le _ _ _ _ Hc Hb Hle) as Hv.
    assert (Z.min e ec = ec) as -> by lia.
    replace (ec - ec) with 0 by lia. rewrite Z.mul_1_r.
    split; [lia|].
    destruct (Zpos m * 2 ^ (e - ec) - Zpos mc) as [|p|p] eqn:ED; try lia;
      cbn [binary_normalize]; [reflexivity|apply binary_round_R]. }
  destruct x as [sx|[]| |[] mx ex]; try discriminate Hcx;
    destruct y as [sy|[]| |[] my ey]; try discriminate Hxy; try reflexivity.
  - cbn [SpecFloat.valid_binary] in Vx. apply SFleb_finite in Hcx.
    destruct (HR mx ex Vx Hcx) as [HD ->]. cbn [SFsub].
    destruct (_ - _) as [|p|p]; try reflexivity. apply R_le_infinity. lia.
  - cbn [SpecFloat.valid_binary] in Vx, Vy.
    apply SFleb_finite in Hcx, Hxy.
    assert (Hcy : ec < ey \/ ec = ey /\ Zpos mc <= Zpos my) by lia.
    destruct (HR mx ex Vx Hcx) as [HD ->]. destruct (HR my ey Vy Hcy) as [HD' ->].
    pose proof (bounded_value_le _ _ _ _ Vx Vy Hxy) as Hv.
    assert (Z.min ex ec = ec) as E1 by lia. assert (Z.min ey ec = ec) as E2 by lia.
    rewrite E1, E2 in *. replace (ec - ec) with 0 in * by lia. rewrite Z.mul_1_r in *.
    assert (Hle : Zpos mx * 2 ^ (ex - ec) <= Zpos my * 2 ^ (ey - ec)).
    { rewrite <- (pow2_merge ey ex ec) by lia.
      assert (0 < 2 ^ (ex - ec)) by (apply pow2_pos; lia). nia. }
    destruct (Zpos mx * 2 ^ (ex - ec) - Zpos mc) as [|p|p] eqn:ED;
      destruct (Zpos my * 2 ^ (ey - ec) - Zpos mc) as [|p'|p'] eqn:ED'; try lia;
      try reflexivity.
    + apply R_zero_le. lia.
    + apply R_mono. lia.
Qed.

(** [c + x] on the floats from 0 up. *)
Lemma SFadd_mono (x y : spec_float) :
  SpecFloat.valid_binary prec emax x = true ->
  SpecFloat.valid_binary prec emax y = true ->
  SFleb (S754_zero false) x = true -> SFleb x y = true ->
  SFleb (SF64add c x) (SF64add c y) = true.
Proof.
  intros Vx Vy H0 Hxy. unfold SF64add in *.
  assert (HR : forall m e,
    SFadd prec emax (S754_finite false mc ec) (S754_finite false m e)
    = R false (Zpos mc * 2 ^ (ec - Z.min ec e) + Zpos m * 2 ^ (e - Z.min ec e))
        (Z.min ec e)).
  { intros m e. cbn [SFadd cond_Zopp].
    rewrite !shl_align_fst by lia.
    assert (0 < Zpos mc * 2 ^ (ec - Z.min ec e)).
    { apply Z.mul_pos_pos; [lia|apply pow2_pos; lia]. }
    assert (0 < Zpos m * 2 ^ (e - Z.min ec e)).
    { apply Z.mul_pos_pos; [lia|apply pow2_pos; lia]. }
    destruct (_ + _) as [|p|p] eqn:ES; try lia.
    cbn [binary_normalize]. apply binary_round_R. }
  assert (Hpos : forall m e,
    0 < Zpos mc * 2 ^ (ec - Z.min ec e) + Zpos m * 2 ^ (e - Z.min ec e)).
  { intros m e.
    assert (0 < Zpos mc * 2 ^ (ec - Z.min ec e)).
    { apply Z.mul_pos_pos; [lia|apply pow2_pos; lia]. }
    assert (0 < Zpos m * 2 ^ (e - Z.min ec e)).
    { apply Z.mul_pos_pos; [lia|apply pow2_pos; lia]. }
    lia. }
  destruct x as [sx|[]| |[] mx ex]; try discriminate H0;
    destruct y as [sy|[]| |[] my ey]; try discriminate Hxy;
    rewrite ?HR; try reflexivity.
  - cbn [SFadd]. apply SFleb_finite. lia.
  - cbn [SFadd]. rewrite <- (R_id false mc ec Hc).
    apply (R_mono_value _ _ _ _ (Z.min ec ey)); [lia|apply Hpos|lia|lia|].
    replace (Z.min ec ey - Z.min ec ey) with 0 by lia. rewrite Z.mul_1_r.
    assert (0 < Zpos my * 2 ^ (ey - Z.min ec ey)).
    { apply Z.mul_pos_pos; [lia|apply pow2_pos; lia]. }
    lia.
  - apply R_le_infinity. apply Hpos.
  - cbn [SpecFloat.valid_binary] in Vx, Vy.
    apply SFleb_finite in Hxy.
    pose proof (bounded_value_le _ _ _ _ Vx Vy Hxy) as Hv.
    assert (ex <= ey) by lia.
    set (E0 := Z.min ec ex).
    apply (R_mono_value _ _ _ _ E0); [apply Hpos|apply Hpos|unfold E0; lia|unfold E0; lia|].
    fold E0. replace (E0 - E0) with 0 by lia. rewrite Z.mul_1_r.
    rewrite Z.mul_add_distr_r, <- !Z.mul_assoc.
    rewrite !pow2_merge by (unfold E0; lia).
    rewrite <- (pow2_merge ey ex E0) by (unfold E0; lia).
    assert (0 < 2 ^ (ex - E0)) by (apply pow2_pos; unfold E0; lia). nia.
Qed.

End Operations.

End float_rounding.

Section Float64.
Import order rounding float_rounding.
Local Open Scope float_scope.

(** ** The operations of float64 are monotone *)

Lemma of_Z_spec (z : Z) :
  (0 < z)%Z -> Prim2SF (float64.of_Z z) = R false z 0.
Proof.
  intros Hz. unfold float64.of_Z. destruct z as [|p|p]; try lia.
  cbn [binary_normalize]. rewrite binary_round_R.
  apply Prim2SF_SF2Prim, R_valid. lia.
Qed.

Lemma of_Z_mono (z z' : Z) :
  (0 < z <= z')%Z -> (float64.of_Z z <=? float64.of_Z z') = true.
Proof.
  intros H. rewrite leb_spec, !of_Z_spec by lia. apply R_mono. exact H.
Qed.

Lemma mul_mono (c x y : float) (mc : positive) (ec : Z) :
  Prim2SF c = S754_finite false mc ec -> (2 ^ 52 <= Zpos mc)%Z ->
  (0 <=? x) = true -> (x <=? y) = true -> (x * c <=? y * c) = true.
Proof.
  intros Ec Hn H0 Hxy. rewrite leb_spec in *. rewrite !mul_spec, Ec.
  pose proof (Prim2SF_valid c) as Vc. rewrite Ec in Vc.
  apply SFmul_mono; try apply Prim2SF_valid; assumption.
Qed.

Lemma sub_mono (c x y : float) (mc : positive) (ec : Z) :
  Prim2SF c = S754_finite false mc ec ->
  (c <=? x) = true -> (x <=? y) = true -> (x - c <=? y - c) = true.
Proof.
  intros Ec Hcx Hxy. rewrite leb_spec in *. rewrite !sub_spec, Ec in *.
  pose proof (Prim2SF_valid c) as Vc. rewrite Ec in Vc.
  apply SFsub_mono; try apply Prim2SF_valid; assumption.
Qed.

Lemma add_mono (c x y : float) (mc : positive) (ec : Z) :
  Prim2SF c = S754_finite false mc ec ->
  (0 <=? x) = true -> (x <=? y) = true -> (c + x <=? c + y) = true.
Proof.
  intros Ec H0 Hxy. rewrite leb_spec in *. rewrite !add_spec, Ec.
  pose proof (Prim2SF_valid c) as Vc. rewrite Ec in Vc.
  apply SFadd_mono; try apply Prim2SF_valid; assumption.
Qed.

(** ** The handle count as a float *)

Lemma gtb_of_Z_50 (z : Z) : (50 < z)%Z -> (float64.of_Z z >? 50) = true.
Proof.
  intros Hz. unfold float64.gtb.
  apply float_order.ltb_leb_trans with (float64.of_Z 51).
  - vm_compute. reflexivity.
  - apply of_Z_mono. lia.
Qed.

End Float64.

(** ** The threshold evaluator *)

Section Evaluator.
Import types config thresholds.

Variable m : alerts.Manager.
Variable status : Status.t.
Variable cfg : ServiceConfig.

(** The evaluator, check by check: up to timestamps its result is
    the list of the verdicts of the seven checks, in order. *)
Lemma CheckThresholds_verdicts (c : time.Clock) :
  map untimed (fst (alerts.CheckThresholds m status cfg c))
  = omap (verdict status cfg) all.
Proof.
  unfold alerts.CheckThresholds, all, verdict, exceeds, heapUsage, memoryMB.
  unfold time.bind, time.ret, time.Now. cbn [omap list_omap].
  destruct (CPUMetrics.Usage (Status.CPU status) >? CPUThreshold cfg)%float;
  destruct (float64.of_Z (MemoryMetrics.RSS (Status.Memory status)) / 1024 / 1024 >? 150)%float;
  destruct (MemoryMetrics.HeapTotal (Status.Memory status) >? 0)%Z;
  cbn [andb];
  try destruct (float64.of_Z (MemoryMetrics.HeapUsed (Status.Memory status))
         / float64.of_Z (MemoryMetrics.HeapTotal (Status.Memory status)) * 100 >? 80)%float;
  destruct (EventLoopMetrics.Lag (Status.EventLoop status) >? 5)%float;
  destruct (EventLoopMetrics.Utilization (Status.EventLoop status) >? 70)%float;
  destruct (GCMetrics.Duration (Status.GC status) >? 10)%float;
  destruct (HandleMetrics.Active (Status.Handles status) >? 50)%Z;
  reflexivity.
Qed.

(** The timestamps are the successive readings of the clock, one per
    alert, and the clock has advanced by as many readings. *)
Lemma CheckThresholds_clock (c : time.Clock) :
  let r := alerts.CheckThresholds m status cfg c in
  map Alert.Timestamp (fst r)
  = map (time.reading c) (seq (time.taken c) (length (fst r)))
  /\ snd r = {| time.reading := time.reading c;
                time.taken := time.taken c + length (fst r) |}.
Proof.
  unfold alerts.CheckThresholds.
  unfold time.bind, time.ret, time.Now.
  destruct c as [rd n]. cbn [time.reading time.taken].
  destruct (CPUMetrics.Usage (Status.CPU status) >? CPUThreshold cfg)%float;
  destruct (float64.of_Z (MemoryMetrics.RSS (Status.Memory status)) / 1024 / 1024 >? 150)%float;
  destruct (MemoryMetrics.HeapTotal (Status.Memory status) >? 0)%Z;
  try destruct (float64.of_Z (MemoryMetrics.HeapUsed (Status.Memory status))
         / float64.of_Z (MemoryMetrics.HeapTotal (Status.Memory status)) * 100 >? 80)%float;
  destruct (EventLoopMetrics.Lag (Status.EventLoop status) >? 5)%float;
  destruct (EventLoopMetrics.Utilization (Status.EventLoop status) >? 70)%float;
  destruct (GCMetrics.Duration (Status.GC status) >? 10)%float;
  destruct (HandleMetrics.Active (Status.Handles status) >? 50)%Z;
  cbn; split; try reflexivity; do 2 f_equal; lia.
Qed.

Lemma about_untimed k a : about k (untimed a) <-> about k a.
Proof. reflexivity. Qed.

Lemma headline_inj k k' : headline k = headline k' -> k = k'.
Proof. destruct k, k'; cbn; intros H; try reflexivity; discriminate H. Qed.

(** What a verdict says. *)
Lemma verdict_Some k v :
  verdict status cfg k = Some v ->
  exceeds status cfg k warning = true
  /\ about k v
  /\ Alert.Type_ v = tag k
  /\ Alert.Severity v
     = (if exceeds status cfg k critical then SeverityCritical else SeverityWarning).
Proof.
  unfold verdict. destruct (exceeds status cfg k warning); [|discriminate].
  intros [= <-]. destruct k; repeat split.
Qed.

Lemma verdict_None k :
  verdict status cfg k = None <-> exceeds status cfg k warning = false.
Proof.
  unfold verdict. destruct (exceeds status cfg k warning); split; congruence.
Qed.

(** The alerts of a call are its verdicts, timestamps apart. *)
Lemma In_alerts_verdict (c : time.Clock) (a : Alert.t) :
  In a (fst (alerts.CheckThresholds m status cfg c)) ->
  exists k, verdict status cfg k = Some (untimed a).
Proof.
  intros H. apply (in_map untimed) in H.
  rewrite CheckThresholds_verdicts in H.
  apply list_elem_of_In, list_elem_of_omap in H.
  destruct H as (k & _ & H). eauto.
Qed.

Lemma verdict_In_alerts (c : time.Clock) k v :
  verdict status cfg k = Some v ->
  exists a, In a (fst (alerts.CheckThresholds m status cfg c)) /\ untimed a = v.
Proof.
  intros H.
  assert (Hv : v ∈ omap (verdict status cfg) all).
  { apply list_elem_of_omap. exists k. split; [|exact H].
    destruct k; unfold all; set_solver. }
  rewrite <- (CheckThresholds_verdicts c) in Hv.
  apply list_elem_of_In, in_map_iff in Hv.
  destruct Hv as (a & Ha & Hin). eauto.
Qed.

Lemma raised_iff (c : time.Clock) k b :
  raised (fst (alerts.CheckThresholds m status cfg c)) k b
  <-> exceeds status cfg k warning = true
      /\ exceeds status cfg k critical
         = match b with critical => true | warning => false end.
Proof.
  split.
  - intros (a & Hin & Hab & Hsev).
    destruct (In_alerts_verdict c a Hin) as (k' & Hv).
    destruct (verdict_Some _ _ Hv) as (Hw & Hab' & _ & Hs).
    assert (k' = k) as ->.
    { apply headline_inj. unfold about in Hab, Hab'. cbn in Hab'.
      destruct (Alert.Message a). congruence. }
    split; [exact Hw|].
    cbn in Hs. rewrite Hsev in Hs.
    destruct b, (exceeds status cfg k critical); try reflexivity; discriminate Hs.
  - intros (Hw & Hc).
    destruct (verdict status cfg k) as [v|] eqn:Hv.
    + destruct (verdict_Some _ _ Hv) as (_ & Hab & _ & Hs).
      destruct (verdict_In_alerts c k v Hv) as (a & Hin & <-).
      exists a. repeat split; [exact Hin | exact Hab |].
      cbn in Hs. rewrite Hs, Hc. destruct b; reflexivity.
    + apply verdict_None in Hv. congruence.
Qed.

Lemma silent_iff (c : time.Clock) k :
  silent (fst (alerts.CheckThresholds m status cfg c)) k
  <-> exceeds status cfg k warning = false.
Proof.
  split.
  - intros Hs. apply verdict_None.
    destruct (verdict status cfg k) as [v|] eqn:Hv; [|reflexivity].
    destruct (verdict_Some _ _ Hv) as (_ & Hab & _).
    destruct (verdict_In_alerts c k v Hv) as (a & Hin & <-).
    destruct (Hs a Hin Hab).
  - intros Hw a Hin Hab.
    destruct (In_alerts_verdict c a Hin) as (k' & Hv).
    destruct (verdict_Some _ _ Hv) as (Hw' & Hab' & _).
    assert (k' = k) as ->.
    { apply headline_inj. unfold about in Hab, Hab'. cbn in Hab'.
      destruct (Alert.Message a). congruence. }
    congruence.
Qed.

(** The bands of the six fixed metrics are nested: above the critical
    band is above the warning band.  For the CPU this needs the
    configured threshold to be at most 90. *)
Lemma bands_nested k :
  k <> CPU \/ (CPUThreshold cfg <=? 90)%float = true ->
  exceeds status cfg k critical = true -> exceeds status cfg k warning = true.
Proof.
  intros Hk. destruct k; cbn [exceeds]; unfold float64.gtb.
  - destruct Hk as [Hk|Hk]; [congruence|].
    intros H. exact (float_order.leb_ltb_trans _ _ _ Hk H).
  - apply float_order.ltb_trans. reflexivity.
  - intros [-> H]%andb_true_iff. cbn [andb]. revert H.
    apply float_order.ltb_trans. reflexivity.
  - apply float_order.ltb_trans. reflexivity.
  - apply float_order.ltb_trans. reflexivity.
  - apply float_order.ltb_trans. reflexivity.
  - rewrite !Z.gtb_gt. lia.
Qed.

(** C1, as amended.  For each of the seven metrics: a critical alert
    is raised iff the value is above the warning band and above the
    critical band; a warning alert iff it is above the warning band and
    not above the critical band; no alert iff it is not above the
    warning band.  Above the critical band alone decides the critical
    alert for the six metrics with fixed bands, and for the CPU when
    the configured threshold is at most 90. *)
Theorem CheckThresholds_bands (c : time.Clock) (k : metric) :
  let alerts := fst (alerts.CheckThresholds m status cfg c) in
  (raised alerts k critical
   <-> exceeds status cfg k warning = true /\ exceeds status cfg k critical = true)
  /\ (raised alerts k warning
      <-> exceeds status cfg k warning = true /\ exceeds status cfg k critical = false)
  /\ (silent alerts k <-> exceeds status cfg k warning = false)
  /\ (k <> CPU \/ (CPUThreshold cfg <=? 90)%float = true ->
      (raised alerts k critical <-> exceeds status cfg k critical = true)).
Proof.
  cbn zeta. split; [apply raised_iff|]. split; [apply raised_iff|].
  split; [apply silent_iff|].
  intros Hk. rewrite raised_iff. split; [tauto|].
  intros H. split; [|exact H]. apply bands_nested; assumption.
Qed.

Lemma sublist_NoDup_In {A} (l k : list A) :
  sublist l k -> NoDup k -> (forall x, In x l -> In x k) /\ NoDup l.
Proof.
  induction 1 as [|x l k _ IH|x l k _ IH]; intros Hk.
  - split; [tauto | constructor].
  - inversion Hk as [|? ? Hx Hk']; subst. destruct (IH Hk') as [Hin Hl].
    split; [intros y [<-|Hy]; cbn; auto|].
    constructor; [|exact Hl]. intros Hx'. apply Hx, Hin, Hx'.
  - inversion Hk as [|? ? Hx Hk']; subst. destruct (IH Hk') as [Hin Hl].
    split; [intros y Hy; right; auto | exact Hl].
Qed.

(** What an alert says of the metric it reports: its type, that the
    metric is above its warning band, and the severity, critical when
    the metric is above its critical band too and warning otherwise. *)
Local Abbreviation reports k a :=
  (about k a /\ Alert.Type_ a = tag k
   /\ exceeds status cfg k warning = true
   /\ Alert.Severity a
      = (if exceeds status cfg k critical then SeverityCritical else SeverityWarning)).

(** The metrics that a list of verdicts reports form a subsequence of
    the metrics examined: those above their warning band. *)
Lemma verdicts_sublist (l : list metric) (found : list Alert.t) :
  map untimed found = omap (verdict status cfg) l ->
  exists ks,
    Forall2 (fun k a => reports k a) ks found
    /\ sublist ks l
    /\ forall k, In k ks <-> In k l /\ exceeds status cfg k warning = true.
Proof.
  revert found. induction l as [|k l IH]; intros found H.
  - destruct found; [|discriminate]. exists []. split; [constructor|].
    split; [constructor|]. intros k. cbn. tauto.
  - cbn [omap list_omap] in H. destruct (verdict status cfg k) as [v|] eqn:Hv.
    + destruct found as [|a found]; [discriminate|].
      cbn [map] in H. injection H as Ha H.
      destruct (IH found H) as (ks & HF & Hs & Hin).
      destruct (verdict_Some _ _ Hv) as (Hw & Hab & Ht & Hsev).
      exists (k :: ks). split; [|split; [constructor; exact Hs|]].
      * constructor; [|exact HF].
        rewrite <- Ha in Hab, Ht, Hsev. cbn in Ht, Hsev.
        repeat split; assumption.
      * intros k'. cbn [In]. rewrite Hin. split.
        -- intros [<-|[? ?]]; auto.
        -- intros [[<-|?] ?]; auto.
    + destruct (IH found H) as (ks & HF & Hs & Hin).
      exists ks. split; [exact HF|]. split; [constructor; exact Hs|].
      intros k'. cbn [In]. rewrite Hin. split; [tauto|].
      intros [[<-|?] Hw]; [|tauto].
      apply verdict_None in Hv. congruence.
Qed.

(** C5.  The alerts come in the order CPU, memory, heap percentage,
    event-loop lag, event-loop utilization, GC duration, handle count:
    the metrics they report, each under its alert type, are a
    subsequence of that list.  Each metric is reported at most once,
    and exactly when it is above its warning band; its one alert
    carries the higher of the two severities that apply, critical when
    the metric is above its critical band as well and warning
    otherwise. *)
Theorem CheckThresholds_order (c : time.Clock) :
  exists ks : list metric,
    Forall2 (fun k a =>
               about k a /\ Alert.Type_ a = tag k
               /\ exceeds status cfg k warning = true
               /\ Alert.Severity a
                  = (if exceeds status cfg k critical
                     then SeverityCritical else SeverityWarning))
      ks (fst (alerts.CheckThresholds m status cfg c))
    /\ sublist ks [CPU; MemoryRSS; HeapPercent; Lag; Utilization; GCDuration; HandleCount]
    /\ NoDup ks
    /\ (forall k, In k ks <-> exceeds status cfg k warning = true).
Proof.
  destruct (verdicts_sublist all (fst (alerts.CheckThresholds m status cfg c))
              (CheckThresholds_verdicts c)) as (ks & HF & Hs & Hin).
  exists ks. split; [exact HF|]. split; [exact Hs|]. split.
  - apply (sublist_NoDup_In ks all Hs). unfold all.
    repeat (constructor; [cbn; intuition discriminate|]). constructor.
  - intros k. rewrite Hin. split; [tauto|]. intros Hw. split; [|exact Hw].
    destruct k; cbn; tauto.
Qed.

(** C6.  An alert of type heap, or about the heap percentage, is only
    ever raised when the heap total is positive; and with a heap total
    of zero the result does not depend on the heap-used figure, the
    numerator of the division. *)
Theorem CheckThresholds_heap_guard (c : time.Clock) :
  (forall a, In a (fst (alerts.CheckThresholds m status cfg c)) ->
     Alert.Type_ a = AlertTypeHeap \/ about HeapPercent a ->
     (0 < MemoryMetrics.HeapTotal (Status.Memory status))%Z)
  /\ (MemoryMetrics.HeapTotal (Status.Memory status) = 0%Z ->
      forall used,
        alerts.CheckThresholds m (with_HeapUsed status used) cfg c
        = alerts.CheckThresholds m status cfg c).
Proof.
  split.
  - intros a Hin Ha.
    destruct (In_alerts_verdict c a Hin) as (k & Hv).
    assert (k = HeapPercent) as ->.
    { destruct Ha as [Ha|Ha].
      - unfold verdict in Hv. destruct (exceeds status cfg k warning); [|discriminate].
        injection Hv as Hv. apply (f_equal Alert.Type_) in Hv. cbn in Hv.
        rewrite Ha in Hv. destruct k; cbn in Hv; try discriminate Hv. reflexivity.
      - destruct (verdict_Some _ _ Hv) as (_ & Hab & _).
        apply headline_inj. unfold about in Ha, Hab. cbn in Hab.
        destruct (Alert.Message a). congruence. }
    destruct (verdict_Some _ _ Hv) as (Hw & _).
    cbn [exceeds] in Hw. apply andb_true_iff in Hw. destruct Hw as [Hw _].
    apply Z.gtb_gt in Hw. lia.
  - intros H0 used. unfold alerts.CheckThresholds, with_HeapUsed. cbn.
    rewrite H0. reflexivity.
Qed.

(** C8, as amended.  Two calls on the same snapshot and configuration,
    at any two times and on any two managers, return lists that agree
    in length and, alert by alert, in type, severity, message, value
    and threshold; the timestamps are the readings of the clock at
    each call, one per alert. *)
Theorem CheckThresholds_repeatable (m' : alerts.Manager) (c c' : time.Clock) :
  let r := alerts.CheckThresholds m status cfg c in
  let r' := alerts.CheckThresholds m' status cfg c' in
  map untimed (fst r) = map untimed (fst r')
  /\ length (fst r) = length (fst r')
  /\ map Alert.Timestamp (fst r)
     = map (time.reading c) (seq (time.taken c) (length (fst r)))
  /\ map Alert.Timestamp (fst r')
     = map (time.reading c') (seq (time.taken c') (length (fst r'))).
Proof.
  cbn zeta.
  assert (E : map untimed (fst (alerts.CheckThresholds m status cfg c))
              = map untimed (fst (alerts.CheckThresholds m' status cfg c'))).
  { rewrite CheckThresholds_verdicts.
    symmetry. unfold alerts.CheckThresholds. apply CheckThresholds_verdicts. }
  split; [exact E|]. split.
  - apply (f_equal (@length _)) in E. rewrite !length_map in E. exact E.
  - split; [apply CheckThresholds_clock|].
    unfold alerts.CheckThresholds. apply CheckThresholds_clock.
Qed.

(** C10.  Every alert returned has its observed value strictly above
    its threshold. *)
Theorem CheckThresholds_value_above_threshold (c : time.Clock) :
  Forall (fun a => (Alert.Value a >? Alert.Threshold a)%float = true)
    (fst (alerts.CheckThresholds m status cfg c)).
Proof.
  apply Forall_forall. intros a Hin.
  destruct (In_alerts_verdict c a Hin) as (k & Hv).
  change (Alert.Value a) with (Alert.Value (untimed a)).
  change (Alert.Threshold a) with (Alert.Threshold (untimed a)).
  unfold verdict in Hv.
  destruct (exceeds status cfg k warning) eqn:Hw; [|discriminate].
  injection Hv as <-.
  destruct k; cbn [exceeds] in Hw; cbn [Alert.Value Alert.Threshold];
    try exact Hw.
  - apply andb_true_iff in Hw. exact (proj2 Hw).
  - apply gtb_of_Z_50. apply Z.gtb_gt in Hw. lia.
Qed.

End Evaluator.

(** C1, as the specification words it, fails for the CPU: with a configured
    threshold of 95 (which validates) and a usage of 92, the usage is
    above the critical band of 90 and no alert is raised. *)
Lemma CheckThresholds_cpu_threshold_above_90 :
  let cfg := sample.cfg 95 in
  let status := sample.status 92 0 0 0 0 0 0 0 in
  let alerts := fst (alerts.CheckThresholds alerts.NewManager status cfg sample.clock) in
  config.Validate cfg = None
  /\ thresholds.exceeds status cfg thresholds.CPU thresholds.critical = true
  /\ alerts = []
  /\ ~ thresholds.raised alerts thresholds.CPU thresholds.critical.
Proof.
  cbn zeta. split; [reflexivity|]. split; [reflexivity|].
  assert (E : fst (alerts.CheckThresholds alerts.NewManager
                     (sample.status 92 0 0 0 0 0 0 0) (sample.cfg 95) sample.clock) = [])
    by (vm_compute; reflexivity).
  rewrite E. split; [reflexivity|]. intros (a & [] & _).
Qed.

(** C8, as the specification words it, fails on the timestamps: two successive
    calls on one snapshot read the clock one after the other, and the
    alerts differ in their timestamps. *)
Lemma CheckThresholds_timestamps_differ :
  let cfg := sample.cfg 70 in
  let status := sample.status 95 0 0 0 0 0 0 0 in
  let r1 := alerts.CheckThresholds alerts.NewManager status cfg sample.clock in
  let r2 := alerts.CheckThresholds alerts.NewManager status cfg (snd r1) in
  map types.Alert.Timestamp (fst r1) = [0%Z]
  /\ map types.Alert.Timestamp (fst r2) = [1%Z]
  /\ fst r1 <> fst r2.
Proof.
  cbn zeta. split; [vm_compute; reflexivity|]. split; [vm_compute; reflexivity|].
  intros H. apply (f_equal (map types.Alert.Timestamp)) in H.
  vm_compute in H. discriminate H.
Qed.

(** C6 at a snapshot without heap figures: whatever the heap-used
    figure, the result is the same. *)
Lemma CheckThresholds_heap_guard_witness :
  let status := sample.status 95 0 0 0 0 0 0 0 in
  alerts.CheckThresholds alerts.NewManager (with_HeapUsed status 31457280)
    (sample.cfg 70) sample.clock
  = alerts.CheckThresholds alerts.NewManager status (sample.cfg 70) sample.clock.
Proof.
  cbn zeta.
  apply (proj2 (CheckThresholds_heap_guard alerts.NewManager
                  (sample.status 95 0 0 0 0 0 0 0) (sample.cfg 70) sample.clock)).
  reflexivity.
Defined.

(** ** The scheduler *)

Section Scheduler.
Import config host monitor.

Lemma collectAndProcess_running (w : World) (m : Monitor) (c : time.Clock) :
  running (fst (fst (collectAndProcess w m c))) = running m.
Proof.
  unfold collectAndProcess.
  match goal with
  | |- context [match ?x with Ok _ => _ | Err _ => _ end] => set (resolved := x)
  end.
  assert (Hres : forall m', resolved = Ok m' -> running m' = running m).
  { subst resolved. intros m'. destruct (PID (config m) =? 0)%Z.
    - destruct (metrics.FindProcessByPort w (Port (config m))); [|discriminate].
      intros [= <-]. reflexivity.
    - intros [= <-]. reflexivity. }
  destruct resolved as [m'|err]; [|reflexivity].
  specialize (Hres m' eq_refl).
  unfold time.bind, time.ret, or_default.
  repeat match goal with
  | |- context [match ?x with _ => _ end] => destruct x
  end; cbn; auto.
Qed.

Lemma loop_ticks_running (ws : list World) (m : Monitor) (c : time.Clock) :
  running m = true ->
  running (fst (fst (loop m (map Tick ws) c))) = true
  /\ snd (fst (loop m (map Tick ws) c)) = Polling.
Proof.
  revert m c. induction ws as [|w ws IH]; intros m c Hm; cbn.
  - split; [exact Hm | reflexivity].
  - unfold time.bind.
    pose proof (collectAndProcess_running w m c) as Hr.
    destruct (collectAndProcess w m c) as [[m' e] c']. cbn in Hr.
    apply IH. congruence.
Qed.

(** C9.  [Start] on a monitor that is running returns the error
    "monitor is already running" whatever happens next, and leaves the
    monitor and the clock as they were: no tick is run.  [Start] on an
    idle monitor sets the running flag; with a positive polling
    interval the call then stays in its polling loop, and the monitor
    stays running, through any number of ticks. *)
Theorem Start_twice (m : Monitor) (c : time.Clock) :
  (running m = true ->
   forall events,
     Start m events c
     = (m, Returned (Some (fmt.Errorf "monitor is already running" [])), c))
  /\ (running m = false ->
      running (fst (fst (Start m [] c))) = true
      /\ ((0 < PollingInterval (config m))%Z ->
          forall ws,
            running (fst (fst (Start m (map Tick ws) c))) = true
            /\ snd (fst (Start m (map Tick ws) c)) = Polling)).
Proof.
  split; intros Hm.
  - intros events. unfold Start. rewrite Hm. reflexivity.
  - unfold Start. rewrite Hm. cbn [set_running config].
    split.
    + destruct (PollingInterval (config m) <=? 0)%Z; reflexivity.
    + intros Hp ws. destruct (Z.leb_spec (PollingInterval (config m)) 0); [lia|].
      apply loop_ticks_running. reflexivity.
Qed.

(** C9 at a monitor that has just been started: the second [Start]
    fails, the first one is polling. *)
Lemma Start_twice_witness :
  let m := monitor.New (sample.cfg 70) in
  let m1 := fst (fst (Start m [] sample.clock)) in
  running m1 = true
  /\ Start m1 [Tick sample.world; Done] sample.clock
     = (m1, Returned (Some (fmt.Errorf "monitor is already running" [])), sample.clock).
Proof.
  cbn zeta. split; [reflexivity|].
  apply (proj1 (Start_twice _ sample.clock)). reflexivity.
Defined.

End Scheduler.

(** ** The rolling window of lag samples *)

Section Window.
Import types config host metrics.

Variable cfg : ServiceConfig.
Variables pid inspectPort : Z.

(** One collection step: the sample is appended and, past 100
    entries, the oldest is dropped; the record reports the sample and
    the statistics of the window as it is after the step. *)
Lemma CollectEventLoop_step (w : World) (c : Collector) (clk : time.Clock) :
  let r := fst (CollectEventLoop w cfg c pid inspectPort clk) in
  let hist := eventLoopHist c ++ [lagSample w cfg inspectPort] in
  eventLoopHist (fst r) = (if (100 <? length hist)%nat then drop 1 hist else hist)
  /\ exists e, snd r = Ok e
       /\ EventLoopMetrics.Lag e = lagSample w cfg inspectPort
       /\ stats e = calculateEventLoopStats (fst r).
Proof.
  cbn zeta. unfold CollectEventLoop, lagSample.
  set (lag := match measureEventLoopLag w cfg inspectPort with
              | Ok lag => lag | Err _ => 0%float end).
  set (hist := if (100 <? length (eventLoopHist c ++ [lag]))%nat
               then drop 1 (eventLoopHist c ++ [lag]) else eventLoopHist c ++ [lag]).
  destruct (calculateEventLoopStats {| eventLoopHist := hist |})
    as [[[mean max] min] p95] eqn:E.
  unfold time.bind, time.ret, time.Now. cbn.
  split; [reflexivity|]. eexists. split; [reflexivity|].
  split; [reflexivity|]. unfold stats. cbn. symmetry. exact E.
Qed.

Lemma drop_last_100 (h : list float) (s : float) :
  length h <= 100 ->
  (if (100 <? length (h ++ [s]))%nat then drop 1 (h ++ [s]) else h ++ [s])
  = drop (length (h ++ [s]) - 100) (h ++ [s]).
Proof.
  intros Hh. rewrite length_app. cbn [length].
  destruct (Nat.ltb_spec 100 (length h + 1)).
  - replace (length h + 1 - 100) with 1 by lia. reflexivity.
  - replace (length h + 1 - 100) with 0 by lia. reflexivity.
Qed.

Lemma last_100_step {A} (h rest : list A) (s : A) :
  length h <= 100 ->
  let h1 := drop (length (h ++ [s]) - 100) (h ++ [s]) in
  drop (length (h1 ++ rest) - 100) (h1 ++ rest)
  = drop (length (h ++ s :: rest) - 100) (h ++ s :: rest).
Proof.
  intros Hh h1. subst h1.
  replace (h ++ s :: rest) with ((h ++ [s]) ++ rest)
    by (rewrite <- app_assoc; reflexivity).
  assert (Hl : length (h ++ [s]) = length h + 1) by (rewrite length_app; reflexivity).
  destruct (Nat.le_gt_cases (length (h ++ [s])) 100) as [Hle|Hgt].
  - replace (length (h ++ [s]) - 100) with 0 by lia. reflexivity.
  - replace (length (h ++ [s]) - 100) with 1 by lia.
    rewrite <- (drop_app_le (h ++ [s]) rest 1) by lia.
    rewrite drop_drop. f_equal.
    rewrite length_drop, !length_app. rewrite !length_app in Hgt. cbn in *. lia.
Qed.

Lemma CollectEventLoops_cons (w : World) (ws : list World) (c : Collector)
    (clk : time.Clock) :
  CollectEventLoops cfg c pid inspectPort (w :: ws) clk
  = let '(c1, r1, clk1) := CollectEventLoop w cfg c pid inspectPort clk in
    let '(c2, rs, clk2) := CollectEventLoops cfg c1 pid inspectPort ws clk1 in
    (c2, r1 :: rs, clk2).
Proof.
  cbn [CollectEventLoops]. unfold time.bind, time.ret.
  destruct (CollectEventLoop w cfg c pid inspectPort clk) as [[c1 r1] clk1].
  destruct (CollectEventLoops cfg c1 pid inspectPort ws clk1) as [[c2 rs] clk2].
  reflexivity.
Qed.

(** After any run of collection steps from a window of at most 100
    entries, the window holds the last 100 of all the samples. *)
Lemma CollectEventLoops_window (ws : list World) (c : Collector) (clk : time.Clock) :
  length (eventLoopHist c) <= 100 ->
  let all := eventLoopHist c ++ map (fun w => lagSample w cfg inspectPort) ws in
  eventLoopHist (fst (fst (CollectEventLoops cfg c pid inspectPort ws clk)))
  = drop (length all - 100) all.
Proof.
  revert c clk. induction ws as [|w ws IH]; intros c clk Hc; cbn zeta.
  - cbn. rewrite app_nil_r.
    replace (length (eventLoopHist c) - 100) with 0 by lia. reflexivity.
  - rewrite CollectEventLoops_cons. cbn [map].
    pose proof (CollectEventLoop_step w c clk) as [Hh _].
    destruct (CollectEventLoop w cfg c pid inspectPort clk) as [[c1 r1] clk1].
    cbn [fst snd] in Hh. rewrite drop_last_100 in Hh by exact Hc.
    assert (Hc1 : length (eventLoopHist c1) <= 100).
    { rewrite Hh, length_drop. lia. }
    specialize (IH c1 clk1 Hc1). cbn zeta in IH.
    destruct (CollectEventLoops cfg c1 pid inspectPort ws clk1) as [[c2 rs] clk2].
    cbn [fst snd] in *. rewrite IH, Hh.
    apply last_100_step. exact Hc.
Qed.

(** The record of the last step of a run carries the statistics of
    the window as the run leaves it. *)
Lemma CollectEventLoops_last (ws : list World) (c : Collector) (clk : time.Clock) :
  let r := fst (CollectEventLoops cfg c pid inspectPort ws clk) in
  forall rs x, snd r = rs ++ [x] ->
    exists e, x = Ok e /\ stats e = calculateEventLoopStats (fst r).
Proof.
  revert c clk. induction ws as [|w ws IH]; intros c clk; cbn zeta.
  - cbn. intros [|? ?] x H; discriminate H.
  - rewrite CollectEventLoops_cons.
    pose proof (CollectEventLoop_step w c clk) as [_ (e & He & _ & Hs)].
    destruct (CollectEventLoop w cfg c pid inspectPort clk) as [[c1 r1] clk1].
    cbn [fst snd] in *.
    specialize (IH c1 clk1). cbn zeta in IH.
    destruct (CollectEventLoops cfg c1 pid inspectPort ws clk1) as [[c2 rs'] clk2] eqn:E.
    cbn [fst snd] in *.
    intros rs x Hx. destruct rs as [|r rs].
    + injection Hx as -> ->.
      destruct ws as [|w' ws'].
      * cbn in E. injection E as <- _. eauto.
      * rewrite CollectEventLoops_cons in E.
        destruct (CollectEventLoop w' cfg c1 pid inspectPort clk1) as [[? ?] ?].
        destruct (CollectEventLoops cfg c0 pid inspectPort ws' c3) as [[? ?] ?].
        discriminate E.
    + injection Hx as _ Hx. exact (IH rs x Hx).
Qed.

End Window.

(** The window of the monitor's collector stays within 100 entries
    through every tick. *)
Lemma collectAndProcess_window (w : host.World) (m : monitor.Monitor)
    (c : time.Clock) :
  length (metrics.eventLoopHist (monitor.metrics m)) <= 100 ->
  length (metrics.eventLoopHist
            (monitor.metrics (fst (fst (monitor.collectAndProcess w m c))))) <= 100.
Proof.
  intros Hm. unfold monitor.collectAndProcess.
  match goal with
  | |- context [match ?x with host.Ok _ => _ | host.Err _ => _ end] =>
      set (resolved := x)
  end.
  assert (Hres : forall m', resolved = host.Ok m' ->
                   monitor.metrics m' = monitor.metrics m).
  { subst resolved. intros m'. destruct (config.PID (monitor.config m) =? 0)%Z.
    - destruct (metrics.FindProcessByPort w (config.Port (monitor.config m)));
        [|discriminate].
      intros [= <-]. reflexivity.
    - intros [= <-]. reflexivity. }
  destruct resolved as [m'|err]; [|exact Hm].
  specialize (Hres m' eq_refl). rewrite <- Hres in Hm. clear Hres.
  unfold time.bind.
  destruct (metrics.CollectCPU w _ c) as [[cpu|?] c1]; [|exact Hm].
  destruct (metrics.CollectMemory w _ _ c1) as [[mem|?] c2]; [|exact Hm].
  pose proof (CollectEventLoop_step (monitor.config m')
                (config.PID (monitor.config m'))
                (config.InspectPort (monitor.config m')) w
                (monitor.metrics m') c2) as [Hh _].
  destruct (metrics.CollectEventLoop w _ _ _ _ c2) as [[col r] c3].
  cbn [fst snd] in Hh.
  assert (Hcol : length (metrics.eventLoopHist col) <= 100).
  { rewrite Hh, drop_last_100 by exact Hm. rewrite length_drop. lia. }
  unfold time.ret, monitor.or_default.
  repeat match goal with
  | |- context [match ?x with _ => _ end] => destruct x
  end; exact Hcol.
Qed.

Lemma loop_window (events : list monitor.event) (m : monitor.Monitor)
    (c : time.Clock) :
  length (metrics.eventLoopHist (monitor.metrics m)) <= 100 ->
  length (metrics.eventLoopHist
            (monitor.metrics (fst (fst (monitor.loop m events c))))) <= 100.
Proof.
  revert m c. induction events as [|[|w] events IH]; intros m c Hm; cbn.
  - exact Hm.
  - exact Hm.
  - unfold time.bind.
    pose proof (collectAndProcess_window w m c Hm) as H.
    destruct (monitor.collectAndProcess w m c) as [[m' e] c']. cbn in H.
    apply IH. exact H.
Qed.

Section WindowClaim.
Import types config host metrics.

(** C4.  From a fresh collector and through any sequence of
    collection steps: the window holds the last 100 samples, in order;
    its length never exceeds 100; a step at capacity drops exactly the
    oldest entry and appends the new sample; after 101 steps the
    window is the samples without the first; the statistics reported
    by the last step are those of that window alone; and the window
    of a monitor never exceeds 100 entries, whatever ticks it runs. *)
Theorem rolling_window (cfg : config.ServiceConfig) (pid inspectPort : Z)
    (ws : list host.World) (clk : time.Clock) :
  let r := fst (CollectEventLoops cfg (NewCollector cfg) pid inspectPort ws clk) in
  let samples := map (fun w => lagSample w cfg inspectPort) ws in
  eventLoopHist (fst r) = drop (length samples - 100) samples
  /\ length (eventLoopHist (fst r)) <= 100
  /\ (forall w c clk',
        length (eventLoopHist c) = 100 ->
        eventLoopHist (fst (fst (CollectEventLoop w cfg c pid inspectPort clk')))
        = drop 1 (eventLoopHist c) ++ [lagSample w cfg inspectPort])
  /\ (length ws = 101 -> eventLoopHist (fst r) = drop 1 samples)
  /\ (forall rs x, snd r = rs ++ [x] ->
        exists e, x = Ok e
          /\ stats e
             = calculateEventLoopStats
                 {| eventLoopHist := drop (length samples - 100) samples |})
  /\ (forall events c,
        length (eventLoopHist
                  (monitor.metrics
                     (fst (fst (monitor.Start (monitor.New cfg) events c))))) <= 100).
Proof.
  cbn zeta.
  pose proof (CollectEventLoops_window cfg pid inspectPort ws (NewCollector cfg) clk) as Hw.
  cbn in Hw. specialize (Hw ltac:(lia)).
  split; [exact Hw|]. split; [rewrite Hw, length_drop; lia|].
  split.
  { intros w c clk' Hc.
    destruct (CollectEventLoop_step cfg pid inspectPort w c clk') as [Hh _]. rewrite Hh.
    rewrite length_app, Hc. cbn [length Nat.ltb Nat.leb].
    replace (100 <? 100 + 1)%nat with true by reflexivity.
    rewrite drop_app_le by lia. reflexivity. }
  split.
  { intros H101. rewrite Hw, length_map, H101. reflexivity. }
  split.
  { intros rs x Hx.
    destruct (CollectEventLoops_last cfg pid inspectPort ws (NewCollector cfg) clk rs x Hx)
      as (e & -> & Hs).
    exists e. split; [reflexivity|]. rewrite Hs. rewrite <- Hw.
    destruct (fst (fst (CollectEventLoops cfg (NewCollector cfg) pid inspectPort ws clk))).
    reflexivity. }
  intros events c. unfold monitor.Start. cbn [monitor.New monitor.running].
  destruct (_ <=? 0)%Z.
  - cbn. lia.
  - apply loop_window. cbn. lia.
Qed.

End WindowClaim.

(** ** A tick without an inspector *)

(** C2, evaluated.  On a host whose process answers and whose
    inspector port refuses every connection, the tick succeeds and
    renders a snapshot with lag 0 and no heap figures; but the GC
    metrics, the handle metrics and the heap-space maps are the fixed
    figures of the stubs, not the defaults of the fallback branches. *)
Lemma collectAndProcess_inspector_refused :
  let r := monitor.collectAndProcess sample.world
             (monitor.New (sample.cfg 70)) sample.clock in
  let m := fst (fst r) in
  (forall path, host.Get sample.world 9229 path
                = host.Refused (fmt.Lib "connection refused"))
  /\ snd (fst r) = None
  /\ monitor.shown m (fun s => types.EventLoopMetrics.Lag (types.Status.EventLoop s))
     = Some 0%float
  /\ monitor.shown m (fun s => types.MemoryMetrics.HeapTotal (types.Status.Memory s))
     = Some 0%Z
  /\ monitor.shown m (fun s => types.GCMetrics.Collections (types.Status.GC s))
     = Some 1%Z
  /\ monitor.shown m (fun s => types.GCMetrics.Duration (types.Status.GC s))
     = Some 2.5%float
  /\ monitor.shown m (fun s => types.GCMetrics.Type_ (types.Status.GC s))
     = Some "minor"
  /\ monitor.shown m (fun s => types.GCMetrics.Reason (types.Status.GC s))
     = Some "allocation_limit"
  /\ monitor.shown m (fun s => types.GCMetrics.CollectionsTotal (types.Status.GC s))
     = Some 10%Z
  /\ monitor.shown m (fun s => types.HandleMetrics.Active (types.Status.Handles s))
     = Some 15%Z
  /\ monitor.shown m (fun s => types.HandleMetrics.Refs (types.Status.Handles s))
     = Some 8%Z
  /\ monitor.shown m
       (fun s => types.V8Metrics.HeapSpaceUsed (types.Status.V8 s) !! "old_space")
     = Some (Some (40 * 1024 * 1024)%Z)
  /\ monitor.shown m
       (fun s => types.V8Metrics.HeapSpaceSize (types.Status.V8 s) !! "new_space")
     = Some (Some (10 * 1024 * 1024)%Z)
  /\ monitor.shown m
       (fun s => types.V8Metrics.HeapSpaceAvailable (types.Status.V8 s) !! "code_space")
     = Some (Some (5 * 1024 * 1024)%Z).
Proof.
  cbn zeta. split; [reflexivity|].
  repeat match goal with |- _ /\ _ => split end; vm_compute; reflexivity.
Qed.

(** ** The statistics of the window *)

Section Sorting.
Import metrics order.

(** The inner loop on indices is the pass by recursion on the list. *)
Lemma compare_swap_short (l : list float) (j : nat) :
  length l <= j + 1 -> compare_swap l j = l.
Proof.
  intros H. unfold compare_swap.
  destruct (l !! j) as [a|]; [|reflexivity].
  rewrite (lookup_ge_None_2 l (j + 1)) by lia. reflexivity.
Qed.

Lemma foldl_compare_swap_short (k s : nat) (l : list float) :
  length l <= s + 1 -> foldl compare_swap l (seq s k) = l.
Proof.
  revert s. induction k as [|k IH]; intros s H; [reflexivity|].
  cbn [seq foldl]. rewrite compare_swap_short by exact H.
  apply IH. lia.
Qed.

Lemma foldl_compare_swap (k : nat) (p l : list float) :
  foldl compare_swap (p ++ l) (seq (length p) k) = p ++ bubble k l.
Proof.
  revert p l. induction k as [|k IH]; intros p l.
  - destruct l as [|a [|b t]]; reflexivity.
  - destruct l as [|a [|b t]].
    + apply foldl_compare_swap_short. rewrite length_app. cbn. lia.
    + apply foldl_compare_swap_short. rewrite length_app. cbn. lia.
    + cbn [seq foldl bubble].
      assert (E : compare_swap (p ++ a :: b :: t) (length p)
                  = (p ++ [if (a >? b)%float then b else a])
                    ++ (if (a >? b)%float then a else b) :: t).
      { unfold compare_swap.
        rewrite list_lookup_middle by reflexivity.
        replace (p ++ a :: b :: t) with ((p ++ [a]) ++ b :: t)
          by (rewrite <- app_assoc; reflexivity).
        rewrite (list_lookup_middle (p ++ [a]) t b (length p + 1))
          by (rewrite length_app; reflexivity).
        destruct (a >? b)%float; [|reflexivity].
        rewrite (insert_app_r_alt (p ++ [a]) (b :: t) (length p + 1))
          by (rewrite length_app; cbn; lia).
        rewrite length_app. cbn [length].
        replace (length p + 1 - (length p + 1)) with 0 by lia.
        cbn [insert list_insert].
        rewrite <- !app_assoc. cbn [app].
        rewrite (insert_app_r_alt p (a :: a :: t) (length p)) by lia.
        replace (length p - length p) with 0 by lia. reflexivity. }
      rewrite E.
      replace (S (length p)) with (length (p ++ [if (a >? b)%float then b else a]))
        by (rewrite length_app; cbn; lia).
      rewrite IH. rewrite <- app_assoc. cbn [app].
      destruct (a >? b)%float; reflexivity.
Qed.

Lemma bubble_pass_bubble (l : list float) (i : nat) :
  bubble_pass l i = bubble (length l - 1 - i) l.
Proof. unfold bubble_pass. apply (foldl_compare_swap _ [] l). Qed.

Lemma bubble_Permutation (k : nat) (l : list float) : Permutation (bubble k l) l.
Proof.
  revert l. induction k as [|k IH]; intros l; [destruct l as [|a [|b t]]; reflexivity|].
  destruct l as [|a [|b t]]; try reflexivity.
  cbn [bubble]. destruct (a >? b)%float.
  - rewrite IH. apply perm_swap.
  - rewrite IH. reflexivity.
Qed.

Lemma bubble_app (k : nat) (front back : list float) :
  k < length front -> bubble k (front ++ back) = bubble k front ++ back.
Proof.
  revert front. induction k as [|k IH]; intros front H.
  - reflexivity.
  - destruct front as [|a [|b t]]; cbn in H; try lia.
    cbn [app bubble]. destruct (a >? b)%float.
    + apply (f_equal (cons b)). apply (IH (a :: t)). cbn. lia.
    + apply (f_equal (cons a)). apply (IH (b :: t)). cbn. lia.
Qed.

(** A full pass moves a greatest element to the end. *)
Lemma bubble_max (l : list float) (a : float) :
  numbers (a :: l) ->
  exists init mx,
    bubble (length l) (a :: l) = init ++ [mx] /\ Forall (fun x => fle x mx) (a :: l).
Proof.
  revert a. induction l as [|b t IH]; intros a Hn.
  - exists [], a. split; [reflexivity|]. constructor; [|constructor].
    apply float_order.leb_refl. inversion Hn; assumption.
  - cbn [length bubble].
    assert (Ha : is_nan a = false) by (inversion Hn; assumption).
    assert (Hb : is_nan b = false) by (inversion Hn as [|? ? _ H]; inversion H; assumption).
    assert (Ht : numbers t) by (inversion Hn as [|? ? _ H]; inversion H; assumption).
    destruct (a >? b)%float eqn:E.
    + destruct (IH a) as (init & mx & Hb' & HF); [constructor; assumption|].
      exists (b :: init), mx. split; [rewrite Hb'; reflexivity|].
      inversion HF as [|? ? Hamx HF']; subst.
      constructor; [exact Hamx|]. constructor; [|exact HF'].
      unfold fle. apply float_order.leb_trans with a; [|exact Hamx].
      apply float_order.ltb_leb. exact E.
    + destruct (IH b) as (init & mx & Hb' & HF); [constructor; assumption|].
      exists (a :: init), mx. split; [rewrite Hb'; reflexivity|].
      inversion HF as [|? ? Hbmx HF']; subst.
      constructor; [|constructor; assumption].
      unfold fle. apply float_order.leb_trans with b; [|exact Hbmx].
      apply float_order.leb_total; assumption.
Qed.

Lemma numbers_Permutation (l l' : list float) :
  Permutation l l' -> numbers l -> numbers l'.
Proof. intros H. unfold numbers. rewrite H. auto. Qed.

(** The outer loop: after [i] passes the last [i] entries are in
    place, sorted and above the rest. *)
Lemma bubble_passes (steps i : nat) (front back : list float) :
  length back = i -> i + steps = length (front ++ back) ->
  numbers (front ++ back) ->
  StronglySorted fle back ->
  (forall x y, In x front -> In y back -> fle x y) ->
  let res := foldl bubble_pass (front ++ back) (seq i steps) in
  StronglySorted fle res /\ Permutation res (front ++ back).
Proof.
  revert i front back. induction steps as [|steps IH];
    intros i front back Hi Hn Hnum Hs Hfb; cbn zeta.
  - cbn [seq foldl]. rewrite length_app in Hn.
    destruct front; [|cbn in Hn; lia]. split; [exact Hs|reflexivity].
  - cbn [seq foldl]. rewrite bubble_pass_bubble.
    rewrite length_app in Hn.
    destruct front as [|a f]; [cbn in Hn; lia|].
    assert (Hk : length ((a :: f) ++ back) - 1 - i = length f).
    { rewrite length_app. cbn [length]. lia. }
    rewrite Hk, bubble_app by (cbn; lia).
    assert (Hnf : numbers (a :: f)).
    { unfold numbers in *. apply Forall_app in Hnum. tauto. }
    destruct (bubble_max f a Hnf) as (init & mx & Hb & HF).
    pose proof (bubble_Permutation (length f) (a :: f)) as Hp.
    rewrite Hb in Hp |- *.
    rewrite <- app_assoc. cbn [app].
    assert (Hmx : In mx (a :: f)).
    { apply (Permutation_in mx Hp). apply in_or_app. right. left. reflexivity. }
    assert (Hin : forall x, In x init -> In x (a :: f)).
    { intros x Hx. apply (Permutation_in x Hp). apply in_or_app. left. exact Hx. }
    assert (Hperm : Permutation (init ++ mx :: back) ((a :: f) ++ back)).
    { change (mx :: back) with ([mx] ++ back). rewrite app_assoc.
      apply Permutation_app_tail. exact Hp. }
    destruct (IH (S i) init (mx :: back)) as [Hres Hrp].
    + cbn. lia.
    + rewrite (Permutation_length Hperm), length_app. lia.
    + apply (numbers_Permutation ((a :: f) ++ back)); [symmetry; exact Hperm|exact Hnum].
    + constructor; [exact Hs|].
      apply Forall_forall. intros y Hy. apply Hfb; assumption.
    + intros x y Hx [<-|Hy].
      * rewrite Forall_forall in HF. apply HF, Hin, Hx.
      * apply Hfb; [apply Hin, Hx|exact Hy].
    + split; [exact Hres|]. rewrite Hrp. exact Hperm.
Qed.

(** The sort returns the window in ascending order. *)
Lemma bubble_sort_sorted (l : list float) :
  numbers l ->
  StronglySorted fle (bubble_sort l) /\ Permutation (bubble_sort l) l.
Proof.
  intros Hn. unfold bubble_sort.
  pose proof (bubble_passes (length l) 0 l [] eq_refl) as H.
  rewrite app_nil_r in H. apply H.
  - reflexivity.
  - exact Hn.
  - constructor.
  - intros x y _ [].
Qed.

(** On windows of up to 100 samples the float computation of the
    index is the nearest rank [floor(0.95 * n)]. *)
Lemma p95Index_nearest_rank (n : nat) :
  1 <= n <= 100 -> p95Index n = Z.of_nat (95 * n / 100).
Proof.
  intros Hn.
  assert (H : forallb (fun n => (p95Index n =? Z.of_nat (95 * n / 100))%Z) (seq 1 100)
              = true) by (vm_compute; reflexivity).
  rewrite forallb_forall in H. apply Z.eqb_eq, H, in_seq. lia.
Qed.

(** C3.  For a window of 1 to 100 samples, none of them NaN, the
    reported 95th percentile is the entry at index
    [floor(0.95 * length)], clamped to the last index, of the window
    sorted ascending; for the window 1, 2, ..., 10 it is 10; and for
    the empty window the four statistics are zero. *)
Theorem p95_nearest_rank :
  (forall c : Collector,
     let h := eventLoopHist c in
     h <> [] -> length h <= 100 -> numbers h ->
     exists sorted,
       Permutation sorted h
       /\ StronglySorted fle sorted
       /\ snd (calculateEventLoopStats c)
          = nth (Nat.min (95 * length h / 100) (length h - 1)) sorted 0%float)
  /\ calculateEventLoopStats {| eventLoopHist := [1; 2; 3; 4; 5; 6; 7; 8; 9; 10]%float |}
     = (5.5, 10, 1, 10)%float
  /\ calculateEventLoopStats {| eventLoopHist := [] |} = (0, 0, 0, 0)%float.
Proof.
  split; [|split; vm_compute; reflexivity].
  intros c h Hne Hlen Hnum.
  destruct (bubble_sort_sorted h Hnum) as [Hs Hp].
  exists (bubble_sort h). split; [exact Hp|]. split; [exact Hs|].
  unfold calculateEventLoopStats. fold h.
  destruct h as [|first rest] eqn:Eh; [congruence|].
  destruct (foldl accumulate (0%float, first, first) (first :: rest))
    as [[sum max] min].
  cbn [snd]. f_equal.
  rewrite (Permutation_length Hp).
  rewrite p95Index_nearest_rank by (cbn [length] in *; lia).
  rewrite Nat2Z.id.
  assert (95 * length (first :: rest) / 100 < length (first :: rest)).
  { apply Nat.Div0.div_lt_upper_bound. cbn [length]. lia. }
  lia.
Qed.

(** C3 at the window 3, 1, 2: sorted it is 1, 2, 3 and the index is
    [floor(2.85) = 2]. *)
Lemma p95_nearest_rank_witness :
  exists sorted,
    Permutation sorted [3; 1; 2]%float
    /\ StronglySorted fle sorted
    /\ snd (calculateEventLoopStats {| eventLoopHist := [3; 1; 2]%float |})
       = nth (Nat.min (95 * 3 / 100) (3 - 1)) sorted 0%float.
Proof.
  apply (proj1 p95_nearest_rank {| eventLoopHist := [3; 1; 2]%float |}).
  - discriminate.
  - cbn. lia.
  - repeat constructor.
Defined.

End Sorting.

(** ** The utilization derived from the lag *)

Section Utilization.
Import metrics order rounding float_rounding.
Local Open Scope float_scope.

Lemma Min_100 (y : float) :
  float64.Min 100 y
  = if is_infinity y && get_sign y then neg_infinity
    else if is_nan y then nan
    else if 100 <? y then 100 else y.
Proof. reflexivity. Qed.

Lemma Min_100_positive (y : float) :
  (0 <? y) = true -> float64.Min 100 y = if 100 <? y then 100 else y.
Proof.
  intros Hy. rewrite Min_100.
  assert (Hs : get_sign y = false).
  { unfold get_sign, is_zero.
    assert ((y =? zero) = false) as ->.
    { apply not_true_iff_false. rewrite float_order.eqb_lex. intros (_ & _ & E).
      apply float_order.ltb_lex in Hy. destruct Hy as (_ & _ & Hy).
      change (Prim2SF 0) with (Prim2SF zero) in Hy. rewrite <- E in Hy.
      destruct (key (Prim2SF y)) as [[a b] d]. unfold lex in Hy. lia. }
    apply float_order.leb_not_ltb, float_order.ltb_leb. exact Hy. }
  rewrite Hs, andb_false_r.
  assert (is_nan y = false) as ->; [|reflexivity].
  apply float_order.ltb_lex in Hy. tauto.
Qed.

Lemma Min_100_le (y : float) : (float64.Min 100 y >? 100) = false.
Proof.
  rewrite Min_100. unfold float64.gtb.
  destruct (is_infinity y && get_sign y); [reflexivity|].
  destruct (is_nan y); [reflexivity|].
  destruct (100 <? y) eqn:E; [reflexivity|exact E].
Qed.

(** The only float that compares equal to 100 is 100. *)
Lemma leb_antisym_100 (y : float) :
  (100 <=? y) = true -> (y <=? 100) = true -> y = 100.
Proof.
  intros H1 H2. apply float_order.leb_lex in H1, H2.
  destruct H1 as (_ & _ & H1), H2 as (_ & _ & H2).
  apply Prim2SF_inj.
  assert (E : key (Prim2SF y) = key (Prim2SF 100)).
  { destruct (key (Prim2SF y)) as [[a b] d], (key (Prim2SF 100)) as [[a' b'] d'].
    unfold lex in *. f_equal; [f_equal|]; lia. }
  assert (E100 : Prim2SF 100 = S754_finite false 7036874417766400 (-46))
    by (vm_compute; reflexivity).
  rewrite E100 in *. cbn [key] in E.
  destruct (Prim2SF y) as [[]|[]| |[] m e]; cbn [key] in E; try discriminate E.
  injection E as -> ->. reflexivity.
Qed.

Local Abbreviation util := calculateEventLoopUtilization.

Lemma ten_spec : Prim2SF 10 = S754_finite false 5629499534213120 (-49).
Proof. vm_compute. reflexivity. Qed.
Lemma five_spec : Prim2SF 5 = S754_finite false 5629499534213120 (-50).
Proof. vm_compute. reflexivity. Qed.
Lemma one_spec : Prim2SF 1 = S754_finite false 4503599627370496 (-52).
Proof. vm_compute. reflexivity. Qed.


Lemma ramp_mono (x y : float) :
  (1 <=? x) = true -> (x <=? y) = true -> (ramp x <=? ramp y) = true.
Proof.
  intros H1 Hxy. unfold ramp.
  assert (Hs : (x - 1 <=? y - 1) = true) by (apply (sub_mono 1 x y _ _ one_spec); assumption).
  assert (H0 : (0 <=? x - 1) = true).
  { change 0 with (1 - 1). apply (sub_mono 1 1 x _ _ one_spec); [reflexivity|exact H1]. }
  assert (Hm : ((x - 1) * 5 <=? (y - 1) * 5) = true).
  { apply (mul_mono 5 _ _ _ _ five_spec); [lia|exact H0|exact Hs]. }
  assert (H0' : (0 <=? (x - 1) * 5) = true).
  { change 0 with (0 * 5). apply (mul_mono 5 _ _ _ _ five_spec); [lia|reflexivity|exact H0]. }
  apply (add_mono 10 _ _ _ _ ten_spec); assumption.
Qed.

Lemma ramp_ge_10 (x : float) : (1 <=? x) = true -> (10 <=? ramp x) = true.
Proof.
  intros H. change 10 with (ramp 1) at 1. apply ramp_mono; [reflexivity|exact H].
Qed.

Lemma util_low (lag : float) : (lag <=? 1) = true -> util lag = lag * 10.
Proof. intros H. unfold calculateEventLoopUtilization. rewrite H. reflexivity. Qed.

Lemma util_high (lag : float) :
  (1 <? lag) = true -> util lag = float64.Min 100 (ramp lag).
Proof.
  intros H. unfold calculateEventLoopUtilization.
  rewrite (float_order.ltb_not_leb _ _ H). reflexivity.
Qed.

Lemma util_high_cases (lag : float) :
  (1 <? lag) = true -> util lag = if 100 <? ramp lag then 100 else ramp lag.
Proof.
  intros H. rewrite util_high by exact H. apply Min_100_positive.
  apply float_order.ltb_leb_trans with 10; [reflexivity|].
  apply ramp_ge_10, float_order.ltb_leb, H.
Qed.

(** A product with a positive float has the sign of the other factor. *)
Lemma binary_round_aux_not_above (M E : Z) (l : location) (m : positive) (e : Z) :
  SFltb (S754_finite false m e) (binary_round_aux prec emax true M E l) = false.
Proof.
  unfold binary_round_aux.
  destruct (shr_fexp prec emax M E l) as [mrs' e'].
  destruct (shr_fexp prec emax _ e' loc_Exact) as [mrs'' e''].
  destruct (shr_m mrs'') as [|q|q]; try reflexivity.
  destruct (e'' <=? emax - prec)%Z; reflexivity.
Qed.

Lemma mul_10_negative (lag : float) :
  (lag <=? 1) = true -> (0 <=? lag) = false -> (lag * 10 >? 100) = false.
Proof.
  intros H1 H0. unfold float64.gtb. apply not_true_iff_false. intros H.
  rewrite ltb_spec, mul_spec, ten_spec in H. rewrite leb_spec in H0, H1.
  assert (E100 : Prim2SF 100 = S754_finite false 7036874417766400 (-46))
    by (vm_compute; reflexivity).
  rewrite E100 in H.
  change (Prim2SF 0) with (S754_zero false) in H0.
  destruct (Prim2SF lag) as [[]|[]| |[] m e]; try discriminate.
  unfold SF64mul in H. cbn [SFmul xorb] in H.
  rewrite binary_round_aux_not_above in H. discriminate H.
Qed.

(** C7.  Up to a lag of 1 the utilization is ten times the lag; above
    1 it is the ramp [10 + (lag - 1) * 5] capped at 100; it never
    exceeds 100; from a lag of 0 up it never decreases as the lag
    grows; and from a lag of 19 on it is 100. *)
Theorem utilization_monotone_saturating :
  (forall lag, (lag <=? 1) = true ->
     calculateEventLoopUtilization lag = lag * 10)
  /\ (forall lag, (1 <? lag) = true ->
       calculateEventLoopUtilization lag = float64.Min 100 (10 + ((lag - 1) * 5)))
  /\ (forall lag, (calculateEventLoopUtilization lag >? 100) = false)
  /\ (forall lag lag', (0 <=? lag) = true -> (lag <=? lag') = true ->
       (calculateEventLoopUtilization lag <=? calculateEventLoopUtilization lag') = true)
  /\ (forall lag, (19 <=? lag) = true -> calculateEventLoopUtilization lag = 100).
Proof.
  assert (Hlow : forall lag, (0 <=? lag) = true -> (lag <=? 1) = true ->
                   (lag * 10 <=? 10) = true).
  { intros lag H0 H1. change 10 with (1 * 10) at 2.
    apply (mul_mono 10 _ _ _ _ ten_spec); [lia|exact H0|exact H1]. }
  split; [exact util_low|]. split; [exact util_high|]. split; [|split].
  - intros lag. destruct (lag <=? 1) eqn:H1.
    + rewrite util_low by exact H1. destruct (0 <=? lag) eqn:H0.
      * apply float_order.leb_not_ltb.
        apply float_order.leb_trans with 10; [apply Hlow; assumption|reflexivity].
      * apply mul_10_negative; assumption.
    + unfold calculateEventLoopUtilization. rewrite H1. apply Min_100_le.
  - intros l1 l2 H0 H12.
    assert (N1 : is_nan l1 = false) by (apply float_order.leb_lex in H12; tauto).
    assert (N2 : is_nan l2 = false) by (apply float_order.leb_lex in H12; tauto).
    destruct (l2 <=? 1) eqn:H2.
    + assert (H1 : (l1 <=? 1) = true) by (apply float_order.leb_trans with l2; assumption).
      rewrite !util_low by assumption.
      apply (mul_mono 10 _ _ _ _ ten_spec); [lia|exact H0|exact H12].
    + assert (L2 : (1 <? l2) = true).
      { destruct (1 <? l2) eqn:E; [reflexivity|].
        rewrite (float_order.leb_total l2 1 N2 eq_refl E) in H2. discriminate H2. }
      pose proof (ramp_ge_10 l2 (float_order.ltb_leb _ _ L2)) as G2.
      rewrite (util_high_cases l2 L2).
      destruct (l1 <=? 1) eqn:H1.
      * rewrite util_low by exact H1.
        apply float_order.leb_trans with 10; [apply Hlow; assumption|].
        destruct (100 <? ramp l2); [reflexivity|exact G2].
      * assert (L1 : (1 <? l1) = true).
        { destruct (1 <? l1) eqn:E; [reflexivity|].
          rewrite (float_order.leb_total l1 1 N1 eq_refl E) in H1. discriminate H1. }
        rewrite (util_high_cases l1 L1).
        pose proof (ramp_mono l1 l2 (float_order.ltb_leb _ _ L1) H12) as Hr.
        assert (Nr1 : is_nan (ramp l1) = false) by (apply float_order.leb_lex in Hr; tauto).
        destruct (100 <? ramp l1) eqn:E1, (100 <? ramp l2) eqn:E2.
        -- reflexivity.
        -- rewrite (float_order.ltb_leb_trans _ _ _ E1 Hr) in E2. discriminate E2.
        -- apply float_order.leb_total; [exact Nr1|reflexivity|exact E1].
        -- exact Hr.
  - intros lag H19.
    assert (L : (1 <? lag) = true).
    { apply float_order.ltb_leb_trans with 19; [reflexivity|exact H19]. }
    rewrite (util_high_cases lag L).
    assert (Hr : (100 <=? ramp lag) = true).
    { change 100 with (ramp 19) at 1. apply ramp_mono; [reflexivity|exact H19]. }
    destruct (100 <? ramp lag) eqn:E; [reflexivity|].
    apply leb_antisym_100; [exact Hr|].
    apply float_order.leb_total; [|reflexivity|exact E].
    apply float_order.leb_lex in Hr. tauto.
Qed.

(** C7 at the lags 0.5 and 30: 5 percent and the ceiling. *)
Lemma utilization_monotone_saturating_witness :
  (calculateEventLoopUtilization 0.5 <=? calculateEventLoopUtilization 30) = true.
Proof.
  apply (proj1 (proj2 (proj2 (proj2 utilization_monotone_saturating)))); reflexivity.
Defined.

End Utilization.
(** ** One tick, case by case *)

Section Tick.
Import types config host monitor tick.

(** The three ways a tick ends: the process is not found or does not
    answer, and nothing is collected; or a snapshot is built,
    evaluated and rendered. *)
Lemma collectAndProcess_cases (w : World) (m : Monitor) (c : time.Clock) :
  let r := collectAndProcess w m c in
  (exists err,
     PID (config m) = 0%Z
     /\ metrics.FindProcessByPort w (Port (config m)) = Err err
     /\ r = (m, Some (fmt.Errorf "failed to find process: %w" [fmt.W err]), c))
  \/ exists m1, settled w m m1 /\
     ((exists err c1,
         metrics.CollectCPU w (PID (config m1)) c = (Err err, c1)
         /\ r = (m1, Some (fmt.Errorf "failed to collect CPU metrics: %w" [fmt.W err]), c1))
      \/ (exists cpu c1 err c2,
            metrics.CollectCPU w (PID (config m1)) c = (Ok cpu, c1)
            /\ metrics.CollectMemory w (config m1) (PID (config m1)) c1 = (Err err, c2)
            /\ r = (m1, Some (fmt.Errorf "failed to collect memory metrics: %w" [fmt.W err]), c2))
      \/ (exists cpu c1 mem c2 col el c3 s ca c',
            metrics.CollectCPU w (PID (config m1)) c = (Ok cpu, c1)
            /\ metrics.CollectMemory w (config m1) (PID (config m1)) c1 = (Ok mem, c2)
            /\ metrics.CollectEventLoop w (config m1) (metrics m1)
                 (PID (config m1)) (InspectPort (config m1)) c2 = (col, Ok el, c3)
            /\ Status.PID s = PID (config m1)
            /\ Status.CPU s = cpu /\ Status.Memory s = mem /\ Status.EventLoop s = el
            /\ ThreadPoolMetrics.ActiveCount (Status.ThreadPool s) = 2%Z
            /\ GCMetrics.Duration (Status.GC s) = 2.5%float
            /\ HandleMetrics.Active (Status.Handles s) = 15%Z
            /\ size (V8Metrics.HeapSpaceUsed (Status.V8 s)) = 5
            /\ Status.Alerts s
               = fst (alerts.CheckThresholds (alerts m1) (with_Alerts s []) (config m1) ca)
            /\ r = (set_display (set_metrics m1 col)
                      {| display.lastUpdate := time.reading c' (pred (time.taken c'));
                         display.rendered := Some s |}, None, c'))).
Proof.
  intros r. assert (E : r = collectAndProcess w m c) by reflexivity. clearbody r.
  unfold collectAndProcess in E.
  match type of E with
  | context [match ?x with Ok _ => _ | Err _ => _ end] => set (resolved := x) in E
  end.
  assert (Hres : (exists err, PID (config m) = 0%Z
                    /\ metrics.FindProcessByPort w (Port (config m)) = Err err
                    /\ resolved = Err (fmt.Errorf "failed to find process: %w" [fmt.W err]))
                 \/ exists m1, settled w m m1 /\ resolved = Ok m1).
  { subst resolved. unfold settled. destruct (Z.eqb_spec (PID (config m)) 0) as [E0|E0].
    - destruct (metrics.FindProcessByPort w (Port (config m))) as [pid|err] eqn:F.
      + right. eexists. split; [|reflexivity]. cbn. repeat split. right. eauto.
      + left. eauto.
    - right. exists m. repeat split. left. auto. }
  clearbody resolved.
  destruct Hres as [(err & E0 & F & ->)|(m1 & S1 & ->)].
  { left. exists err. repeat split; [exact E0 | exact F | exact E]. }
  right. exists m1. split; [exact S1|].
  unfold time.bind at 1 in E.
  destruct (metrics.CollectCPU w (PID (config m1)) c) as [[cpu|err] c1] eqn:ECPU.
  2: { left. exists err, c1. split; [reflexivity | exact E]. }
  right. unfold time.bind at 1 in E.
  destruct (metrics.CollectMemory w (config m1) (PID (config m1)) c1) as [[mem|err] c2] eqn:EMEM.
  2: { left. exists cpu, c1, err, c2. repeat split; [exact EMEM | exact E]. }
  right. unfold time.bind at 1 in E.
  pose proof (CollectEventLoop_step (config m1) (PID (config m1))
                (InspectPort (config m1)) w (metrics m1) c2) as [_ (el & Hel & _)].
  destruct (metrics.CollectEventLoop w (config m1) (metrics m1) (PID (config m1))
              (InspectPort (config m1)) c2) as [[col r0] c3] eqn:EEL.
  cbn [fst snd] in Hel. subst r0.
  exists cpu, c1, mem, c2, col, el, c3.
  cbn -[alerts.CheckThresholds] in E.
  unfold time.bind, time.ret, time.Now in E. cbn -[alerts.CheckThresholds] in E.
  match type of E with
  | context [alerts.CheckThresholds ?a ?s0 ?cf ?ck] =>
      destruct (alerts.CheckThresholds a s0 cf ck) as [alertList c10] eqn:EA;
      cbn -[alerts.CheckThresholds] in E;
      match type of E with
      | _ = (_, None, ?c') =>
          match type of E with
          | context [display.Build_Dashboard _ (Some ?s)] => exists s, ck, c'
          end
      end
  end.
  repeat match goal with |- _ /\ _ => split end;
    try reflexivity; try assumption.
  - cbn -[alerts.CheckThresholds]. unfold with_Alerts. cbn -[alerts.CheckThresholds].
    rewrite EA. reflexivity.
Qed.

End Tick.
(** ** Finding the process behind a port *)

Section Lookup.
Import host metrics lookup.

Lemma owns_dec (port : Z) (p : Process) :
  match Connections p with
  | Ok connections => existsb (fun laddr => (laddr =? port)%Z) connections = true
  | Err _ => False
  end <-> owns port p.
Proof.
  unfold owns. destruct (Connections p) as [conns|err].
  - rewrite existsb_exists. split.
    + intros (x & Hx & E). apply Z.eqb_eq in E. subst x. eauto.
    + intros (conns' & [= <-] & Hin). exists port. split; [exact Hin | apply Z.eqb_refl].
  - split; [tauto | intros (? & [=] & _)].
Qed.

Lemma find_owner_Some (port pid : Z) (processes : list Process) :
  find_owner port processes = Some pid
  <-> exists before p after,
        processes = before ++ p :: after /\ Pid p = pid /\ owns port p
        /\ Forall (fun q => ~ owns port q) before.
Proof.
  induction processes as [|q rest IH]; cbn.
  - split; [discriminate | intros ([|] & ? & ? & [=] & _)].
  - pose proof (owns_dec port q) as Hq.
    destruct (Connections q) as [conns|err] eqn:Eq;
      [destruct (existsb _ conns) eqn:Ex|].
    + split.
      * intros [= <-]. exists [], q, rest. repeat split; [tauto | constructor].
      * intros ([|q' before] & p & after & [= -> ->] & Hp & Ho & Hb).
        -- congruence.
        -- inversion Hb; subst. tauto.
    + rewrite IH. split.
      * intros (before & p & after & -> & Hp & Ho & Hb).
        exists (q :: before), p, after. repeat split; auto.
        constructor; [|exact Hb]. rewrite <- Hq. discriminate.
      * intros ([|q' before] & p & after & [= -> ->] & Hp & Ho & Hb).
        -- apply Hq in Ho. discriminate.
        -- inversion Hb; subst. eauto 10.
    + rewrite IH. split.
      * intros (before & p & after & -> & Hp & Ho & Hb).
        exists (q :: before), p, after. repeat split; auto.
        constructor; [tauto | exact Hb].
      * intros ([|q' before] & p & after & [= -> ->] & Hp & Ho & Hb).
        -- tauto.
        -- inversion Hb; subst. eauto 10.
Qed.

Lemma find_owner_None (port : Z) (processes : list Process) :
  find_owner port processes = None <-> Forall (fun q => ~ owns port q) processes.
Proof.
  induction processes as [|q rest IH]; cbn.
  - split; [constructor | reflexivity].
  - pose proof (owns_dec port q) as Hq.
    destruct (Connections q) as [conns|err] eqn:Eq;
      [destruct (existsb _ conns) eqn:Ex|].
    + split; [discriminate | intros H; inversion H; subst; tauto].
    + rewrite IH. split.
      * intros H. constructor; [rewrite <- Hq; discriminate | exact H].
      * intros H. inversion H; auto.
    + rewrite IH. split.
      * intros H. constructor; [tauto | exact H].
      * intros H. inversion H; auto.
Qed.

(** X1.  [FindProcessByPort] answers with a PID exactly when the port
    accepts a connection and the process list can be read; the PID is
    that of the first process in the list that has the port among its
    connections.  Processes whose connections cannot be listed are
    passed over. *)
Theorem FindProcessByPort_first_owner (w : World) (port pid : Z) :
  FindProcessByPort w port = Ok pid
  <-> Dial w port = None
      /\ exists before p after,
           Processes w = Ok (before ++ p :: after)
           /\ Pid p = pid /\ owns port p
           /\ Forall (fun q => ~ owns port q) before.
Proof.
  unfold FindProcessByPort.
  destruct (Dial w port) as [err|]; [split; [discriminate | intros [[=] _]]|].
  destruct (Processes w) as [processes|err].
  2: { split; [discriminate | intros (_ & ? & ? & ? & [=] & _)]. }
  pose proof (find_owner_Some port pid processes) as HS.
  destruct (find_owner port processes) as [pid'|].
  - split.
    + intros [= ->]. split; [reflexivity|].
      destruct (proj1 HS eq_refl) as (b & p & a & -> & H). eauto 10.
    + intros (_ & b & p & a & [= ->] & H).
      assert (E : Some pid' = Some pid) by (apply HS; eauto 10). congruence.
  - split; [discriminate|].
    intros (_ & b & p & a & [= ->] & H).
    assert (E : None = Some pid) by (apply HS; eauto 10). discriminate.
Qed.

(** X2.  The three errors of [FindProcessByPort]: the port refuses the
    connection; the process list cannot be read; or no process in the
    list has the port among the connections it lists.  No other
    error arises, and the first cause in this order is the one
    reported. *)
Theorem FindProcessByPort_errors (w : World) (port : Z) (e : fmt.error) :
  FindProcessByPort w port = Err e
  <-> (exists err, Dial w port = Some err
         /\ e = fmt.Errorf "no process listening on port %d: %w" [fmt.D port; fmt.W err])
      \/ (Dial w port = None
          /\ exists err, Processes w = Err err
               /\ e = fmt.Errorf "failed to get processes: %w" [fmt.W err])
      \/ (Dial w port = None
          /\ exists processes, Processes w = Ok processes
               /\ Forall (fun q => ~ owns port q) processes
               /\ e = fmt.Errorf "could not find process for port %d" [fmt.D port]).
Proof.
  unfold FindProcessByPort.
  destruct (Dial w port) as [err|].
  { split.
    - intros [= <-]. left. eauto.
    - intros [(err' & [= <-] & ->)|[[[=] _]|[[=] _]]]. reflexivity. }
  destruct (Processes w) as [processes|err].
  2: { split.
       - intros [= <-]. right. left. eauto.
       - intros [(? & [=] & _)|[(_ & err' & [= <-] & ->)|(_ & ? & [=] & _)]].
         reflexivity. }
  pose proof (find_owner_None port processes) as HN.
  destruct (find_owner port processes) as [pid|].
  - split; [discriminate|].
    intros [(? & [=] & _)|[(_ & ? & [=] & _)|(_ & l & [= <-] & HF & _)]].
    apply HN in HF. discriminate.
  - split.
    + intros [= <-]. right. right. split; [reflexivity|].
      exists processes. repeat split. apply HN. reflexivity.
    + intros [(? & [=] & _)|[(_ & ? & [=] & _)|(_ & l & _ & _ & ->)]]. reflexivity.
Qed.

End Lookup.
(** ** Collecting the process and inspector metrics *)

Section Collect.
Import types config host metrics.

(** The figures of a memory record that the inspector path fills. *)
Local Abbreviation heap mem :=
  (MemoryMetrics.HeapTotal mem, MemoryMetrics.HeapUsed mem, MemoryMetrics.External mem).

(** A memory record carries one of three heap triples. *)
Lemma CollectMemory_Ok_heap (w : World) (cfg : ServiceConfig) (pid : Z)
    (c c' : time.Clock) (mem : MemoryMetrics.t) :
  CollectMemory w cfg pid c = (Ok mem, c') ->
  heap mem = (0, 0, 0)%Z
  \/ heap mem = (50 * 1024 * 1024, 30 * 1024 * 1024, 5 * 1024 * 1024)%Z
  \/ heap mem = (60 * 1024 * 1024, 45 * 1024 * 1024, 8 * 1024 * 1024)%Z.
Proof.
  unfold CollectMemory, getNodeMemoryInfo, getHeapUsageFromInspector.
  destruct (NewProcess w (int32 pid)) as [proc|err]; [|discriminate].
  destruct (MemoryInfo proc) as [[rss vms]|err]; [|discriminate].
  unfold time.bind, time.ret.
  destruct (Get w (InspectPort cfg) "/json"); cbn.
  - intros [= <- _]. auto.
  - destruct (Get w (InspectPort cfg) "/json/runtime/evaluate"); cbn;
      intros [= <- _]; auto.
Qed.

(** What the two process collections need of the host. *)
Lemma CollectCPU_Ok (w : World) (pid : Z) (c : time.Clock) :
  (exists cpu, fst (CollectCPU w pid c) = Ok cpu)
  <-> exists proc cpuPercent times,
        NewProcess w (int32 pid) = Ok proc
        /\ CPUPercent proc = Ok cpuPercent /\ Times proc = Ok times.
Proof.
  unfold CollectCPU.
  destruct (NewProcess w (int32 pid)) as [proc|err].
  2: { split; [intros (? & [=]) | intros (? & ? & ? & [=] & _)]. }
  destruct (CPUPercent proc) as [cpu|err] eqn:EC.
  2: { split; [intros (? & [=]) | intros (? & ? & ? & [= <-] & E & _); congruence]. }
  destruct (Times proc) as [times|err] eqn:ET.
  2: { split; [intros (? & [=]) | intros (? & ? & ? & [= <-] & _ & E); congruence]. }
  split; [intros _; exists proc, cpu, times; auto | intros _; eexists; reflexivity].
Qed.

Lemma CollectMemory_Ok (w : World) (cfg : ServiceConfig) (pid : Z) (c : time.Clock) :
  (exists mem, fst (CollectMemory w cfg pid c) = Ok mem)
  <-> exists proc info, NewProcess w (int32 pid) = Ok proc /\ MemoryInfo proc = Ok info.
Proof.
  unfold CollectMemory, getNodeMemoryInfo, getHeapUsageFromInspector.
  destruct (NewProcess w (int32 pid)) as [proc|err].
  2: { split; [intros (? & [=]) | intros (? & ? & [=] & _)]. }
  destruct (MemoryInfo proc) as [info|err] eqn:EM.
  2: { split; [intros (? & [=]) | intros (? & ? & [= <-] & E); congruence]. }
  split; [intros _; exists proc, info; auto|]. intros _.
  unfold time.bind, time.ret.
  destruct (Get w (InspectPort cfg) "/json"); cbn; [eexists; reflexivity|].
  destruct (Get w (InspectPort cfg) "/json/runtime/evaluate"); cbn; eexists; reflexivity.
Qed.

(** Which query made a process collection fail. *)
Lemma CollectCPU_Err (w : World) (pid : Z) (c c' : time.Clock) (e : fmt.error) :
  CollectCPU w pid c = (Err e, c') ->
  (exists err, NewProcess w (int32 pid) = Err err)
  \/ exists proc, NewProcess w (int32 pid) = Ok proc
       /\ ((exists err, CPUPercent proc = Err err) \/ (exists err, Times proc = Err err)).
Proof.
  unfold CollectCPU.
  destruct (NewProcess w (int32 pid)) as [proc|err]; [|eauto].
  intros H. right. exists proc. split; [reflexivity|].
  destruct (CPUPercent proc) as [cpu|err]; [|eauto].
  destruct (Times proc) as [times|err]; [|eauto].
  discriminate H.
Qed.

Lemma CollectMemory_Err (w : World) (cfg : ServiceConfig) (pid : Z)
    (c c' : time.Clock) (e : fmt.error) :
  CollectMemory w cfg pid c = (Err e, c') ->
  (exists err, NewProcess w (int32 pid) = Err err)
  \/ exists proc, NewProcess w (int32 pid) = Ok proc
       /\ exists err, MemoryInfo proc = Err err.
Proof.
  unfold CollectMemory, getNodeMemoryInfo, getHeapUsageFromInspector.
  destruct (NewProcess w (int32 pid)) as [proc|err]; [|eauto].
  intros H. right. exists proc. split; [reflexivity|].
  destruct (MemoryInfo proc) as [info|err]; [|eauto].
  exfalso. revert H. unfold time.bind, time.ret.
  destruct (Get w (InspectPort cfg) "/json"); cbn; [discriminate|].
  destruct (Get w (InspectPort cfg) "/json/runtime/evaluate"); cbn; discriminate.
Qed.

(** A measured lag is the simulation from the CPU usage. *)
Lemma measureEventLoopLag_Ok (w : World) (cfg : ServiceConfig)
    (inspectPort : Z) (lag : float) :
  measureEventLoopLag w cfg inspectPort = Ok lag ->
  exists proc cpuPercent,
    NewProcess w (int32 (PID cfg)) = Ok proc
    /\ CPUPercent proc = Ok cpuPercent
    /\ lag = (0.5 + cpuPercent / 100 * 50)%float.
Proof.
  unfold measureEventLoopLag, executeScript.
  destruct (getInspectorWebSocketURL w inspectPort) as [wsURL|e]; [|discriminate].
  destruct (NewProcess w (int32 (PID cfg))) as [proc|e]; [|discriminate].
  destruct (CPUPercent proc) as [cpu|e] eqn:EC; [|discriminate].
  intros [= <-]. exists proc, cpu. auto.
Qed.

(** X3.  [CollectMemory] fails only when the process or its memory
    information cannot be read, never because of the inspector.  When
    it succeeds, the resident and virtual sizes are those of the
    process; heap total, heap used and external memory are one of
    three fixed triples, chosen by which of the two inspector requests
    are answered: zeros when the discovery request is refused, 50, 30
    and 5 MiB when only that one is answered, 60, 45 and 8 MiB when
    both are. *)
Theorem CollectMemory_heap_figures (w : World) (cfg : ServiceConfig) (pid : Z)
    (c : time.Clock) :
  match fst (CollectMemory w cfg pid c) with
  | Err e =>
      (exists err, NewProcess w (int32 pid) = Err err
         /\ e = fmt.Errorf "failed to get process %d: %w" [fmt.D pid; fmt.W err])
      \/ (exists proc err, NewProcess w (int32 pid) = Ok proc
            /\ MemoryInfo proc = Err err
            /\ e = fmt.Errorf "failed to get memory info: %w" [fmt.W err])
  | Ok mem =>
      exists proc, NewProcess w (int32 pid) = Ok proc
        /\ MemoryInfo proc = Ok (MemoryMetrics.RSS mem, MemoryMetrics.VMS mem)
        /\ heap mem
           = match Get w (InspectPort cfg) "/json" with
             | Refused _ => (0, 0, 0)
             | Response _ =>
                 match Get w (InspectPort cfg) "/json/runtime/evaluate" with
                 | Refused _ => (50 * 1024 * 1024, 30 * 1024 * 1024, 5 * 1024 * 1024)
                 | Response _ => (60 * 1024 * 1024, 45 * 1024 * 1024, 8 * 1024 * 1024)
                 end
             end%Z
  end.
Proof.
  unfold CollectMemory, getNodeMemoryInfo, getHeapUsageFromInspector.
  destruct (NewProcess w (int32 pid)) as [proc|err] eqn:EP; cbn.
  2: { left. eauto. }
  destruct (MemoryInfo proc) as [[rss vms]|err] eqn:EM; cbn.
  2: { right. eauto. }
  unfold time.bind, time.ret.
  destruct (Get w (InspectPort cfg) "/json"); cbn.
  - exists proc. auto.
  - destruct (Get w (InspectPort cfg) "/json/runtime/evaluate"); cbn;
      exists proc; auto.
Qed.

(** X4.  The PID is narrowed to 32 bits before the process is looked up:
    two PIDs that agree modulo 2^32 collect the same process, and
    when that process exists the CPU and memory records are the
    same. *)
Theorem Collect_pid_narrowed (w : World) (cfg : ServiceConfig) (pid pid' : Z)
    (c : time.Clock) :
  (pid mod 2 ^ 32 = pid' mod 2 ^ 32)%Z ->
  (exists proc, NewProcess w (int32 pid) = Ok proc) ->
  CollectCPU w pid c = CollectCPU w pid' c
  /\ CollectMemory w cfg pid c = CollectMemory w cfg pid' c.
Proof.
  intros Hmod (proc & HP).
  assert (E : int32 pid' = int32 pid).
  { unfold int32.
    rewrite <- (Zplus_mod_idemp_l pid), <- (Zplus_mod_idemp_l pid'), Hmod.
    reflexivity. }
  unfold CollectCPU, CollectMemory. rewrite E, HP. split; reflexivity.
Qed.

(** X4 at PIDs 4242 and 4242 + 2^32 on the sample host. *)
Lemma Collect_pid_narrowed_witness :
  (4242 mod 2 ^ 32 = 4294971538 mod 2 ^ 32)%Z
  /\ CollectCPU sample.world 4242 sample.clock
     = CollectCPU sample.world 4294971538 sample.clock
  /\ CollectMemory sample.world (sample.cfg 70) 4242 sample.clock
     = CollectMemory sample.world (sample.cfg 70) 4294971538 sample.clock.
Proof.
  split; [reflexivity|].
  apply (Collect_pid_narrowed sample.world (sample.cfg 70) 4242 4294971538 sample.clock).
  - reflexivity.
  - exists sample.node. reflexivity.
Defined.

(** X5.  The lag measurement succeeds exactly when the inspector's
    discovery document decodes and its first session carries a
    WebSocket URL, and the configured process reports its CPU usage.
    The lag is then [0.5 + cpu / 100 * 50]: neither the URL nor the
    sessions after the first one nor the timing script enter it. *)
Theorem measureEventLoopLag_simulated (w : World) (cfg : ServiceConfig)
    (inspectPort : Z) (lag : float) :
  measureEventLoopLag w cfg inspectPort = Ok lag
  <-> exists wsURL rest proc cpuPercent,
        Get w inspectPort "/json" = Response (Ok (Some wsURL :: rest))
        /\ NewProcess w (int32 (PID cfg)) = Ok proc
        /\ CPUPercent proc = Ok cpuPercent
        /\ lag = (0.5 + cpuPercent / 100 * 50)%float.
Proof.
  unfold measureEventLoopLag, getInspectorWebSocketURL, executeScript.
  destruct (Get w inspectPort "/json") as [e|[[|[wsURL|] rest]|e]];
    try (split; [discriminate | intros (? & ? & ? & ? & [=] & _)]).
  destruct (NewProcess w (int32 (PID cfg))) as [proc|e]; cbn.
  2: { split; [discriminate | intros (? & ? & ? & ? & _ & [=] & _)]. }
  destruct (CPUPercent proc) as [cpu|e] eqn:EC; cbn.
  2: { split; [discriminate | intros (? & ? & ? & ? & _ & [= <-] & E & _); congruence]. }
  split.
  - intros [= <-]. exists wsURL, rest, proc, cpu. auto.
  - intros (? & ? & ? & ? & _ & [= <-] & E & ->). congruence.
Qed.

End Collect.
(** ** The simulated lag *)

Section SimulatedLag.
Import types config host metrics order float_rounding.
Local Open Scope float_scope.

Lemma shr_1_nonneg (mrs : shr_record) : (0 <= shr_m mrs -> 0 <= shr_m (shr_1 mrs))%Z.
Proof.
  destruct mrs as [[|[p|p|]|p] r s]; cbn; lia.
Qed.

Lemma shr_fexp_nonneg (M E : Z) (l : location) :
  (0 <= M)%Z -> (0 <= shr_m (fst (shr_fexp prec emax M E l)))%Z.
Proof.
  intros HM. unfold shr_fexp, shr.
  assert (H0 : (0 <= shr_m (shr_record_of_loc M l))%Z)
    by (destruct l as [|[]]; exact HM).
  destruct (fexp prec emax (Zdigits2 M + E) - E)%Z as [|p|p]; cbn [fst]; try exact H0.
  apply (iter_pos_invariant (fun _ mrs => (0 <= shr_m mrs)%Z) shr_1
           (fun _ x _ => shr_1_nonneg x) p 0); [lia | exact H0].
Qed.

(** Rounding a magnitude with the positive sign gives no negative. *)
Lemma binary_round_aux_nonneg (M E : Z) (l : location) :
  (0 <= M)%Z ->
  SFleb (S754_zero false) (binary_round_aux prec emax false M E l) = true.
Proof.
  intros HM. unfold binary_round_aux.
  pose proof (shr_fexp_nonneg M E l HM) as H1.
  destruct (shr_fexp prec emax M E l) as [mrs' e']. cbn [fst] in H1.
  assert (H2 : (0 <= round_nearest_even (shr_m mrs') (loc_of_shr_record mrs'))%Z).
  { unfold round_nearest_even. destruct (loc_of_shr_record mrs') as [|[]];
      try destruct (Z.even _); lia. }
  pose proof (shr_fexp_nonneg _ e' loc_Exact H2) as H3.
  destruct (shr_fexp prec emax _ e' loc_Exact) as [mrs'' e'']. cbn [fst] in H3.
  destruct (shr_m mrs'') as [|q|q]; [reflexivity| |lia].
  destruct (e'' <=? emax - prec)%Z; reflexivity.
Qed.

Lemma hundred_spec : Prim2SF 100 = S754_finite false 7036874417766400 (-46).
Proof. vm_compute. reflexivity. Qed.

Lemma fifty_spec : Prim2SF 50 = S754_finite false 7036874417766400 (-47).
Proof. vm_compute. reflexivity. Qed.

Lemma half_spec : Prim2SF 0.5 = S754_finite false 4503599627370496 (-53).
Proof. vm_compute. reflexivity. Qed.

(** A hundredth of a number that is not negative is not negative. *)
Lemma div_100_nonneg (x : float) : (0 <=? x) = true -> (0 <=? x / 100) = true.
Proof.
  rewrite !leb_spec, div_spec, hundred_spec.
  change (Prim2SF 0) with (S754_zero false).
  destruct (Prim2SF x) as [[]|[]| |[] m e]; try discriminate; try reflexivity.
  intros _. unfold SF64div, SFdiv. cbn [xorb].
  destruct (SFdiv_core_binary prec emax (Z.pos m) e 7036874417766400 (-46))
    as [[mz ez] lz] eqn:E.
  apply binary_round_aux_nonneg.
  unfold SFdiv_core_binary in E.
  match type of E with
  | (let '(q, r) := Z.div_eucl ?a ?b in _) = _ =>
      pose proof (Z_div_mod a b eq_refl) as Hd;
      assert (Ha : (0 <= a)%Z);
      [|destruct (Z.div_eucl a b) as [q r]; injection E as <- _ _; nia]
  end.
  destruct (_ - _ - _)%Z as [|s|s]; try lia.
  rewrite Z.shiftl_mul_pow2 by lia. apply Z.mul_nonneg_nonneg; [lia|].
  apply Z.pow_nonneg. lia.
Qed.

Lemma simulated_lag_floor (cpuPercent : float) :
  (0 <=? cpuPercent) = true -> (0.5 <=? 0.5 + cpuPercent / 100 * 50) = true.
Proof.
  intros H. apply div_100_nonneg in H.
  assert (H50 : (0 <=? cpuPercent / 100 * 50) = true).
  { change 0 with (0 * 50) at 1.
    apply (mul_mono 50 _ _ _ _ fifty_spec); [lia | reflexivity | exact H]. }
  change 0.5 with (0.5 + 0) at 1.
  apply (add_mono 0.5 _ _ _ _ half_spec); [reflexivity | exact H50].
Qed.

(** X6.  While the CPU usage that the process reports is not negative, a
    lag sample is either a measurement, and then at least 0.5 ms, or
    exactly 0, and then the measurement has failed: a lag of 0 in the
    window always marks a failed measurement. *)
Theorem lagSample_measured_or_zero (w : World) (cfg : ServiceConfig)
    (inspectPort : Z) :
  (forall proc cpuPercent,
     NewProcess w (int32 (PID cfg)) = Ok proc ->
     CPUPercent proc = Ok cpuPercent -> (0 <=? cpuPercent) = true) ->
  (measureEventLoopLag w cfg inspectPort = Ok (lagSample w cfg inspectPort)
   /\ (0.5 <=? lagSample w cfg inspectPort) = true)
  \/ ((exists err, measureEventLoopLag w cfg inspectPort = Err err)
      /\ lagSample w cfg inspectPort = 0).
Proof.
  intros Hcpu. unfold lagSample.
  destruct (measureEventLoopLag w cfg inspectPort) as [lag|err] eqn:E.
  - left. split; [reflexivity|].
    apply measureEventLoopLag_Ok in E as (proc & cpu & HP & HC & ->).
    apply simulated_lag_floor. eapply Hcpu; eassumption.
  - right. eauto.
Qed.

(** X6 on the sample host with a live inspector and a CPU usage of 12.5. *)
Lemma lagSample_measured_or_zero_witness :
  (measureEventLoopLag (sample.inspected 12.5) (sample.cfg 70) 9229
   = Ok (lagSample (sample.inspected 12.5) (sample.cfg 70) 9229)
   /\ (0.5 <=? lagSample (sample.inspected 12.5) (sample.cfg 70) 9229) = true)
  \/ ((exists err, measureEventLoopLag (sample.inspected 12.5) (sample.cfg 70) 9229
                   = Err err)
      /\ lagSample (sample.inspected 12.5) (sample.cfg 70) 9229 = 0).
Proof.
  apply (lagSample_measured_or_zero (sample.inspected 12.5) (sample.cfg 70) 9229).
  intros proc cpu [= <-] [= <-]. reflexivity.
Defined.

End SimulatedLag.
(** ** Extremes and percentile of the window *)

Section Extremes.
Import types config host metrics order.

Lemma is_nan_spec (x : float) : is_nan x = true <-> Prim2SF x = S754_nan.
Proof.
  unfold is_nan. rewrite eqb_spec. unfold SFeqb.
  destruct (Prim2SF x) as [[]|[]| |[] m e]; cbn;
    rewrite ?Z.compare_refl, ?Pos.compare_cont_refl; cbn; split; congruence.
Qed.

(** The accumulation loop over samples that are numbers: the running
    maximum and minimum bound every sample seen and are one of them,
    or the value they started from. *)
Lemma accumulate_extremes (l : list float) (sum mx mn : float) :
  numbers l -> is_nan mx = false -> is_nan mn = false ->
  let '(_, mx', mn') := foldl accumulate (sum, mx, mn) l in
  is_nan mx' = false /\ is_nan mn' = false
  /\ fle mx mx' /\ fle mn' mn
  /\ Forall (fun x => fle x mx') l /\ Forall (fun x => fle mn' x) l
  /\ (mx' = mx \/ In mx' l) /\ (mn' = mn \/ In mn' l).
Proof.
  revert sum mx mn. induction l as [|x l IH]; intros sum mx mn Hn Hmx Hmn.
  - cbn. unfold fle. rewrite !float_order.leb_refl by assumption.
    repeat split; auto.
  - inversion Hn as [|? ? Hx Hl]; subst. cbn [foldl accumulate].
    set (mx1 := if (x >? mx)%float then x else mx).
    set (mn1 := if (x <? mn)%float then x else mn).
    assert (Hmx1 : is_nan mx1 = false) by (subst mx1; destruct (x >? mx)%float; assumption).
    assert (Hmn1 : is_nan mn1 = false) by (subst mn1; destruct (x <? mn)%float; assumption).
    assert (Bmx : fle mx mx1 /\ fle x mx1 /\ (mx1 = mx \/ mx1 = x)).
    { subst mx1. unfold fle, float64.gtb. destruct (mx <? x)%float eqn:C.
      - repeat split; auto using float_order.ltb_leb, float_order.leb_refl.
      - repeat split; auto using float_order.leb_total, float_order.leb_refl. }
    assert (Bmn : fle mn1 mn /\ fle mn1 x /\ (mn1 = mn \/ mn1 = x)).
    { subst mn1. unfold fle. destruct (x <? mn)%float eqn:C.
      - repeat split; auto using float_order.ltb_leb, float_order.leb_refl.
      - repeat split; auto using float_order.leb_total, float_order.leb_refl. }
    clearbody mx1 mn1.
    specialize (IH (sum + x)%float mx1 mn1 Hl Hmx1 Hmn1).
    destruct (foldl accumulate ((sum + x)%float, mx1, mn1) l) as [[s' mx'] mn'].
    destruct IH as (N1 & N2 & L1 & L2 & F1 & F2 & I1 & I2).
    destruct Bmx as (B1 & B2 & B3), Bmn as (B4 & B5 & B6).
    unfold fle in *.
    repeat split; try assumption.
    + eapply float_order.leb_trans; eassumption.
    + eapply float_order.leb_trans; eassumption.
    + constructor; [eapply float_order.leb_trans; eassumption | exact F1].
    + constructor; [eapply float_order.leb_trans; eassumption | exact F2].
    + destruct I1 as [->|I1]; [destruct B3 as [->| ->]|]; cbn; auto.
    + destruct I2 as [->|I2]; [destruct B6 as [->| ->]|]; cbn; auto.
Qed.

(** The extremes and the percentile of a window, as components of
    the result (mean, max, min, p95). *)
Lemma stats_extremes (c : Collector) :
  eventLoopHist c <> [] -> numbers (eventLoopHist c) ->
  let s := calculateEventLoopStats c in
  In (snd (fst (fst s))) (eventLoopHist c) /\ In (snd (fst s)) (eventLoopHist c)
  /\ Forall (fun x => fle (snd (fst s)) x /\ fle x (snd (fst (fst s)))) (eventLoopHist c).
Proof.
  intros Hne Hn. cbv zeta. unfold calculateEventLoopStats.
  destruct (eventLoopHist c) as [|first rest] eqn:Eh; [congruence|].
  inversion Hn as [|? ? Hf Hr]; subst.
  pose proof (accumulate_extremes (first :: rest) 0 first first Hn Hf Hf) as H.
  destruct (foldl accumulate (0%float, first, first) (first :: rest))
    as [[sum max] min].
  destruct H as (_ & _ & _ & _ & F1 & F2 & I1 & I2). cbn [fst snd].
  split; [destruct I1 as [->|]; [left; reflexivity | assumption]|].
  split; [destruct I2 as [->|]; [left; reflexivity | assumption]|].
  rewrite Forall_forall in *. intros x Hx. split; auto.
Qed.

Lemma stats_p95_In (c : Collector) :
  eventLoopHist c <> [] -> length (eventLoopHist c) <= 100 ->
  numbers (eventLoopHist c) ->
  In (snd (calculateEventLoopStats c)) (eventLoopHist c).
Proof.
  intros Hne Hlen Hn. unfold calculateEventLoopStats.
  destruct (eventLoopHist c) as [|first rest] eqn:Eh; [congruence|].
  destruct (foldl accumulate (0%float, first, first) (first :: rest))
    as [[sum max] min].
  cbn [snd].
  destruct (bubble_sort_sorted (first :: rest) Hn) as [_ Hperm].
  apply (Permutation_in _ Hperm). apply nth_In.
  rewrite (Permutation_length Hperm).
  rewrite p95Index_nearest_rank by (cbn [length] in *; lia).
  rewrite Nat2Z.id. apply Nat.Div0.div_lt_upper_bound. cbn [length]. lia.
Qed.

(** X7.  On a window that is not empty and holds no NaN, the reported
    maximum and minimum are samples of the window, and every sample
    lies between them. *)
Theorem calculateEventLoopStats_extremes (c : Collector) :
  eventLoopHist c <> [] -> numbers (eventLoopHist c) ->
  let '(_, max, min, _) := calculateEventLoopStats c in
  In max (eventLoopHist c) /\ In min (eventLoopHist c)
  /\ Forall (fun x => fle min x /\ fle x max) (eventLoopHist c).
Proof.
  intros Hne Hn. pose proof (stats_extremes c Hne Hn) as H. cbv zeta in H.
  destruct (calculateEventLoopStats c) as [[[mean max] min] p95].
  exact H.
Qed.

(** X7 at the window 3, 1, 2. *)
Lemma calculateEventLoopStats_extremes_witness :
  let '(_, max, min, _) :=
    calculateEventLoopStats {| eventLoopHist := [3; 1; 2]%float |} in
  In max [3; 1; 2]%float /\ In min [3; 1; 2]%float
  /\ Forall (fun x => fle min x /\ fle x max) [3; 1; 2]%float.
Proof.
  apply (calculateEventLoopStats_extremes {| eventLoopHist := [3; 1; 2]%float |}).
  - discriminate.
  - repeat constructor.
Defined.

(** X8.  On a window of 1 to 100 samples, none of them NaN, the reported
    95th percentile is a sample of the window and lies between the
    reported minimum and maximum. *)
Theorem calculateEventLoopStats_p95_between (c : Collector) :
  eventLoopHist c <> [] -> length (eventLoopHist c) <= 100 ->
  numbers (eventLoopHist c) ->
  let '(_, max, min, p95) := calculateEventLoopStats c in
  In p95 (eventLoopHist c) /\ fle min p95 /\ fle p95 max.
Proof.
  intros Hne Hlen Hn.
  pose proof (stats_extremes c Hne Hn) as HE. cbv zeta in HE.
  pose proof (stats_p95_In c Hne Hlen Hn) as Hp.
  destruct (calculateEventLoopStats c) as [[[mean max] min] p95].
  cbn [fst snd] in *. destruct HE as (_ & _ & HF).
  rewrite Forall_forall in HF. split; [exact Hp|]. apply HF, Hp.
Qed.

(** X8 at the window 3, 1, 2. *)
Lemma calculateEventLoopStats_p95_between_witness :
  let '(_, max, min, p95) :=
    calculateEventLoopStats {| eventLoopHist := [3; 1; 2]%float |} in
  In p95 [3; 1; 2]%float /\ fle min p95 /\ fle p95 max.
Proof.
  apply (calculateEventLoopStats_p95_between {| eventLoopHist := [3; 1; 2]%float |}).
  - discriminate.
  - cbn. lia.
  - repeat constructor.
Defined.

(** A pass over a list in ascending order swaps nothing. *)
Lemma bubble_sorted_id (k : nat) (l : list float) :
  StronglySorted fle l -> bubble k l = l.
Proof.
  revert l. induction k as [|k IH]; intros l Hs; [destruct l; reflexivity|].
  destruct l as [|a [|b t]]; try reflexivity.
  cbn [bubble]. inversion Hs as [|? ? Hs' Ha]; subst.
  inversion Ha as [|? ? Hab _]; subst.
  unfold float64.gtb. rewrite (float_order.leb_not_ltb _ _ Hab).
  f_equal. apply IH. exact Hs'.
Qed.

Lemma foldl_bubble_pass_Permutation (passes : list nat) (l : list float) :
  Permutation (foldl bubble_pass l passes) l.
Proof.
  revert l. induction passes as [|i passes IH]; intros l; [reflexivity|].
  cbn [foldl]. rewrite IH, bubble_pass_bubble. apply bubble_Permutation.
Qed.

Lemma foldl_bubble_pass_sorted_id (passes : list nat) (l : list float) :
  StronglySorted fle l -> foldl bubble_pass l passes = l.
Proof.
  intros Hs. induction passes as [|i passes IH]; [reflexivity|].
  cbn [foldl]. rewrite bubble_pass_bubble, bubble_sorted_id by exact Hs. exact IH.
Qed.

(** X9.  The sorting loop of the statistics returns a permutation of its
    input, whatever the input; on an input without NaN the result is
    in ascending order; and an input that is already ascending comes
    back unchanged. *)
Theorem bubble_sort_ascending (l : list float) :
  Permutation (bubble_sort l) l
  /\ (numbers l -> StronglySorted fle (bubble_sort l))
  /\ (StronglySorted fle l -> bubble_sort l = l).
Proof.
  split; [apply foldl_bubble_pass_Permutation|]. split.
  - intros Hn. apply bubble_sort_sorted, Hn.
  - apply foldl_bubble_pass_sorted_id.
Qed.

(** The accumulation loop when a NaN is about: the sum stays NaN once
    it is, a maximum or minimum that is NaN is never replaced, and one
    that is a number is never replaced by a NaN. *)
Lemma accumulate_nan (l : list float) (sum mx mn : float) :
  let '(sum', mx', mn') := foldl accumulate (sum, mx, mn) l in
  (is_nan sum = true \/ Exists (fun x => is_nan x = true) l -> is_nan sum' = true)
  /\ (is_nan mx = true -> mx' = mx) /\ (is_nan mn = true -> mn' = mn)
  /\ (is_nan mx = false -> is_nan mx' = false)
  /\ (is_nan mn = false -> is_nan mn' = false).
Proof.
  revert sum mx mn. induction l as [|x l IH]; intros sum mx mn.
  - cbn. repeat split; auto. intros [H|H]; [exact H | inversion H].
  - cbn [foldl accumulate].
    set (mx1 := if (x >? mx)%float then x else mx).
    set (mn1 := if (x <? mn)%float then x else mn).
    specialize (IH (sum + x)%float mx1 mn1).
    destruct (foldl accumulate ((sum + x)%float, mx1, mn1) l) as [[s' mx'] mn'].
    destruct IH as (IS & IX1 & IN1 & IX2 & IN2).
    assert (Hx : is_nan mx = true -> mx1 = mx).
    { intros N. subst mx1. unfold float64.gtb.
      assert ((mx <? x)%float = false) as ->; [|reflexivity].
      apply not_true_iff_false. rewrite float_order.ltb_lex. intros (N' & _). congruence. }
    assert (Hn : is_nan mn = true -> mn1 = mn).
    { intros N. subst mn1.
      assert ((x <? mn)%float = false) as ->; [|reflexivity].
      apply not_true_iff_false. rewrite float_order.ltb_lex.
      intros (_ & N' & _). congruence. }
    assert (Hx' : is_nan mx = false -> is_nan mx1 = false).
    { intros N. subst mx1. unfold float64.gtb. destruct (mx <? x)%float eqn:C; [|exact N].
      apply float_order.ltb_lex in C. tauto. }
    assert (Hn' : is_nan mn = false -> is_nan mn1 = false).
    { intros N. subst mn1. destruct (x <? mn)%float eqn:C; [|exact N].
      apply float_order.ltb_lex in C. tauto. }
    repeat split.
    + intros H. apply IS.
      assert (Hs : is_nan sum = true \/ is_nan x = true -> is_nan (sum + x) = true).
      { rewrite !is_nan_spec, add_spec. intros [E|E]; rewrite E; [reflexivity|].
        destruct (Prim2SF sum) as [[]|[]| |[] ? ?]; reflexivity. }
      destruct H as [H|H]; [left; auto|].
      inversion H; subst; [left; auto | right; assumption].
    + intros N. rewrite IX1; rewrite Hx; auto.
    + intros N. rewrite IN1; rewrite Hn; auto.
    + auto.
    + auto.
Qed.

(** X10.  A NaN among the samples makes the mean NaN for as long as it
    stays in the window.  Maximum and minimum start from the first
    sample: when that is NaN both are NaN whatever follows, and
    otherwise neither is, NaN samples being passed over. *)
Theorem calculateEventLoopStats_nan (c : Collector) (first : float) (rest : list float) :
  eventLoopHist c = first :: rest ->
  Exists (fun x => is_nan x = true) (first :: rest) ->
  let '(mean, max, min, _) := calculateEventLoopStats c in
  is_nan mean = true
  /\ (is_nan first = true -> is_nan max = true /\ is_nan min = true)
  /\ (is_nan first = false -> is_nan max = false /\ is_nan min = false).
Proof.
  intros Eh HN. unfold calculateEventLoopStats. rewrite Eh.
  pose proof (accumulate_nan (first :: rest) 0 first first) as H.
  destruct (foldl accumulate (0%float, first, first) (first :: rest))
    as [[sum max] min].
  destruct H as (HS & HX1 & HN1 & HX2 & HN2).
  split; [|split].
  - assert (E : is_nan sum = true) by auto.
    apply is_nan_spec in E. apply is_nan_spec. rewrite div_spec, E. reflexivity.
  - intros N. rewrite HX1, HN1 by exact N. auto.
  - intros N. auto.
Qed.

(** X10 at the window 1, NaN, 3. *)
Lemma calculateEventLoopStats_nan_witness :
  let '(mean, max, min, _) :=
    calculateEventLoopStats {| eventLoopHist := [1; nan; 3]%float |} in
  is_nan mean = true
  /\ (is_nan 1 = true -> is_nan max = true /\ is_nan min = true)
  /\ (is_nan 1 = false -> is_nan max = false /\ is_nan min = false).
Proof.
  apply (calculateEventLoopStats_nan {| eventLoopHist := [1; nan; 3]%float |}
           1%float [nan; 3]%float).
  - reflexivity.
  - right. left. reflexivity.
Defined.

End Extremes.
(** ** The event-loop record of a collection step *)

Section Snapshot.
Import types config host metrics order.

Lemma numbers_app (l l' : list float) : numbers l -> numbers l' -> numbers (l ++ l').
Proof. unfold numbers. rewrite Forall_app. auto. Qed.

Lemma numbers_drop (n : nat) (l : list float) : numbers l -> numbers (drop n l).
Proof. unfold numbers. apply Forall_drop. Qed.

Lemma numbers_forallb (l : list float) :
  forallb (fun x => negb (is_nan x)) l = true -> numbers l.
Proof.
  rewrite forallb_forall. intros H. apply Forall_forall. intros x Hx.
  apply negb_true_iff, H, Hx.
Qed.

(** The window after a step ends with the sample of the step. *)
Lemma window_last (h : list float) (s : float) :
  List.last (if (100 <? length (h ++ [s]))%nat then drop 1 (h ++ [s]) else h ++ [s])
    0%float = s.
Proof.
  destruct (100 <? length (h ++ [s]))%nat eqn:E; [|apply List.last_last].
  destruct h as [|a h]; [discriminate E|].
  cbn [app drop]. apply List.last_last.
Qed.

(** X11.  A collection step never returns an error, whatever the
    window and the host: the record it returns has the sample of the
    step as its lag, which is also the newest entry of the window, and
    the utilization derived from that lag.  From a window of at most 100 samples
    without NaN, and with a sample that is not NaN, the record is
    coherent as well: lag and 95th percentile lie between the minimum
    and the maximum, and the window still holds no NaN. *)
Theorem CollectEventLoop_coherent (w : World) (cfg : ServiceConfig) (c : Collector)
    (pid inspectPort : Z) (clk : time.Clock) :
  let r := fst (CollectEventLoop w cfg c pid inspectPort clk) in
  exists e,
    snd r = Ok e
    /\ EventLoopMetrics.Lag e = lagSample w cfg inspectPort
    /\ List.last (eventLoopHist (fst r)) 0%float = EventLoopMetrics.Lag e
    /\ EventLoopMetrics.Utilization e
       = calculateEventLoopUtilization (EventLoopMetrics.Lag e)
    /\ (length (eventLoopHist c) <= 100 -> numbers (eventLoopHist c) ->
        is_nan (lagSample w cfg inspectPort) = false ->
        fle (EventLoopMetrics.Min e) (EventLoopMetrics.Lag e)
        /\ fle (EventLoopMetrics.Lag e) (EventLoopMetrics.Max e)
        /\ fle (EventLoopMetrics.Min e) (EventLoopMetrics.P95 e)
        /\ fle (EventLoopMetrics.P95 e) (EventLoopMetrics.Max e)
        /\ numbers (eventLoopHist (fst r))).
Proof.
  intros r.
  destruct (CollectEventLoop_step cfg pid inspectPort w c clk) as (Hh & e & He & Hlag & Hst).
  fold r in Hh, He, Hst.
  set (s := lagSample w cfg inspectPort) in *.
  assert (Hlast : List.last (eventLoopHist (fst r)) 0%float = s)
    by (rewrite Hh; apply window_last).
  exists e. rewrite Hlag.
  split; [exact He|]. split; [reflexivity|]. split; [exact Hlast|]. split.
  { subst r. unfold CollectEventLoop in He |- *.
    fold (lagSample w cfg inspectPort) in He |- *. fold s in He |- *.
    destruct (calculateEventLoopStats _) as [[[mean max] min] p95] in He |- *.
    unfold time.bind, time.ret, time.Now in He. cbn in He.
    injection He as <-. reflexivity. }
  intros Hlen Hn Hs.
  rewrite drop_last_100 in Hh by exact Hlen.
  assert (Hn' : numbers (eventLoopHist (fst r))).
  { rewrite Hh. apply numbers_drop, numbers_app; [exact Hn | repeat constructor; exact Hs]. }
  assert (Hin : In s (eventLoopHist (fst r))).
  { rewrite Hh.
    assert (Hk : length (eventLoopHist c ++ [s]) - 100 <= length (eventLoopHist c))
      by (rewrite length_app; cbn; lia).
    rewrite drop_app_le by exact Hk. apply in_or_app. right. left. reflexivity. }
  assert (Hne : eventLoopHist (fst r) <> []) by (intros E; rewrite E in Hin; exact Hin).
  assert (Hl : length (eventLoopHist (fst r)) <= 100).
  { rewrite Hh, length_drop. lia. }
  pose proof (stats_extremes (fst r) Hne Hn') as HE. cbv zeta in HE.
  pose proof (stats_p95_In (fst r) Hne Hl Hn') as HP.
  unfold stats in Hst. rewrite <- Hst in HE, HP. cbn [fst snd] in HE, HP.
  destruct HE as (_ & _ & HF).
  rewrite Forall_forall in HF. destruct (HF s Hin) as [L1 L2].
  destruct (HF _ HP) as [P1 P2].
  repeat split; assumption.
Qed.

(** X11 at a window at capacity, the samples 1, 2, ..., 100, on the
    sample host with a live inspector and a CPU usage of 12.5: the
    sample is 6.75, the oldest entry 1 is dropped, and the record has
    minimum 2, lag 6.75, 95th percentile 96 and maximum 100. *)
Lemma CollectEventLoop_coherent_witness :
  let c := {| eventLoopHist := map (fun n => float64.of_Z (Z.of_nat n)) (seq 1 100) |} in
  let r := fst (CollectEventLoop (sample.inspected 12.5) (sample.cfg 70) c
                  4242 9229 sample.clock) in
  exists e,
    snd r = Ok e
    /\ (EventLoopMetrics.Min e, EventLoopMetrics.Lag e,
        EventLoopMetrics.P95 e, EventLoopMetrics.Max e) = (2, 6.75, 96, 100)%float
    /\ List.last (eventLoopHist (fst r)) 0%float = 6.75%float
    /\ length (eventLoopHist (fst r)) = 100
    /\ fle (EventLoopMetrics.Min e) (EventLoopMetrics.Lag e)
    /\ fle (EventLoopMetrics.Lag e) (EventLoopMetrics.Max e)
    /\ fle (EventLoopMetrics.Min e) (EventLoopMetrics.P95 e)
    /\ fle (EventLoopMetrics.P95 e) (EventLoopMetrics.Max e)
    /\ numbers (eventLoopHist (fst r)).
Proof.
  intros c r.
  destruct (CollectEventLoop_coherent (sample.inspected 12.5) (sample.cfg 70) c
              4242 9229 sample.clock) as (e & He & Hlag & Hlast & _ & Hb).
  fold r in He, Hlast, Hb.
  assert (Hl : length (eventLoopHist c) <= 100) by (vm_compute; lia).
  assert (Hn : numbers (eventLoopHist c)) by (apply numbers_forallb; vm_compute; reflexivity).
  assert (Hs : is_nan (lagSample (sample.inspected 12.5) (sample.cfg 70) 9229) = false)
    by (vm_compute; reflexivity).
  specialize (Hb Hl Hn Hs).
  exists e. split; [exact He|].
  assert (Hv : (EventLoopMetrics.Min e, EventLoopMetrics.Lag e,
                EventLoopMetrics.P95 e, EventLoopMetrics.Max e) = (2, 6.75, 96, 100)%float).
  { vm_compute in He. injection He as <-. vm_compute. reflexivity. }
  split; [exact Hv|].
  split; [rewrite Hlast, Hlag; vm_compute; reflexivity|].
  split; [vm_compute; reflexivity | exact Hb].
Defined.

End Snapshot.
(** ** Utilization alerts and lag alerts *)

Section UtilizationAlerts.
Import types config metrics thresholds order rounding float_rounding.
Local Open Scope float_scope.

Local Abbreviation util := calculateEventLoopUtilization.

Lemma not_above_neg_infinity (b : float) : (neg_infinity >? b) = false.
Proof.
  unfold float64.gtb. apply not_true_iff_false. rewrite float_order.ltb_lex.
  intros (_ & _ & H). change (key (Prim2SF neg_infinity)) with (-2, 0, 0)%Z in H.
  destruct (Prim2SF b) as [[]|[]| |[] m e]; cbn in H; lia.
Qed.

Lemma not_above_nan (b : float) : (nan >? b) = false.
Proof.
  unfold float64.gtb. apply not_true_iff_false. rewrite float_order.ltb_lex.
  intros (_ & N & _). discriminate N.
Qed.

Lemma ramp_nan (lag : float) : is_nan lag = true -> is_nan (ramp lag) = true.
Proof.
  rewrite !is_nan_spec. intros E. unfold ramp.
  rewrite add_spec, mul_spec, sub_spec, E. reflexivity.
Qed.

(** The utilization of a lag that is no number is above nothing. *)
Lemma util_nan (lag b : float) : is_nan lag = true -> (util lag >? b) = false.
Proof.
  intros N. unfold calculateEventLoopUtilization.
  assert ((lag <=? 1) = false) as ->.
  { apply not_true_iff_false. rewrite float_order.leb_lex. intros (N' & _). congruence. }
  fold (ramp lag). rewrite Min_100, (ramp_nan lag N).
  destruct (is_infinity (ramp lag) && get_sign (ramp lag));
    [apply not_above_neg_infinity | apply not_above_nan].
Qed.

Lemma mul_10_negative_below (lag b : float) (m : positive) (e : Z) :
  Prim2SF b = S754_finite false m e ->
  (lag <=? 1) = true -> (0 <=? lag) = false -> (lag * 10 >? b) = false.
Proof.
  intros Eb H1 H0. unfold float64.gtb. apply not_true_iff_false. intros H.
  rewrite ltb_spec, mul_spec, ten_spec, Eb in H. rewrite leb_spec in H0, H1.
  change (Prim2SF 0) with (S754_zero false) in H0.
  destruct (Prim2SF lag) as [[]|[]| |[] m' e']; try discriminate.
  unfold SF64mul in H. cbn [SFmul xorb] in H.
  rewrite binary_round_aux_not_above in H. discriminate H.
Qed.

(** Below a lag [B] on the ramp the utilization is not above the
    utilization [U] at [B]. *)
Lemma util_not_above (B U : float) (m : positive) (e : Z) :
  Prim2SF U = S754_finite false m e ->
  (1 <=? B) = true -> ramp B = U -> (10 <=? U) = true -> (U <? 100) = true ->
  forall lag, (lag >? B) = false -> (util lag >? U) = false.
Proof.
  intros EU HB HR H10 H100 lag Hlag.
  destruct (is_nan lag) eqn:N; [apply util_nan; exact N|].
  assert (NB : is_nan B = false) by (apply float_order.leb_lex in HB; tauto).
  assert (HlB : (lag <=? B) = true) by (apply float_order.leb_total; assumption).
  destruct (lag <=? 1) eqn:H1.
  - rewrite util_low by exact H1. destruct (0 <=? lag) eqn:H0.
    + apply float_order.leb_not_ltb.
      apply float_order.leb_trans with 10; [|exact H10].
      change 10 with (1 * 10) at 2.
      apply (mul_mono 10 _ _ _ _ ten_spec); [lia | exact H0 | exact H1].
    + apply (mul_10_negative_below lag U m e); assumption.
  - assert (H1' : (1 <? lag) = true).
    { destruct (1 <? lag) eqn:C; [reflexivity|].
      rewrite float_order.leb_total in H1; [discriminate| | |exact C]; [exact N|reflexivity]. }
    rewrite util_high_cases by exact H1'.
    assert (HRl : (ramp lag <=? U) = true).
    { rewrite <- HR. apply ramp_mono; [apply float_order.ltb_leb, H1' | exact HlB]. }
    assert ((100 <? ramp lag) = false) as ->.
    { apply float_order.leb_not_ltb.
      apply float_order.leb_trans with U; [exact HRl | apply float_order.ltb_leb, H100]. }
    apply float_order.leb_not_ltb, HRl.
Qed.

Lemma util_above_70 (lag : float) : (util lag >? 70) = true -> (lag >? 13) = true.
Proof.
  intros H. destruct (lag >? 13) eqn:C; [reflexivity|].
  rewrite (util_not_above 13 70 4925812092436480 (-46)) in H;
    try reflexivity; [discriminate | exact C].
Qed.

Lemma util_above_90 (lag : float) : (util lag >? 90) = true -> (lag >? 17) = true.
Proof.
  intros H. destruct (lag >? 17) eqn:C; [reflexivity|].
  rewrite (util_not_above 17 90 6333186975989760 (-46)) in H;
    try reflexivity; [discriminate | exact C].
Qed.

Lemma util_saturated (lag : float) : (19 <=? lag) = true -> util lag = 100.
Proof.
  intros H.
  assert (H1 : (1 <? lag) = true)
    by (apply float_order.ltb_leb_trans with 19; [reflexivity | exact H]).
  rewrite util_high_cases by exact H1.
  destruct (100 <? ramp lag) eqn:C; [reflexivity|].
  apply leb_antisym_100.
  - change 100 with (ramp 19) at 1. apply ramp_mono; [reflexivity | exact H].
  - apply float_order.leb_total; [| reflexivity | exact C].
    assert (Hr : (10 <=? ramp lag) = true) by (apply ramp_ge_10, float_order.ltb_leb, H1).
    apply float_order.leb_lex in Hr. tauto.
Qed.

(** X12.  In a snapshot whose utilization is the one derived from its lag,
    as in every snapshot that a collection step builds, a utilization
    alert never comes alone: the lag is then above 13 ms (above 17 ms
    when the utilization alert is critical), so a lag alert is raised
    too; and a critical lag alert always comes with a critical
    utilization alert. *)
Theorem utilization_alert_with_lag_alert (m : alerts.Manager) (status : Status.t)
    (cfg : ServiceConfig) (c : time.Clock) :
  EventLoopMetrics.Utilization (Status.EventLoop status)
  = calculateEventLoopUtilization (EventLoopMetrics.Lag (Status.EventLoop status)) ->
  let alerts := fst (alerts.CheckThresholds m status cfg c) in
  (forall b, raised alerts Utilization b ->
     (EventLoopMetrics.Lag (Status.EventLoop status) >? 13) = true
     /\ exists b', raised alerts Lag b')
  /\ (raised alerts Utilization critical ->
      (EventLoopMetrics.Lag (Status.EventLoop status) >? 17) = true)
  /\ (raised alerts Lag critical -> raised alerts Utilization critical).
Proof.
  intros HU alerts. subst alerts.
  set (lag := EventLoopMetrics.Lag (Status.EventLoop status)) in *.
  assert (H13 : forall x, (x >? 13) = true -> (x >? 5) = true).
  { intros x. unfold float64.gtb. intros H.
    apply float_order.ltb_trans with 13; [reflexivity | exact H]. }
  split; [|split].
  - intros b Hb. apply raised_iff in Hb. destruct Hb as [Hw _].
    cbn [exceeds] in Hw. rewrite HU in Hw. apply util_above_70 in Hw.
    split; [exact Hw|].
    exists (if exceeds status cfg Lag critical then critical else warning).
    apply raised_iff. split; [cbn [exceeds]; apply H13, Hw|].
    destruct (exceeds status cfg Lag critical); reflexivity.
  - intros Hb. apply raised_iff in Hb. destruct Hb as [_ Hc].
    cbn [exceeds] in Hc. rewrite HU in Hc. apply util_above_90, Hc.
  - intros Hb. apply raised_iff in Hb. destruct Hb as [_ Hc].
    cbn [exceeds] in Hc. fold lag in Hc.
    assert (E : util lag = 100).
    { apply util_saturated. apply float_order.ltb_leb.
      apply float_order.ltb_trans with 20; [reflexivity | exact Hc]. }
    apply raised_iff. cbn [exceeds]. rewrite HU. fold lag. rewrite E.
    split; reflexivity.
Qed.

(** X12 at a snapshot with a lag of 30 ms and the utilization 100 derived from it. *)
Lemma utilization_alert_with_lag_alert_witness :
  let status := sample.status 0 0 0 0 30 100 0 0 in
  let alerts :=
    fst (alerts.CheckThresholds alerts.NewManager status (sample.cfg 70) sample.clock) in
  (forall b, raised alerts Utilization b ->
     (EventLoopMetrics.Lag (Status.EventLoop status) >? 13) = true
     /\ exists b', raised alerts Lag b')
  /\ (raised alerts Utilization critical ->
      (EventLoopMetrics.Lag (Status.EventLoop status) >? 17) = true)
  /\ (raised alerts Lag critical -> raised alerts Utilization critical).
Proof.
  apply (utilization_alert_with_lag_alert alerts.NewManager
           (sample.status 0 0 0 0 30 100 0 0) (sample.cfg 70) sample.clock).
  vm_compute. reflexivity.
Defined.

End UtilizationAlerts.
(** ** What a tick does to the monitor *)

Section TickProperties.
Import types config host monitor tick thresholds.

Lemma settled_unique (w : World) (m m1 m2 : Monitor) :
  settled w m m1 -> settled w m m2 -> m1 = m2.
Proof.
  unfold settled.
  intros (A1 & B1 & C1 & D1 & H1) (A2 & B2 & C2 & D2 & H2).
  assert (E : config m1 = config m2).
  { destruct H1 as [[N1 ->]|(Z1 & p1 & F1 & ->)], H2 as [[N2 ->]|(Z2 & p2 & F2 & ->)];
      try congruence. }
  destruct m1, m2. cbn in *. congruence.
Qed.

Lemma settled_settings (w : World) (m m1 : Monitor) :
  settled w m m1 ->
  settings (config m1) = settings (config m)
  /\ (PID (config m) <> 0%Z -> config m1 = config m).
Proof.
  intros (_ & _ & _ & _ & [[N ->]|(Z & p & F & ->)]); split; auto; tauto.
Qed.

(** The monitor after a tick, in each of the cases. *)
Lemma collectAndProcess_after (w : World) (m : Monitor) (c : time.Clock) :
  let m' := fst (fst (collectAndProcess w m c)) in
  settings (config m') = settings (config m)
  /\ (PID (config m) <> 0%Z -> config m' = config m)
  /\ running m' = running m /\ alerts m' = alerts m.
Proof.
  pose proof (collectAndProcess_cases w m c) as H. cbv zeta in H |- *.
  destruct H as [(err & _ & _ & ->)|(m1 & S1 & H)]; [cbn; auto|].
  destruct (settled_settings w m m1 S1) as [HS HP].
  destruct S1 as (_ & _ & SA & SR & _).
  destruct H as [(err & c1 & _ & ->)|[(cpu & c1 & err & c2 & _ & _ & ->)|H]];
    [cbn; auto .. |].
  destruct H as (cpu & c1 & mem & c2 & col & el & c3 & s & ca & c' & H).
  destruct H as (_ & _ & _ & _ & _ & _ & _ & _ & _ & _ & _ & _ & ->).
  cbn. auto.
Qed.

(** X13.  No tick writes a setting other than the PID, and the PID is
    written only while it is 0: host, port, inspector port, polling
    interval, heap limit and CPU threshold stay as configured, a PID
    that was given stays, and so do the running flag and the alert
    manager. *)
Theorem collectAndProcess_settings (w : World) (m : Monitor) (c : time.Clock) :
  let m' := fst (fst (collectAndProcess w m c)) in
  (Host (config m'), Port (config m'), InspectPort (config m'),
   PollingInterval (config m'), HeapLimit (config m'), CPUThreshold (config m'))
  = (Host (config m), Port (config m), InspectPort (config m),
     PollingInterval (config m), HeapLimit (config m), CPUThreshold (config m))
  /\ (PID (config m) <> 0%Z -> config m' = config m)
  /\ running m' = running m /\ alerts m' = alerts m.
Proof.
  intros m'. pose proof (collectAndProcess_after w m c) as H.
  cbv zeta in H. fold m' in H. unfold settings in H. exact H.
Qed.

(** X14.  A tick that reports an error has collected nothing: the window of
    lag samples and the dashboard are as before (nothing was
    rendered), and the only write that may have happened is the PID
    found for the port.  The error is one of three: the process behind
    the port was not found, or the CPU or the memory collection
    failed. *)
Theorem collectAndProcess_failure (w : World) (m : Monitor) (c : time.Clock)
    (e : fmt.error) :
  snd (fst (collectAndProcess w m c)) = Some e ->
  let m' := fst (fst (collectAndProcess w m c)) in
  metrics m' = metrics m /\ display m' = display m
  /\ (m' = m \/ exists pid, PID (config m) = 0%Z
                  /\ metrics.FindProcessByPort w (Port (config m)) = Ok pid
                  /\ config m' = set_PID (config m) pid)
  /\ exists err,
       e = fmt.Errorf "failed to find process: %w" [fmt.W err]
       \/ e = fmt.Errorf "failed to collect CPU metrics: %w" [fmt.W err]
       \/ e = fmt.Errorf "failed to collect memory metrics: %w" [fmt.W err].
Proof.
  pose proof (collectAndProcess_cases w m c) as H. cbv zeta in H |- *.
  destruct H as [(err & _ & _ & ->)|(m1 & S1 & H)].
  { cbn. intros [= <-]. repeat split; eauto. }
  assert (HS : metrics m1 = metrics m /\ display m1 = display m
               /\ (m1 = m \/ exists pid, PID (config m) = 0%Z
                     /\ metrics.FindProcessByPort w (Port (config m)) = Ok pid
                     /\ config m1 = set_PID (config m) pid)).
  { destruct S1 as (A & B & C & D & [[N E]|(Z & pid & F & E)]).
    - repeat split; auto. left. destruct m1, m. cbn in *. congruence.
    - repeat split; auto. right. eauto. }
  destruct HS as (A & B & C).
  destruct H as [(err & c1 & _ & ->)|[(cpu & c1 & err & c2 & _ & _ & ->)|H]].
  - cbn. intros [= <-]. repeat split; eauto.
  - cbn. intros [= <-]. repeat split; eauto.
  - destruct H as (cpu & c1 & mem & c2 & col & el & c3 & s & ca & c' & H).
    destruct H as (_ & _ & _ & _ & _ & _ & _ & _ & _ & _ & _ & _ & ->).
    cbn. discriminate.
Qed.

(** X14 at a monitor configured with PID 1, which the sample host does not have. *)
Lemma collectAndProcess_failure_witness :
  let m := New (set_PID (sample.cfg 70) 1) in
  let m' := fst (fst (collectAndProcess sample.world m sample.clock)) in
  metrics m' = metrics m /\ display m' = display m
  /\ (m' = m \/ exists pid, PID (config m) = 0%Z
                  /\ metrics.FindProcessByPort sample.world (Port (config m)) = Ok pid
                  /\ config m' = set_PID (config m) pid)
  /\ exists err,
       fmt.Errorf "failed to collect CPU metrics: %w"
         [fmt.W (fmt.Errorf "failed to get process %d: %w"
                   [fmt.D 1; fmt.W (fmt.Lib "process does not exist")])]
       = fmt.Errorf "failed to find process: %w" [fmt.W err]
       \/ fmt.Errorf "failed to collect CPU metrics: %w"
            [fmt.W (fmt.Errorf "failed to get process %d: %w"
                      [fmt.D 1; fmt.W (fmt.Lib "process does not exist")])]
          = fmt.Errorf "failed to collect CPU metrics: %w" [fmt.W err]
       \/ fmt.Errorf "failed to collect CPU metrics: %w"
            [fmt.W (fmt.Errorf "failed to get process %d: %w"
                      [fmt.D 1; fmt.W (fmt.Lib "process does not exist")])]
          = fmt.Errorf "failed to collect memory metrics: %w" [fmt.W err].
Proof.
  apply (collectAndProcess_failure sample.world (New (set_PID (sample.cfg 70) 1))
           sample.clock). reflexivity.
Defined.

(** X15.  What a tick returns is decided by the process alone.  A
    tick that returns nil had its PID set or found for the port, and
    that process answered the four process queries: existence, CPU
    usage, CPU times and memory information.  A tick that returns an
    error did not find the process for the port, or one of those four
    queries failed.  No answer of the inspector, be it a refusal, a
    body that does not decode, an empty session list or a session
    without URL, makes a tick return an error. *)
Theorem collectAndProcess_result_by_process (w : World) (m : Monitor)
    (c : time.Clock) :
  let r := collectAndProcess w m c in
  (snd (fst r) = None ->
   exists m1 proc cpuPercent times info,
     settled w m m1
     /\ NewProcess w (int32 (PID (config m1))) = Ok proc
     /\ CPUPercent proc = Ok cpuPercent /\ Times proc = Ok times
     /\ MemoryInfo proc = Ok info)
  /\ (forall e, snd (fst r) = Some e ->
      (PID (config m) = 0%Z
       /\ exists err, metrics.FindProcessByPort w (Port (config m)) = Err err)
      \/ exists m1,
           settled w m m1
           /\ ((exists err, NewProcess w (int32 (PID (config m1))) = Err err)
               \/ exists proc,
                    NewProcess w (int32 (PID (config m1))) = Ok proc
                    /\ ((exists err, CPUPercent proc = Err err)
                        \/ (exists err, Times proc = Err err)
                        \/ (exists err, MemoryInfo proc = Err err)))).
Proof.
  intros r. subst r.
  pose proof (collectAndProcess_cases w m c) as H. cbv zeta in H.
  split.
  - intros HN.
    destruct H as [(err & _ & _ & E)|(m1 & S1 & H)]; [rewrite E in HN; discriminate|].
    destruct H as [(err & c1 & _ & E)|[(cpu & c1 & err & c2 & _ & _ & E)|H]];
      try (rewrite E in HN; discriminate).
    destruct H as (cpu & c1 & mem & c2 & col & el & c3 & s & ca & c' & H).
    destruct H as (ECPU & EMEM & _).
    destruct (proj1 (CollectCPU_Ok w (PID (config m1)) c)) as (proc & cp & times & P & Q & R).
    { exists cpu. rewrite ECPU. reflexivity. }
    destruct (proj1 (CollectMemory_Ok w (config m1) (PID (config m1)) c1))
      as (proc' & info & P' & Q').
    { exists mem. rewrite EMEM. reflexivity. }
    assert (proc' = proc) as -> by congruence.
    exists m1, proc, cp, times, info. auto.
  - intros e HE.
    destruct H as [(err & Z & F & E)|(m1 & S1 & H)]; [left; eauto|].
    right. exists m1. split; [exact S1|].
    destruct H as [(err & c1 & ECPU & E)|[(cpu & c1 & err & c2 & ECPU & EMEM & E)|H]].
    + apply CollectCPU_Err in ECPU.
      destruct ECPU as [N|(proc & P & [Q|Q])]; [left; exact N | right .. ];
        exists proc; auto.
    + apply CollectMemory_Err in EMEM.
      destruct EMEM as [N|(proc & P & Q)]; [left; exact N | right].
      exists proc. auto.
    + destruct H as (cpu & c1 & mem & c2 & col & el & c3 & s & ca & c' & H).
      destruct H as (_ & _ & _ & _ & _ & _ & _ & _ & _ & _ & _ & _ & E).
      rewrite E in HE. discriminate.
Qed.

(** X15 at two ticks on the sample host: one of the monitor of process
    4242 with a live inspector, which returns nil, and one of a monitor
    configured with PID 1, which the host does not have. *)
Lemma collectAndProcess_result_by_process_witness :
  (exists m1 proc cpuPercent times info,
     settled (sample.inspected 95) (New (sample.cfg 70)) m1
     /\ NewProcess (sample.inspected 95) (int32 (PID (config m1))) = Ok proc
     /\ CPUPercent proc = Ok cpuPercent /\ Times proc = Ok times
     /\ MemoryInfo proc = Ok info)
  /\ ((PID (config (New (set_PID (sample.cfg 70) 1))) = 0%Z
       /\ exists err,
            metrics.FindProcessByPort sample.world
              (Port (config (New (set_PID (sample.cfg 70) 1)))) = Err err)
      \/ exists m1,
           settled sample.world (New (set_PID (sample.cfg 70) 1)) m1
           /\ ((exists err, NewProcess sample.world (int32 (PID (config m1))) = Err err)
               \/ exists proc,
                    NewProcess sample.world (int32 (PID (config m1))) = Ok proc
                    /\ ((exists err, CPUPercent proc = Err err)
                        \/ (exists err, Times proc = Err err)
                        \/ (exists err, MemoryInfo proc = Err err)))).
Proof.
  split.
  - apply (proj1 (collectAndProcess_result_by_process (sample.inspected 95)
                    (New (sample.cfg 70)) sample.clock)).
    vm_compute. reflexivity.
  - eapply (proj2 (collectAndProcess_result_by_process sample.world
                     (New (set_PID (sample.cfg 70) 1)) sample.clock)).
    reflexivity.
Defined.

(** The snapshot that a successful tick renders. *)
Lemma collectAndProcess_rendered (w : World) (m : Monitor) (c : time.Clock) :
  snd (fst (collectAndProcess w m c)) = None ->
  let m' := fst (fst (collectAndProcess w m c)) in
  exists s mem c1 c2 ca,
    display.rendered (display m') = Some s
    /\ Status.PID s = PID (config m')
    /\ Status.Memory s = mem
    /\ metrics.CollectMemory w (config m') (PID (config m')) c1 = (Ok mem, c2)
    /\ fst (fst (metrics.CollectEventLoop w (config m') (metrics m)
                   (PID (config m')) (InspectPort (config m')) c2)) = metrics m'
    /\ snd (fst (metrics.CollectEventLoop w (config m') (metrics m)
                   (PID (config m')) (InspectPort (config m')) c2))
       = Ok (Status.EventLoop s)
    /\ GCMetrics.Duration (Status.GC s) = 2.5%float
    /\ HandleMetrics.Active (Status.Handles s) = 15%Z
    /\ Status.Alerts s
       = fst (alerts.CheckThresholds (alerts m') (with_Alerts s []) (config m') ca).
Proof.
  pose proof (collectAndProcess_cases w m c) as H. cbv zeta in H |- *.
  intros HN.
  destruct H as [(err & _ & _ & E)|(m1 & S1 & H)]; [rewrite E in HN; discriminate|].
  destruct H as [(err & c1 & _ & E)|[(cpu & c1 & err & c2 & _ & _ & E)|H]];
    try (rewrite E in HN; discriminate).
  destruct H as (cpu & c1 & mem & c2 & col & el & c3 & s & ca & c' & H).
  destruct H as (ECPU & EMEM & EEL & HP & HC & HM & HE & _ & HG & HH & _ & HA & ->).
  destruct S1 as (SM & _).
  exists s, mem, c1, c2, ca. cbn. rewrite <- SM, EEL. cbn.
  repeat split; auto. congruence.
Qed.

Lemma verdict_with_Alerts (s : Status.t) (l : list Alert.t) (cfg : ServiceConfig)
    (k : metric) :
  verdict (with_Alerts s l) cfg k = verdict s cfg k.
Proof. reflexivity. Qed.

(** X16.  The alerts of a rendered snapshot are the evaluation of the
    metrics in that same snapshot under the monitor's configuration:
    one alert, in table order, for each metric above its warning band.
    The snapshot carries the PID that the monitor now holds, its
    event-loop record reports the newest sample of the window, and the
    statistics in it are those of the window that the monitor keeps. *)
Theorem collectAndProcess_renders_evaluation (w : World) (m : Monitor)
    (c : time.Clock) :
  snd (fst (collectAndProcess w m c)) = None ->
  let m' := fst (fst (collectAndProcess w m c)) in
  exists s,
    display.rendered (display m') = Some s
    /\ Status.PID s = PID (config m')
    /\ map untimed (Status.Alerts s) = omap (verdict s (config m')) all
    /\ EventLoopMetrics.Lag (Status.EventLoop s)
       = metrics.lagSample w (config m') (InspectPort (config m'))
    /\ metrics.stats (Status.EventLoop s)
       = metrics.calculateEventLoopStats (metrics m').
Proof.
  intros HN m'.
  destruct (collectAndProcess_rendered w m c HN)
    as (s & mem & c1 & c2 & ca & R & P & _ & _ & EC & EE & _ & _ & A).
  fold m' in R, P, EC, EE, A.
  exists s. split; [exact R|]. split; [exact P|]. split.
  - rewrite A, CheckThresholds_verdicts. reflexivity.
  - destruct (CollectEventLoop_step (config m') (PID (config m'))
                (InspectPort (config m')) w (metrics m) c2) as (_ & e & He & Hl & Hs).
    rewrite EE in He. injection He as <-. rewrite EC in Hs. auto.
Qed.

(** X16 at the first tick on the sample host with a live inspector and a CPU usage of 95. *)
Lemma collectAndProcess_renders_evaluation_witness :
  let m := New (sample.cfg 70) in
  let m' := fst (fst (collectAndProcess (sample.inspected 95) m sample.clock)) in
  exists s,
    display.rendered (display m') = Some s
    /\ Status.PID s = PID (config m')
    /\ map untimed (Status.Alerts s) = omap (verdict s (config m')) all
    /\ EventLoopMetrics.Lag (Status.EventLoop s)
       = metrics.lagSample (sample.inspected 95) (config m') (InspectPort (config m'))
    /\ metrics.stats (Status.EventLoop s)
       = metrics.calculateEventLoopStats (metrics m').
Proof.
  apply (collectAndProcess_renders_evaluation (sample.inspected 95)
           (New (sample.cfg 70)) sample.clock).
  vm_compute. reflexivity.
Defined.

(** X17.  The alerts that a tick renders are about the CPU usage, the
    resident memory, the lag or the utilization only.  The heap
    percentage of a collected snapshot is 60 or 75 or has no value,
    the GC duration is 2.5 ms and 15 handles are active, whatever the
    process does: no tick ever raises a heap, GC or handle alert. *)
Theorem collectAndProcess_alert_kinds (w : World) (m : Monitor) (c : time.Clock) :
  snd (fst (collectAndProcess w m c)) = None ->
  exists s,
    display.rendered (display (fst (fst (collectAndProcess w m c)))) = Some s
    /\ Forall (fun a => about CPU a \/ about MemoryRSS a
                        \/ about Lag a \/ about Utilization a)
         (Status.Alerts s).
Proof.
  intros HN.
  destruct (collectAndProcess_rendered w m c HN)
    as (s & mem & c1 & c2 & ca & R & _ & M & EM & _ & _ & G & H & A).
  exists s. split; [exact R|].
  apply Forall_forall. intros a Ha. rewrite A in Ha.
  apply In_alerts_verdict in Ha. destruct Ha as (k & Hk).
  rewrite verdict_with_Alerts in Hk.
  apply verdict_Some in Hk. destruct Hk as (Hw & Hab & _).
  apply about_untimed in Hab.
  destruct k; auto; exfalso; cbn [exceeds] in Hw.
  - apply CollectMemory_Ok_heap in EM. rewrite <- M in EM.
    unfold heapUsage in Hw.
    destruct EM as [E|[E|E]]; injection E as E1 E2 _; rewrite E1, E2 in Hw;
      vm_compute in Hw; discriminate Hw.
  - rewrite G in Hw. vm_compute in Hw. discriminate Hw.
  - rewrite H in Hw. vm_compute in Hw. discriminate Hw.
Qed.

(** X17 at the first tick on the sample host with a live inspector and a CPU usage of 95. *)
Lemma collectAndProcess_alert_kinds_witness :
  exists s,
    display.rendered
      (display (fst (fst (collectAndProcess (sample.inspected 95)
                            (New (sample.cfg 70)) sample.clock)))) = Some s
    /\ Forall (fun a => about CPU a \/ about MemoryRSS a
                        \/ about Lag a \/ about Utilization a)
         (Status.Alerts s).
Proof.
  apply (collectAndProcess_alert_kinds (sample.inspected 95)
           (New (sample.cfg 70)) sample.clock).
  vm_compute. reflexivity.
Defined.

End TickProperties.
(** ** Stopping, restarting and misconfiguring the monitor *)

Section StartStop.
Import types config host monitor tick.

Lemma loop_settings (events : list event) (m : Monitor) (c : time.Clock) :
  settings (config (fst (fst (loop m events c)))) = settings (config m).
Proof.
  revert m c. induction events as [|[|w] events IH]; intros m c; cbn [loop].
  - reflexivity.
  - reflexivity.
  - unfold time.bind.
    pose proof (collectAndProcess_after w m c) as (HS & _). cbv zeta in HS.
    destruct (collectAndProcess w m c) as [[m' e] c']. cbn [fst] in HS.
    rewrite IH. exact HS.
Qed.

Lemma loop_Start (m : Monitor) (events : list event) (c : time.Clock) :
  running m = false -> (0 < PollingInterval (config m))%Z ->
  Start m events c = loop (set_running m true) events c.
Proof.
  intros Hm Hp. unfold Start. rewrite Hm. cbn [set_running config].
  destruct (Z.leb_spec (PollingInterval (config m)) 0) as [|_]; [lia | reflexivity].
Qed.

Lemma loop_cancelled (ws : list World) (rest : list event) (m : Monitor)
    (c : time.Clock) :
  loop m (map Tick ws ++ Done :: rest) c = loop m (map Tick ws ++ [Done]) c
  /\ snd (fst (loop m (map Tick ws ++ Done :: rest) c)) = Returned None
  /\ running (fst (fst (loop m (map Tick ws ++ Done :: rest) c))) = false.
Proof.
  revert m c. induction ws as [|w ws IH]; intros m c; cbn [map app loop].
  - repeat split.
  - unfold time.bind. destruct (collectAndProcess w m c) as [[m' e] c']. apply IH.
Qed.

(** X18.  Cancelling stops an idle-started monitor cleanly, whatever went
    on before: after any number of ticks, failed or not, the
    cancellation makes [Start] return nil with the monitor idle;
    nothing that arrives after the cancellation is looked at; and the
    monitor can then be started again, its polling interval being what
    it was. *)
Theorem Start_stop_restart (m : Monitor) (ws : list World) (rest : list event)
    (c : time.Clock) :
  running m = false -> (0 < PollingInterval (config m))%Z ->
  let r := Start m (map Tick ws ++ Done :: rest) c in
  snd (fst r) = Returned None
  /\ running (fst (fst r)) = false
  /\ r = Start m (map Tick ws ++ [Done]) c
  /\ PollingInterval (config (fst (fst r))) = PollingInterval (config m)
  /\ forall c', Start (fst (fst r)) [] c' = (set_running (fst (fst r)) true, Polling, c').
Proof.
  intros Hm Hp r.
  subst r. rewrite !(loop_Start m _ c Hm Hp).
  destruct (loop_cancelled ws rest (set_running m true) c) as (E & O & R).
  pose proof (loop_settings (map Tick ws ++ Done :: rest) (set_running m true) c) as S.
  set (m' := fst (fst (loop (set_running m true) (map Tick ws ++ Done :: rest) c))) in *.
  assert (P : PollingInterval (config m') = PollingInterval (config m)).
  { unfold settings in S. cbn [set_running config] in S. congruence. }
  repeat split; try assumption.
  intros c'. unfold Start. rewrite R. cbn [set_running config]. rewrite P.
  destruct (Z.leb_spec (PollingInterval (config m)) 0) as [|_]; [lia|]. reflexivity.
Qed.

(** X18 at a fresh monitor that runs one tick, is cancelled, and has a tick pending. *)
Lemma Start_stop_restart_witness :
  let r := Start (New (sample.cfg 70))
             (map Tick [sample.world] ++ Done :: [Tick sample.world]) sample.clock in
  snd (fst r) = Returned None
  /\ running (fst (fst r)) = false
  /\ r = Start (New (sample.cfg 70)) (map Tick [sample.world] ++ [Done]) sample.clock
  /\ PollingInterval (config (fst (fst r))) = PollingInterval (config (New (sample.cfg 70)))
  /\ forall c', Start (fst (fst r)) [] c' = (set_running (fst (fst r)) true, Polling, c').
Proof.
  apply (Start_stop_restart (New (sample.cfg 70)) [sample.world] [Tick sample.world]
           sample.clock).
  - reflexivity.
  - reflexivity.
Defined.

(** X19.  [Start] with a polling interval that is not positive panics when
    it makes its ticker, after it has set the running flag: no tick
    runs, the flag stays set, and every later [Start] of this monitor
    is refused as already running. *)
Theorem Start_panic_leaves_running (m : Monitor) (events : list event)
    (c : time.Clock) :
  running m = false -> (PollingInterval (config m) <= 0)%Z ->
  Start m events c = (set_running m true, Panicked, c)
  /\ forall events' c',
       Start (set_running m true) events' c'
       = (set_running m true,
          Returned (Some (fmt.Errorf "monitor is already running" [])), c').
Proof.
  intros Hm Hp. unfold Start. rewrite Hm. cbn [set_running config running].
  destruct (Z.leb_spec (PollingInterval (config m)) 0) as [_|]; [|lia].
  split; reflexivity.
Qed.

(** X19 at a fresh monitor with a polling interval of 0. *)
Lemma Start_panic_leaves_running_witness :
  let m := New {| Host := "127.0.0.1"; Port := 3000; PID := 0; InspectPort := 9229;
                  PollingInterval := 0%Z; HeapLimit := "150MB"; CPUThreshold := 70 |} in
  Start m [Tick sample.world] sample.clock = (set_running m true, Panicked, sample.clock)
  /\ forall events' c',
       Start (set_running m true) events' c'
       = (set_running m true,
          Returned (Some (fmt.Errorf "monitor is already running" [])), c').
Proof.
  apply (Start_panic_leaves_running
           (New {| Host := "127.0.0.1"; Port := 3000; PID := 0; InspectPort := 9229;
                   PollingInterval := 0%Z; HeapLimit := "150MB"; CPUThreshold := 70 |})
           [Tick sample.world] sample.clock).
  - reflexivity.
  - cbn. lia.
Defined.

End StartStop.
(** ** Validation and the [watch] command *)

Section Configuration.
Import types config monitor cmd thresholds.
Local Open Scope float_scope.

Lemma leb_false_iff (x y : float) :
  is_nan y = false ->
  (x <=? y) = false <-> is_nan x = true \/ (y <? x) = true.
Proof.
  intros Ny. destruct (is_nan x) eqn:Nx.
  - split; [auto|]. intros _. apply not_true_iff_false.
    rewrite float_order.leb_lex. intros (N & _). congruence.
  - split.
    + intros H. right. destruct (y <? x) eqn:C; [reflexivity|].
      rewrite float_order.leb_total in H by assumption. discriminate.
    + intros [|H]; [discriminate|]. apply float_order.ltb_not_leb, H.
Qed.

Lemma ltb_false_iff (x y : float) :
  is_nan x = false ->
  (x <? y) = false <-> is_nan y = true \/ (y <=? x) = true.
Proof.
  intros Nx. destruct (is_nan y) eqn:Ny.
  - split; [auto|]. intros _. apply not_true_iff_false.
    rewrite float_order.ltb_lex. intros (_ & N & _). congruence.
  - split.
    + intros H. right. apply float_order.leb_total; assumption.
    + intros [|H]; [discriminate|]. apply float_order.leb_not_ltb, H.
Qed.

(** The threshold test of [Validate]. *)
Lemma threshold_accepted (t : float) :
  (t <=? 0) || (t >? 100) = false
  <-> is_nan t = true \/ ((0 <? t) = true /\ (t <=? 100) = true).
Proof.
  rewrite orb_false_iff. unfold float64.gtb.
  rewrite leb_false_iff, ltb_false_iff by reflexivity.
  destruct (is_nan t) eqn:N.
  - split; auto.
  - split.
    + intros [[|A] [|B]]; try discriminate. auto.
    + intros [|[A B]]; [discriminate|]. auto.
Qed.

Lemma Validate_ok (sc : ServiceConfig) :
  Validate sc = None -> (time.Millisecond <= PollingInterval sc)%Z.
Proof.
  unfold Validate.
  destruct ((PID sc =? 0)%Z && (Port sc =? 0)%Z); [discriminate|].
  destruct ((CPUThreshold sc <=? 0) || (CPUThreshold sc >? 100)); [discriminate|].
  destruct (Z.ltb_spec (PollingInterval sc) time.Millisecond); [discriminate | auto].
Qed.

(** X20.  [Validate] accepts exactly the configurations that name a PID or
    a port, poll no faster than once a millisecond, and have a CPU
    threshold above 0 and at most 100, or a threshold that is NaN:
    both threshold comparisons are false on NaN, so NaN passes. *)
Theorem Validate_accepts (sc : ServiceConfig) :
  Validate sc = None
  <-> (PID sc <> 0 \/ Port sc <> 0)%Z
      /\ (is_nan (CPUThreshold sc) = true
          \/ ((0 <? CPUThreshold sc) = true /\ (CPUThreshold sc <=? 100) = true))
      /\ (time.Millisecond <= PollingInterval sc)%Z.
Proof.
  unfold Validate. rewrite <- threshold_accepted.
  destruct (Z.eqb_spec (PID sc) 0) as [P|P], (Z.eqb_spec (Port sc) 0) as [Q|Q];
    cbn [andb];
    try (split; [discriminate | intros ([|] & _); congruence]);
    (destruct ((CPUThreshold sc <=? 0) || (CPUThreshold sc >? 100));
     [split; [discriminate | intros (_ & [=] & _)]|]);
    (destruct (Z.ltb_spec (PollingInterval sc) time.Millisecond);
     [split; [discriminate | intros (_ & _ & ?); lia]
     |split; [intros _; repeat split; auto | reflexivity]]).
Qed.

(** X21.  With a CPU threshold that is NaN, which [Validate] lets pass, no
    CPU alert is ever raised, whatever the usage. *)
Theorem nan_threshold_silences_cpu (m : alerts.Manager) (status : Status.t)
    (cfg : ServiceConfig) (c : time.Clock) :
  is_nan (CPUThreshold cfg) = true ->
  (Validate cfg = None
   <-> (PID cfg <> 0 \/ Port cfg <> 0)%Z /\ (time.Millisecond <= PollingInterval cfg)%Z)
  /\ silent (fst (alerts.CheckThresholds m status cfg c)) CPU.
Proof.
  intros N. split.
  - unfold Validate.
    assert (E : (CPUThreshold cfg <=? 0) || (CPUThreshold cfg >? 100) = false)
      by (apply threshold_accepted; auto).
    rewrite E.
    destruct (Z.eqb_spec (PID cfg) 0) as [P|P], (Z.eqb_spec (Port cfg) 0) as [Q|Q];
      cbn [andb];
      try (split; [discriminate | intros ([|] & _); congruence]);
      (destruct (Z.ltb_spec (PollingInterval cfg) time.Millisecond);
       [split; [discriminate | intros (_ & ?); lia]
       |split; [intros _; split; auto | reflexivity]]).
  - apply silent_iff. cbn [exceeds]. unfold float64.gtb.
    apply not_true_iff_false. rewrite float_order.ltb_lex. intros (N' & _). congruence.
Qed.

(** X21 at the sample configuration with a NaN threshold and a CPU usage of 99. *)
Lemma nan_threshold_silences_cpu_witness :
  (Validate (sample.cfg nan) = None
   <-> (PID (sample.cfg nan) <> 0 \/ Port (sample.cfg nan) <> 0)%Z
       /\ (time.Millisecond <= PollingInterval (sample.cfg nan))%Z)
  /\ silent (fst (alerts.CheckThresholds alerts.NewManager
                    (sample.status 99 0 0 0 0 0 0 0) (sample.cfg nan) sample.clock))
       CPU.
Proof.
  apply (nan_threshold_silences_cpu alerts.NewManager (sample.status 99 0 0 0 0 0 0 0)
           (sample.cfg nan) sample.clock).
  reflexivity.
Defined.

(** The polling loop ends in one of two ways. *)
Lemma loop_outcome (events : list event) (m : Monitor) (c : time.Clock) :
  running m = true ->
  let r := loop m events c in
  (snd (fst r) = Polling /\ running (fst (fst r)) = true)
  \/ (snd (fst r) = Returned None /\ running (fst (fst r)) = false).
Proof.
  revert m c. induction events as [|[|w] events IH]; intros m c Hm; cbn [loop].
  - left. split; [reflexivity | exact Hm].
  - right. split; reflexivity.
  - unfold time.bind.
    pose proof (collectAndProcess_running w m c) as HR.
    destruct (collectAndProcess w m c) as [[m' e] c']. cbn [fst] in HR.
    apply IH. congruence.
Qed.

(** The configuration that [runWatch] builds from the flags. *)
Lemma runWatch_unfold (flags : Flags) (events : list event) (c : time.Clock) :
  let cfg := {|
    Host := host flags; Port := port flags; PID := pid flags;
    InspectPort := inspectPort flags; HeapLimit := heapLimit flags;
    CPUThreshold := cpuThreshold flags;
    PollingInterval := int64 (int64 (pollingMs flags) * time.Millisecond) |} in
  runWatch flags events c
  = match Validate cfg with
    | Some err =>
        (None, Returned (Some (fmt.Errorf "invalid configuration: %w" [fmt.W err])), c)
    | None =>
        let r := loop (set_running (New cfg) true) events c in
        (Some (fst (fst r)), snd (fst r), snd r)
    end.
Proof.
  cbv zeta. unfold runWatch.
  match goal with |- context [Validate ?x] => set (cfg := x) end.
  destruct (Validate cfg) as [err|] eqn:V; [reflexivity|].
  apply Validate_ok in V.
  unfold time.bind. rewrite loop_Start; [|reflexivity|].
  - destruct (loop (set_running (New cfg) true) events c) as [[m out] c']. reflexivity.
  - cbn [New config]. unfold time.Millisecond in V. lia.
Qed.

(** X22.  [watch] never panics and never finds its monitor already running.
    Either the flags are rejected, and then no monitor is made and the
    clock is not read; or the monitor is started with the settings of
    the flags and a polling interval of at least a millisecond, and
    the command is polling with the monitor running, or has returned
    nil after a cancellation with the monitor idle. *)
Theorem runWatch_outcome (flags : Flags) (events : list event) (c : time.Clock) :
  let r := runWatch flags events c in
  (fst (fst r) = None /\ snd r = c
   /\ exists err,
        snd (fst r)
        = Returned (Some (fmt.Errorf "invalid configuration: %w" [fmt.W err])))
  \/ (exists m,
        fst (fst r) = Some m
        /\ (Host (config m), Port (config m), InspectPort (config m),
            HeapLimit (config m), CPUThreshold (config m))
           = (host flags, port flags, inspectPort flags, heapLimit flags,
              cpuThreshold flags)
        /\ PollingInterval (config m) = int64 (int64 (pollingMs flags) * time.Millisecond)
        /\ (time.Millisecond <= PollingInterval (config m))%Z
        /\ ((snd (fst r) = Polling /\ running m = true)
            \/ (snd (fst r) = Returned None /\ running m = false))).
Proof.
  intros r. subst r. rewrite runWatch_unfold.
  match goal with |- context [Validate ?x] => set (cfg := x) end.
  destruct (Validate cfg) as [err|] eqn:V.
  - left. cbn. eauto.
  - right. apply Validate_ok in V.
    pose proof (loop_settings events (set_running (New cfg) true) c) as S.
    pose proof (loop_outcome events (set_running (New cfg) true) c eq_refl) as O.
    cbv zeta in O |- *.
    destruct (loop (set_running (New cfg) true) events c) as [[m out] c'].
    cbn [fst snd] in *. exists m. unfold tick.settings in S.
    cbn [set_running New config Host Port InspectPort PollingInterval HeapLimit
         CPUThreshold cfg] in S.
    injection S as S1 S2 S3 S4 S5 S6.
    split; [reflexivity|]. split; [congruence|]. split; [exact S4|].
    split; [rewrite S4; exact V | exact O].
Qed.

Lemma Validate_interval (sc : ServiceConfig) :
  (PID sc <> 0 \/ Port sc <> 0)%Z ->
  (0 <? CPUThreshold sc) = true -> (CPUThreshold sc <=? 100) = true ->
  Validate sc
  = if (PollingInterval sc <? time.Millisecond)%Z
    then Some (fmt.Errorf "polling interval must be at least 1ms" [])
    else None.
Proof.
  intros HT H0 H100. unfold Validate.
  assert (((PID sc =? 0)%Z && (Port sc =? 0)%Z) = false) as ->.
  { destruct (Z.eqb_spec (PID sc) 0), (Z.eqb_spec (Port sc) 0); try reflexivity.
    destruct HT; congruence. }
  assert ((CPUThreshold sc <=? 0) || (CPUThreshold sc >? 100) = false) as ->
    by (apply threshold_accepted; auto).
  reflexivity.
Qed.

Lemma int64_small (n : Z) :
  (- 9223372036854775808 <= n < 9223372036854775808)%Z -> int64 n = n.
Proof.
  intros H. unfold int64.
  change (2 ^ 63)%Z with 9223372036854775808%Z.
  change (2 ^ 64)%Z with 18446744073709551616%Z.
  rewrite Z.mod_small by lia. lia.
Qed.

(** X23.  The polling interval is the flag times a millisecond in 64-bit
    arithmetic.  With a target and a threshold that pass, a flag of 1
    to 9223372036854 ms starts the monitor with exactly that interval,
    and a flag of -9223372036854 to 0 ms is rejected.  Outside that
    range the product wraps around, in both directions: 9223372036855
    ms is rejected as shorter than 1 ms, 18446744073711 ms is accepted
    with an interval of 1448384 ns, and the negative -9223372036855 ms
    is accepted with an interval of 9223372036854551616 ns. *)
Theorem runWatch_polling_interval (flags : Flags) (events : list event)
    (c : time.Clock) :
  (pid flags <> 0 \/ port flags <> 0)%Z ->
  (0 <? cpuThreshold flags) = true -> (cpuThreshold flags <=? 100) = true ->
  let ms := pollingMs flags in
  let r := runWatch flags events c in
  let rejected :=
    r = (None,
         Returned (Some (fmt.Errorf "invalid configuration: %w"
                           [fmt.W (fmt.Errorf "polling interval must be at least 1ms" [])])),
         c) in
  ((1 <= ms <= 9223372036854)%Z ->
   exists m, fst (fst r) = Some m
             /\ PollingInterval (config m) = (ms * time.Millisecond)%Z)
  /\ ((- 9223372036854 <= ms <= 0)%Z -> rejected)
  /\ (ms = 9223372036855%Z -> rejected)
  /\ (ms = 18446744073711%Z ->
      exists m, fst (fst r) = Some m /\ PollingInterval (config m) = 1448384%Z)
  /\ (ms = (- 9223372036855)%Z ->
      exists m, fst (fst r) = Some m
                /\ PollingInterval (config m) = 9223372036854551616%Z).
Proof.
  intros HT H0 H100 ms r rejected. subst rejected r ms.
  rewrite runWatch_unfold. cbv zeta.
  match goal with |- context [Validate ?x] => set (cfg := x) end.
  rewrite (Validate_interval cfg HT H0 H100).
  assert (HL : forall m0,
            PollingInterval (config (fst (fst (loop (set_running (New cfg) true) events m0))))
            = PollingInterval cfg).
  { intros m0. pose proof (loop_settings events (set_running (New cfg) true) m0) as S.
    unfold tick.settings in S. cbn [set_running New config] in S. congruence. }
  cbn [PollingInterval cfg] in *. unfold time.Millisecond in *.
  set (ms := pollingMs flags) in *.
  split; [|split; [|split; [|split]]].
  - intros Hms. rewrite (int64_small ms), (int64_small (ms * 1000000)) by lia.
    destruct (Z.ltb_spec (ms * 1000000) 1000000); [lia|].
    eexists. split; [reflexivity|]. cbn [fst]. rewrite HL.
    rewrite (int64_small ms), (int64_small (ms * 1000000)) by lia. reflexivity.
  - intros Hms. rewrite (int64_small ms), (int64_small (ms * 1000000)) by lia.
    destruct (Z.ltb_spec (ms * 1000000) 1000000); [reflexivity | lia].
  - intros ->. reflexivity.
  - intros E. rewrite E. cbn.
    eexists. split; [reflexivity|]. rewrite HL, E. reflexivity.
  - intros E. rewrite E. cbn.
    eexists. split; [reflexivity|]. rewrite HL, E. reflexivity.
Qed.

(** X23 at the flags --port 3000 --polling-ms 250, and the wrap-around
    at --polling-ms -9223372036855. *)
Lemma runWatch_polling_interval_witness :
  (exists m,
     fst (fst (runWatch
                 {| host := "127.0.0.1"; port := 3000; pid := 0; heapLimit := "150MB";
                    cpuThreshold := 70; pollingMs := 250; inspectPort := 9229 |}
                 [Tick sample.world] sample.clock)) = Some m
     /\ PollingInterval (config m) = (250 * time.Millisecond)%Z)
  /\ (exists m,
        fst (fst (runWatch
                    {| host := "127.0.0.1"; port := 3000; pid := 0; heapLimit := "150MB";
                       cpuThreshold := 70; pollingMs := - 9223372036855;
                       inspectPort := 9229 |}
                    [Tick sample.world] sample.clock)) = Some m
        /\ PollingInterval (config m) = 9223372036854551616%Z).
Proof.
  split.
  - apply (runWatch_polling_interval
             {| host := "127.0.0.1"; port := 3000; pid := 0; heapLimit := "150MB";
                cpuThreshold := 70; pollingMs := 250; inspectPort := 9229 |}
             [Tick sample.world] sample.clock).
    + right. cbn. lia.
    + reflexivity.
    + reflexivity.
    + cbn. lia.
  - apply (runWatch_polling_interval
             {| host := "127.0.0.1"; port := 3000; pid := 0; heapLimit := "150MB";
                cpuThreshold := 70; pollingMs := - 9223372036855; inspectPort := 9229 |}
             [Tick sample.world] sample.clock).
    + right. cbn. lia.
    + reflexivity.
    + reflexivity.
    + reflexivity.
Defined.

(** X24.  The defaults that [init] registers make a valid configuration as
    soon as a PID or a port is given: the monitor is started with a
    threshold of 70, an interval of 100 ms and inspector port 9229.
    With neither PID nor port the command fails before it makes a
    monitor. *)
Theorem runWatch_defaults (p q : Z) (events : list event) (c : time.Clock) :
  let flags := {|
    host := host defaults; port := q; pid := p; heapLimit := heapLimit defaults;
    cpuThreshold := cpuThreshold defaults; pollingMs := pollingMs defaults;
    inspectPort := inspectPort defaults |} in
  let r := runWatch flags events c in
  if ((p =? 0) && (q =? 0))%Z then
    r = (None,
         Returned (Some (fmt.Errorf "invalid configuration: %w"
                           [fmt.W (fmt.Errorf "must specify either PID or port" [])])),
         c)
  else
    exists m, fst (fst r) = Some m
      /\ CPUThreshold (config m) = 70
      /\ PollingInterval (config m) = (100 * time.Millisecond)%Z
      /\ InspectPort (config m) = 9229%Z
      /\ Port (config m) = q.
Proof.
  intros flags r. subst r. rewrite runWatch_unfold. cbv zeta.
  match goal with |- context [Validate ?x] => set (cfg := x) end.
  unfold Validate. cbn [PID Port cfg flags pid port].
  destruct ((p =? 0) && (q =? 0))%Z; [reflexivity|].
  cbn -[loop].
  pose proof (loop_settings events (set_running (New cfg) true) c) as S.
  unfold tick.settings in S. cbn [set_running New config] in S.
  injection S as S1 S2 S3 S4 S5 S6.
  eexists. split; [reflexivity|]. cbn [fst].
  rewrite S6, S4, S3, S2. repeat split.
Qed.

End Configuration.
(** ** The dashboard and the alerts *)

Section Dashboard.
Import types config thresholds display dashboard.
Local Open Scope float_scope.

(** The status column, row by row: each row grades its metric against
    the two bands that the dashboard has for it. *)
Lemma shown_grade (status : Status.t) (k : metric) :
  shown status k
  = match k with
    | CPU =>
        Some (grade (CPUMetrics.Usage (Status.CPU status) >? 70)
                    (CPUMetrics.Usage (Status.CPU status) >? 90))
    | MemoryRSS =>
        Some (grade (memoryMB status >? 100) (memoryMB status >? 200))
    | HeapPercent =>
        if (MemoryMetrics.HeapTotal (Status.Memory status) >? 0)%Z
        then Some (grade (heapUsage status >? 80) (heapUsage status >? 95))
        else None
    | Lag =>
        Some (grade (EventLoopMetrics.Lag (Status.EventLoop status) >? 5)
                    (EventLoopMetrics.Lag (Status.EventLoop status) >? 20))
    | Utilization =>
        Some (grade (EventLoopMetrics.Utilization (Status.EventLoop status) >? 70)
                    (EventLoopMetrics.Utilization (Status.EventLoop status) >? 90))
    | GCDuration =>
        Some (grade (GCMetrics.Duration (Status.GC status) >? 10)
                    (GCMetrics.Duration (Status.GC status) >? 50))
    | HandleCount =>
        Some (grade (HandleMetrics.Active (Status.Handles status) >? 50)%Z
                    (HandleMetrics.Active (Status.Handles status) >? 100)%Z)
    end.
Proof.
  unfold shown, displayMetrics, grade, memoryMB, heapUsage, MB.
  cbn [first_table app].
  destruct (MemoryMetrics.HeapTotal (Status.Memory status) >? 0)%Z;
    destruct k; reflexivity.
Qed.

Lemma grade_cases (w c : bool) :
  (grade w c = Critical <-> c = true)
  /\ (grade w c = High <-> w = true /\ c = false)
  /\ (grade w c = Normal <-> w = false /\ c = false).
Proof.
  unfold grade. destruct w, c; repeat split; try discriminate; intros []; discriminate.
Qed.

Lemma Some_eq (x y : string) : Some x = Some y <-> x = y.
Proof. split; congruence. Qed.

(** The status that a row shows against the bands of the alert
    evaluator, for a metric whose bands are the same in both. *)
Lemma shown_same_bands (m : alerts.Manager) (status : Status.t)
    (cfg : ServiceConfig) (c : time.Clock) (k : metric) (w b : bool) :
  exceeds status cfg k warning = w -> exceeds status cfg k critical = b ->
  (b = true -> w = true) ->
  forall label : option string,
    (label = Some (grade w b) \/ (label = None /\ w = false)) ->
    let alerts := fst (alerts.CheckThresholds m status cfg c) in
    (label = Some Critical <-> raised alerts k critical)
    /\ (label = Some High <-> raised alerts k warning)
    /\ (label = Some Normal \/ label = None <-> silent alerts k).
Proof.
  intros Hw Hb Hn label Hl alerts. subst alerts.
  rewrite !raised_iff, silent_iff, Hw, Hb.
  destruct (grade_cases w b) as (GC & GH & GN).
  destruct Hl as [->|[-> ->]].
  - rewrite !Some_eq, GC, GH, GN.
    destruct w, b; intuition (try discriminate; try congruence).
  - intuition (try discriminate; try congruence).
Qed.

(** X25.  For the heap percentage, the lag, the utilization, the GC duration
    and the handle count the dashboard and the alerts agree: the row
    of the metric shows Critical exactly when a critical alert is
    raised for it, High exactly when a warning alert is raised, and
    Normal, or no row at all, exactly when no alert is raised.  The
    heap row is left out exactly when the heap total is not
    positive. *)
Theorem displayMetrics_agrees_with_alerts (m : alerts.Manager) (status : Status.t)
    (cfg : ServiceConfig) (c : time.Clock) :
  let alerts := fst (alerts.CheckThresholds m status cfg c) in
  Forall (fun k =>
            (shown status k = Some Critical <-> raised alerts k critical)
            /\ (shown status k = Some High <-> raised alerts k warning)
            /\ (shown status k = Some Normal \/ shown status k = None
                <-> silent alerts k))
    [HeapPercent; Lag; Utilization; GCDuration; HandleCount]
  /\ (shown status HeapPercent = None
      <-> (MemoryMetrics.HeapTotal (Status.Memory status) <= 0)%Z)
  /\ Forall (fun k => shown status k <> None)
       [CPU; MemoryRSS; Lag; Utilization; GCDuration; HandleCount].
Proof.
  intros alerts. subst alerts. split; [|split].
  - apply Forall_forall. intros k Hk.
    assert (K : k <> CPU /\ k <> MemoryRSS)
      by (cbn in Hk; intuition (subst; discriminate)).
    apply (shown_same_bands m status cfg c k _ _ eq_refl eq_refl).
    + apply bands_nested. left. tauto.
    + rewrite shown_grade. destruct k; cbn [exceeds]; try tauto; auto.
      destruct (MemoryMetrics.HeapTotal (Status.Memory status) >? 0)%Z; auto.
  - rewrite shown_grade.
    destruct (Z.gtb_spec (MemoryMetrics.HeapTotal (Status.Memory status)) 0);
      split; try discriminate; try lia; reflexivity.
  - apply Forall_forall. intros k Hk. rewrite shown_grade.
    cbn in Hk. intuition (subst; discriminate).
Qed.

(** X26.  For the resident memory and the CPU the dashboard has bands of its
    own.  Memory: the row shows Critical exactly when a critical alert
    is raised, and a warning alert always shows as High, but the row
    is High with no alert raised exactly when the memory is above 100
    MB and not above 150 MB.  CPU: the row grades the usage against 70
    and 90 whatever the configured threshold, so it shows Critical
    with no alert raised exactly when the usage is above 90 and not
    above the threshold; with the threshold at 70 the row and the
    alerts agree. *)
Theorem displayMetrics_own_bands (m : alerts.Manager) (status : Status.t)
    (cfg : ServiceConfig) (c : time.Clock) :
  let alerts := fst (alerts.CheckThresholds m status cfg c) in
  let usage := CPUMetrics.Usage (Status.CPU status) in
  (shown status MemoryRSS = Some Critical <-> raised alerts MemoryRSS critical)
  /\ (raised alerts MemoryRSS warning -> shown status MemoryRSS = Some High)
  /\ (shown status MemoryRSS = Some High /\ silent alerts MemoryRSS
      <-> (memoryMB status >? 100) = true /\ (memoryMB status >? 150) = false)
  /\ (shown status CPU = Some Critical <-> (usage >? 90) = true)
  /\ (shown status CPU = Some High
      <-> (usage >? 70) = true /\ (usage >? 90) = false)
  /\ (shown status CPU = Some Critical /\ silent alerts CPU
      <-> (usage >? 90) = true /\ (usage >? CPUThreshold cfg) = false)
  /\ (CPUThreshold cfg = 70 ->
      (shown status CPU = Some Critical <-> raised alerts CPU critical)
      /\ (shown status CPU = Some High <-> raised alerts CPU warning)
      /\ (shown status CPU = Some Normal <-> silent alerts CPU)).
Proof.
  intros alerts usage. subst alerts.
  rewrite !raised_iff, !silent_iff, !shown_grade. cbn [exceeds]. fold usage.
  assert (M200 : (memoryMB status >? 200) = true -> (memoryMB status >? 150) = true).
  { unfold float64.gtb. intros H.
    apply float_order.ltb_trans with 200; [reflexivity | exact H]. }
  assert (M150 : (memoryMB status >? 150) = true -> (memoryMB status >? 100) = true).
  { unfold float64.gtb. intros H.
    apply float_order.ltb_trans with 150; [reflexivity | exact H]. }
  assert (U90 : (usage >? 90) = true -> (usage >? 70) = true).
  { unfold float64.gtb. intros H.
    apply float_order.ltb_trans with 90; [reflexivity | exact H]. }
  destruct (grade_cases (memoryMB status >? 100) (memoryMB status >? 200))
    as (MC & MH & MN).
  destruct (grade_cases (usage >? 70) (usage >? 90)) as (UC & UH & UN).
  rewrite !Some_eq, MC, MH, UC, UH, UN.
  split; [|split; [|split; [|split; [|split; [|split]]]]].
  - destruct (memoryMB status >? 200), (memoryMB status >? 150);
      intuition (try discriminate; try congruence).
  - destruct (memoryMB status >? 200), (memoryMB status >? 150),
      (memoryMB status >? 100); intuition (try discriminate; try congruence).
  - destruct (memoryMB status >? 200), (memoryMB status >? 150),
      (memoryMB status >? 100); intuition (try discriminate; try congruence).
  - reflexivity.
  - reflexivity.
  - tauto.
  - intros ->. fold (usage >? 70).
    destruct (usage >? 90), (usage >? 70); intuition (try discriminate; try congruence).
Qed.

End Dashboard.
(** ** The window over a run of the monitor *)

Section Run.
Import types config host monitor tick ticks.

Lemma answers_spec (w : World) (pid : Z) :
  answers w pid = true
  <-> exists proc cpuPercent times info,
        NewProcess w (int32 pid) = Ok proc
        /\ CPUPercent proc = Ok cpuPercent /\ Times proc = Ok times
        /\ MemoryInfo proc = Ok info.
Proof.
  unfold answers. destruct (NewProcess w (int32 pid)) as [proc|err].
  2: { split; [discriminate | intros (? & ? & ? & ? & [=] & _)]. }
  destruct (CPUPercent proc) as [cpu|e1] eqn:E1, (Times proc) as [t|e2] eqn:E2,
    (MemoryInfo proc) as [i|e3] eqn:E3;
    (split; [try discriminate; intros _; exists proc, cpu, t, i; auto
            | try reflexivity;
              intros (? & ? & ? & ? & [= <-] & A & B & C); congruence]).
Qed.

(** One tick of a monitor that knows its PID: a sample enters the
    window exactly when the process answers; the configuration stays. *)
Lemma collectAndProcess_window_step (w : World) (m : Monitor) (c : time.Clock) :
  PID (config m) <> 0%Z ->
  let m' := fst (fst (collectAndProcess w m c)) in
  config m' = config m /\ running m' = running m
  /\ metrics.eventLoopHist (metrics m')
     = if answers w (PID (config m)) then
         let hist := metrics.eventLoopHist (metrics m)
                     ++ [metrics.lagSample w (config m) (InspectPort (config m))] in
         if (100 <? length hist)%nat then drop 1 hist else hist
       else metrics.eventLoopHist (metrics m).
Proof.
  intros HP. pose proof (collectAndProcess_cases w m c) as H. cbv zeta in H |- *.
  destruct H as [(err & Z & _)|(m1 & S1 & H)]; [congruence|].
  assert (m1 = m) as ->.
  { destruct S1 as (A & B & C & D & [[_ E]|(Z & _)]); [|congruence].
    destruct m1, m. cbn in *. congruence. }
  clear S1.
  pose proof (CollectCPU_Ok w (PID (config m)) c) as HC.
  destruct H as [(err & c1 & ECPU & ->)|[(cpu & c1 & err & c2 & ECPU & EMEM & ->)|H]].
  - cbn [fst]. repeat split.
    destruct (answers w (PID (config m))) eqn:A; [|reflexivity].
    apply answers_spec in A. destruct A as (proc & cp & t & i & A1 & A2 & A3 & _).
    destruct (proj2 HC) as (cpu & E); [eauto 6|]. rewrite ECPU in E. discriminate.
  - cbn [fst]. repeat split.
    destruct (answers w (PID (config m))) eqn:A; [|reflexivity].
    apply answers_spec in A. destruct A as (proc & cp & t & i & A1 & _ & _ & A4).
    destruct (proj2 (CollectMemory_Ok w (config m) (PID (config m)) c1)) as (mem & E);
      [eauto|].
    rewrite EMEM in E. discriminate.
  - destruct H as (cpu & c1 & mem & c2 & col & el & c3 & s & ca & c' & H).
    destruct H as (ECPU & EMEM & EEL & _ & _ & _ & _ & _ & _ & _ & _ & _ & ->).
    cbn [fst set_display set_metrics config running metrics]. repeat split.
    assert (A : answers w (PID (config m)) = true).
    { apply answers_spec.
      destruct (proj1 HC) as (proc & cp & t & P & Q & R);
        [exists cpu; rewrite ECPU; reflexivity|].
      destruct (proj1 (CollectMemory_Ok w (config m) (PID (config m)) c1))
        as (proc' & i & P' & Q'); [exists mem; rewrite EMEM; reflexivity|].
      assert (proc' = proc) as -> by congruence. exists proc, cp, t, i. auto. }
    rewrite A.
    destruct (CollectEventLoop_step (config m) (PID (config m)) (InspectPort (config m))
                w (metrics m) c2) as (Hh & _).
    rewrite EEL in Hh. exact Hh.
Qed.

Lemma loop_window_samples (cfg : ServiceConfig) (ws : list World) (m : Monitor)
    (c : time.Clock) :
  PID cfg <> 0%Z -> config m = cfg ->
  length (metrics.eventLoopHist (metrics m)) <= 100 ->
  let all := metrics.eventLoopHist (metrics m)
             ++ map (fun w => metrics.lagSample w cfg (InspectPort cfg))
                  (filter (fun w => answers w (PID cfg)) ws) in
  metrics.eventLoopHist (metrics (fst (fst (loop m (map Tick ws) c))))
  = drop (length all - 100) all.
Proof.
  intros HP. revert m c. induction ws as [|w ws IH]; intros m c Hc Hl; cbv zeta.
  - cbn. rewrite app_nil_r. replace (_ - 100) with 0 by lia. reflexivity.
  - cbn [map loop]. unfold time.bind.
    pose proof (collectAndProcess_window_step w m c) as HS. cbv zeta in HS.
    rewrite Hc in HS. specialize (HS HP).
    destruct (collectAndProcess w m c) as [[m' e] c']. cbn [fst] in HS.
    destruct HS as (Hc' & _ & Hh).
    cbn [filter].
    destruct (answers w (PID cfg)) eqn:A.
    + rewrite drop_last_100 in Hh by exact Hl.
      cbv zeta in IH. rewrite (IH m' c' Hc').
      * rewrite Hh. cbn [map]. apply last_100_step. exact Hl.
      * rewrite Hh, length_drop. lia.
    + cbv zeta in IH. rewrite (IH m' c' Hc'); rewrite Hh; [reflexivity | exact Hl].
Qed.

(** X27.  Over a run of a monitor that was given its PID, the window holds
    the lag samples of the ticks at which the process answered, the
    most recent 100 of them, oldest first: a tick at which the process
    does not answer leaves no trace in the window, and every other
    tick adds exactly one sample, measured or 0. *)
Theorem Start_window_samples (cfg : ServiceConfig) (ws : list World)
    (c : time.Clock) :
  PID cfg <> 0%Z -> (0 < PollingInterval cfg)%Z ->
  let samples := map (fun w => metrics.lagSample w cfg (InspectPort cfg))
                   (filter (fun w => answers w (PID cfg)) ws) in
  metrics.eventLoopHist (metrics (fst (fst (Start (New cfg) (map Tick ws) c))))
  = drop (length samples - 100) samples.
Proof.
  intros HP HI samples.
  rewrite loop_Start by (try reflexivity; exact HI).
  apply (loop_window_samples cfg ws (set_running (New cfg) true) c HP eq_refl).
  cbn. lia.
Qed.

(** X27 at two ticks of a fresh monitor, with and without a live inspector. *)
Lemma Start_window_samples_witness :
  let cfg := sample.cfg 70 in
  let ws := [sample.inspected 12.5; sample.world] in
  let samples := map (fun w => metrics.lagSample w cfg (InspectPort cfg))
                   (filter (fun w => answers w (PID cfg)) ws) in
  metrics.eventLoopHist (metrics (fst (fst (Start (New cfg) (map Tick ws) sample.clock))))
  = drop (length samples - 100) samples.
Proof.
  apply (Start_window_samples (sample.cfg 70) [sample.inspected 12.5; sample.world]
           sample.clock).
  - discriminate.
  - reflexivity.
Defined.

(** A tick of a monitor that holds a PID whose process is gone. *)
Lemma collectAndProcess_gone (w : World) (m : Monitor) (c : time.Clock)
    (err : fmt.error) :
  PID (config m) <> 0%Z ->
  NewProcess w (int32 (PID (config m))) = Err err ->
  collectAndProcess w m c
  = (m, Some (fmt.Errorf "failed to collect CPU metrics: %w"
                [fmt.W (fmt.Errorf "failed to get process %d: %w"
                          [fmt.D (PID (config m)); fmt.W err])]), c).
Proof.
  intros HP HE. unfold collectAndProcess.
  destruct (Z.eqb_spec (PID (config m)) 0) as [|_]; [congruence|].
  unfold time.bind, metrics.CollectCPU. rewrite HE. reflexivity.
Qed.

(** X28.  A monitor holds on to its PID.  Once the PID is set, by flag or by
    the first tick that found the port's owner, the port is never
    looked up again: at every tick at which that process does not
    exist, whoever listens on the port by then, the tick fails on the
    CPU collection and writes nothing, so over any run of such ticks
    the monitor, its window and its dashboard stay exactly as they
    were, and [Start] keeps polling without returning an error. *)
Theorem loop_process_gone (m : Monitor) (ws : list World) (c : time.Clock) :
  PID (config m) <> 0%Z ->
  Forall (fun w => exists err, NewProcess w (int32 (PID (config m))) = Err err) ws ->
  loop m (map Tick ws) c = (m, Polling, c)
  /\ Forall (fun w => exists err,
               snd (fst (collectAndProcess w m c))
               = Some (fmt.Errorf "failed to collect CPU metrics: %w"
                         [fmt.W (fmt.Errorf "failed to get process %d: %w"
                                   [fmt.D (PID (config m)); fmt.W err])])) ws.
Proof.
  intros HP HF. split.
  - induction HF as [|w ws (err & HE) _ IH]; [reflexivity|].
    cbn [map loop]. unfold time.bind.
    rewrite (collectAndProcess_gone w m c err HP HE). exact IH.
  - apply Forall_forall. intros w Hw. rewrite Forall_forall in HF.
    destruct (HF w Hw) as (err & HE). exists err.
    rewrite (collectAndProcess_gone w m c err HP HE). reflexivity.
Qed.

(** X28 at a monitor configured with PID 1 over two ticks on hosts that do not have it. *)
Lemma loop_process_gone_witness :
  let m := New (set_PID (sample.cfg 70) 1) in
  loop m (map Tick [sample.world; sample.inspected 50]) sample.clock
  = (m, Polling, sample.clock)
  /\ Forall (fun w => exists err,
               snd (fst (collectAndProcess w m sample.clock))
               = Some (fmt.Errorf "failed to collect CPU metrics: %w"
                         [fmt.W (fmt.Errorf "failed to get process %d: %w"
                                   [fmt.D (PID (config m)); fmt.W err])]))
       [sample.world; sample.inspected 50].
Proof.
  apply (loop_process_gone (New (set_PID (sample.cfg 70) 1))
           [sample.world; sample.inspected 50] sample.clock).
  - discriminate.
  - repeat constructor; eexists; reflexivity.
Defined.

End Run.
(** ** The memory bands in bytes *)

Section MemoryBands.
Import types config thresholds dashboard order rounding float_rounding.
Local Open Scope float_scope.

Lemma digits_normal (m : positive) :
  (2 ^ 52 <= Zpos m < 2 ^ 53)%Z -> digits (Zpos m) = 53%Z.
Proof. intros H. apply digits_unique; [lia | exact H]. Qed.

Lemma bounded_normal (m : positive) (e : Z) :
  (2 ^ 52 <= Zpos m < 2 ^ 53)%Z -> (-1074 <= e <= 971)%Z ->
  bounded prec emax m e = true.
Proof.
  intros Hm He. unfold bounded, canonical_mantissa.
  change (Zpos (digits2_pos m)) with (Zdigits2 (Zpos m)).
  rewrite Zdigits2_digits, fexp_fexp64, (digits_normal m Hm).
  change (emax - prec)%Z with 971%Z.
  apply andb_true_iff. split; [apply Z.eqb_eq; unfold fexp64; lia | apply Z.leb_le; lia].
Qed.

(** Dividing a normal number by 1024 lowers its exponent by 10. *)
Lemma div_1024_exact (x : float) (m : positive) (e : Z) :
  Prim2SF x = S754_finite false m e -> (2 ^ 52 <= Zpos m)%Z -> (-1063 <= e)%Z ->
  Prim2SF (x / 1024) = S754_finite false m (e - 10).
Proof.
  intros Ex Hn He. pose proof (Prim2SF_valid x) as V. rewrite Ex in V.
  destruct (bounded_spec m e V) as (Hr & Hm & _ & _).
  assert (Hd : digits (Zpos m) = 53%Z) by (apply digits_normal; lia).
  assert (E1024 : Prim2SF 1024 = S754_finite false 4503599627370496 (-42))
    by (vm_compute; reflexivity).
  rewrite div_spec, Ex, E1024. unfold SF64div, SFdiv. cbn [xorb].
  assert (Ecore : SFdiv_core_binary prec emax (Zpos m) e 4503599627370496 (-42)
                  = (Zpos m~0, (e - 11)%Z, loc_Exact)).
  { unfold SFdiv_core_binary. rewrite !Zdigits2_digits, fexp_fexp64, Hd.
    change (digits 4503599627370496) with 53%Z.
    replace (Z.min (fexp64 (53 + e - (53 + -42))) (e - -42)) with (e - 11)%Z
      by (unfold fexp64; lia).
    replace (e - -42 - (e - 11))%Z with 53%Z by lia.
    rewrite Z.shiftl_mul_pow2 by lia.
    assert (Hq : (Zpos m * 2 ^ 53 = Zpos m~0 * 4503599627370496)%Z).
    { change (2 ^ 53)%Z with (2 * 4503599627370496)%Z. lia. }
    pose proof (Z_div_mod (Zpos m * 2 ^ 53) 4503599627370496 eq_refl) as Hdm.
    destruct (Z.div_eucl (Zpos m * 2 ^ 53) 4503599627370496) as [q r].
    assert (q = Zpos m~0 /\ r = 0%Z) as [-> ->] by (split; nia).
    reflexivity. }
  rewrite Ecore.
  rewrite binary_round_aux_R.
  2: { replace (Zpos m~0) with (Zpos m * 2 ^ 1)%Z by (change (2 ^ 1)%Z with 2%Z; lia).
       rewrite digits_scale, Hd by lia. unfold fexp64. lia. }
  replace (Zpos m~0) with (Zpos m * 2 ^ 1)%Z by (change (2 ^ 1)%Z with 2%Z; lia).
  replace (e - 11)%Z with (e - 10 - 1)%Z by lia.
  rewrite R_scale by lia.
  apply R_id. apply bounded_normal; lia.
Qed.

(** The conversion of a positive 64-bit integer is a normal number. *)
Lemma of_Z_normal (z : Z) :
  (0 < z < 2 ^ 64)%Z ->
  exists m e, Prim2SF (float64.of_Z z) = S754_finite false m e
              /\ (2 ^ 52 <= Zpos m)%Z /\ (-52 <= e)%Z.
Proof.
  intros Hz. rewrite of_Z_spec by lia.
  destruct (R_shape false z 0 ltac:(lia)) as (m2 & e2 & ER & Hm2 & Hcase & Hnorm).
  pose proof (digits_pos z ltac:(lia)) as Hdp.
  assert (Hd64 : (digits z <= 64)%Z).
  { assert (H := digits_mono z (2 ^ 64 - 1) ltac:(lia)).
    change (digits (2 ^ 64 - 1)) with 64%Z in H. exact H. }
  assert (Hf : (-52 <= fexp64 (digits z + 0) <= 11)%Z) by (unfold fexp64; lia).
  specialize (Hnorm ltac:(lia)).
  assert (He2 : (-52 <= e2 <= 12)%Z) by (cbv zeta in Hcase; lia).
  destruct m2 as [|p|p]; try lia.
  destruct (Z.leb_spec e2 971); [|lia].
  exists p, e2. repeat split; [exact ER | exact Hnorm | lia].
Qed.

(** Resident memory in MB against a band of [T] MB, in bytes. *)
Lemma memoryMB_above (T : float) (bytes : Z) (M : positive) (E : Z) :
  Prim2SF T = S754_finite false M E ->
  Prim2SF (float64.of_Z bytes) = S754_finite false M (E + 20) ->
  (float64.of_Z bytes <? float64.of_Z (bytes + 1)) = true ->
  (0 < bytes)%Z ->
  forall rss, (0 <= rss < 2 ^ 64)%Z ->
    (float64.of_Z rss / 1024 / 1024 >? T) = (bytes <? rss)%Z.
Proof.
  intros ET EB Hnext Hb rss Hr.
  destruct (Z.eq_dec rss 0) as [->|Hz].
  { destruct (Z.ltb_spec bytes 0); [lia|].
    unfold float64.gtb. apply not_true_iff_false. rewrite ltb_spec, ET.
    change (Prim2SF (float64.of_Z 0 / 1024 / 1024)) with (S754_zero false).
    discriminate. }
  destruct (of_Z_normal rss ltac:(lia)) as (m & e & Er & Hm & He).
  assert (E1 : Prim2SF (float64.of_Z rss / 1024) = S754_finite false m (e - 10))
    by (apply div_1024_exact; [exact Er | exact Hm | lia]).
  assert (E2 : Prim2SF (float64.of_Z rss / 1024 / 1024) = S754_finite false m (e - 20)).
  { rewrite (div_1024_exact _ m (e - 10) E1 Hm) by lia. f_equal. lia. }
  assert (Hcmp : (float64.of_Z rss / 1024 / 1024 >? T)
                 = (float64.of_Z bytes <? float64.of_Z rss)).
  { unfold float64.gtb. rewrite !ltb_spec, ET, E2, EB, Er.
    unfold SFltb, SFcompare.
    destruct (Z.compare_spec E (e - 20)), (Z.compare_spec (E + 20) e);
      try lia; reflexivity. }
  rewrite Hcmp. destruct (Z.ltb_spec bytes rss).
  - apply float_order.ltb_leb_trans with (float64.of_Z (bytes + 1)); [exact Hnext|].
    apply of_Z_mono. lia.
  - apply float_order.leb_not_ltb, of_Z_mono. lia.
Qed.

Lemma memoryMB_100 (rss : Z) :
  (0 <= rss < 2 ^ 64)%Z ->
  (float64.of_Z rss / 1024 / 1024 >? 100) = (104857600 <? rss)%Z.
Proof.
  apply (memoryMB_above 100 104857600 7036874417766400 (-46));
    [vm_compute; reflexivity .. | lia].
Qed.

Lemma memoryMB_150 (rss : Z) :
  (0 <= rss < 2 ^ 64)%Z ->
  (float64.of_Z rss / 1024 / 1024 >? 150) = (157286400 <? rss)%Z.
Proof.
  apply (memoryMB_above 150 157286400 5277655813324800 (-45));
    [vm_compute; reflexivity .. | lia].
Qed.

Lemma memoryMB_200 (rss : Z) :
  (0 <= rss < 2 ^ 64)%Z ->
  (float64.of_Z rss / 1024 / 1024 >? 200) = (209715200 <? rss)%Z.
Proof.
  apply (memoryMB_above 200 209715200 7036874417766400 (-45));
    [vm_compute; reflexivity .. | lia].
Qed.

(** X29.  The memory bands are sharp in bytes.  For a resident set size in
    the range of a uint64, the conversion to MB in floating point
    loses nothing at the bands: a warning alert is raised exactly from
    157286401 to 209715200 bytes, a critical alert exactly above
    209715200 bytes (200 MiB), none up to 157286400 bytes (150 MiB);
    and the dashboard shows High exactly from 104857601 to 209715200
    bytes. *)
Theorem memory_bands_in_bytes (m : alerts.Manager) (status : Status.t)
    (cfg : ServiceConfig) (c : time.Clock) :
  let rss := MemoryMetrics.RSS (Status.Memory status) in
  (0 <= rss < 2 ^ 64)%Z ->
  let alerts := fst (alerts.CheckThresholds m status cfg c) in
  (raised alerts MemoryRSS warning <-> (157286400 < rss <= 209715200)%Z)
  /\ (raised alerts MemoryRSS critical <-> (209715200 < rss)%Z)
  /\ (silent alerts MemoryRSS <-> (rss <= 157286400)%Z)
  /\ (shown status MemoryRSS = Some High <-> (104857600 < rss <= 209715200)%Z)
  /\ (shown status MemoryRSS = Some Critical <-> (209715200 < rss)%Z).
Proof.
  intros rss Hr alerts. subst alerts.
  rewrite !raised_iff, silent_iff, shown_grade. cbn [exceeds].
  unfold memoryMB. fold rss.
  rewrite (memoryMB_100 rss Hr), (memoryMB_150 rss Hr), (memoryMB_200 rss Hr).
  destruct (grade_cases (104857600 <? rss)%Z (209715200 <? rss)%Z) as (GC & GH & _).
  rewrite !Some_eq, GC, GH.
  destruct (Z.ltb_spec 104857600 rss), (Z.ltb_spec 157286400 rss),
    (Z.ltb_spec 209715200 rss);
    repeat split; intros; try lia; try discriminate; try tauto;
    try (exfalso; intuition (try lia; try discriminate)).
Qed.

(** X29 at a resident set size of 157286401 bytes, one byte above 150 MiB. *)
Lemma memory_bands_in_bytes_witness :
  let status := sample.status 0 157286401 0 0 0 0 0 0 in
  let rss := MemoryMetrics.RSS (Status.Memory status) in
  let alerts :=
    fst (alerts.CheckThresholds alerts.NewManager status (sample.cfg 70) sample.clock) in
  (raised alerts MemoryRSS warning <-> (157286400 < rss <= 209715200)%Z)
  /\ (raised alerts MemoryRSS critical <-> (209715200 < rss)%Z)
  /\ (silent alerts MemoryRSS <-> (rss <= 157286400)%Z)
  /\ (shown status MemoryRSS = Some High <-> (104857600 < rss <= 209715200)%Z)
  /\ (shown status MemoryRSS = Some Critical <-> (209715200 < rss)%Z).
Proof.
  apply (memory_bands_in_bytes alerts.NewManager
           (sample.status 0 157286401 0 0 0 0 0 0) (sample.cfg 70) sample.clock).
  cbn. lia.
Defined.

End MemoryBands.
